(** * Hospital patient-flow simulation (hospital_system.py)

    A shallow embedding of the pipeline of [hospital_system.py]:
    registration (threads under a lock), diagnosis workers (processes fed
    by a queue), resource allocation and discharge (cooperative [asyncio]
    tasks sharing two semaphores and a queue), and the orchestrator
    [hospital_simulation] that wires them together.

    Conventions.
    - Python [int] is [Z]; Python [float] is a type [num] with the four
      arithmetic operations ([Arith]).  Two instances are given: IEEE-754
      binary64 (what CPython computes) and exact rationals.
    - The values returned by [random] and [time.time()] are inputs of the
      operation that asks for them.
    - [print], and the construction of the doctor/bed handle dictionaries
      from random draws, are total: they return and have no other effect.
    - A cooperative task is a record with a program counter; one step runs
      one statement group of the source.  A step that cannot run yet (a
      semaphore at zero, an empty queue) is [None].
    - The diagnosis workers are given twice: one pass of the loop as a
      function ([worker_iteration]), and the workers as processes with a
      program counter each ([DiagnosisStage]), whose steps interleave
      with each other and with the puts on the diagnosis queue. *)

From Stdlib Require Import ZArith QArith Qcanon Floats Uint63 Lia.
From stdpp Require Import base list strings pretty.

Local Open Scope Z_scope.

(** ** Arithmetic of Python floats *)

Class Arith (num : Type) := {
  num_of_int : Z -> num;
  num_add : num -> num -> num;
  num_sub : num -> num -> num;
  num_mul : num -> num -> num;
  num_div : num -> num -> num }.

(** CPython floats: binary64, round to nearest even.  [int] to [float]
    goes through a 63-bit integer, exact for the counters used here. *)
#[export] Instance binary64 : Arith float := {|
  num_of_int z := PrimFloat.of_uint63 (Uint63.of_Z z);
  num_add := PrimFloat.add;
  num_sub := PrimFloat.sub;
  num_mul := PrimFloat.mul;
  num_div := PrimFloat.div |}.

(** The same expressions read in exact rational arithmetic. *)
#[export] Instance exact_rational : Arith Qc := {|
  num_of_int z := Q2Qc (inject_Z z);
  num_add := Qcplus;
  num_sub := Qcminus;
  num_mul := Qcmult;
  num_div := Qcdiv |}.


(** ** Enumerations (lines 13-28) *)

Inductive PatientStatus :=
  | WAITING_REGISTRATION
  | REGISTERED
  | WAITING_DIAGNOSIS
  | DIAGNOSED
  | WAITING_RESOURCE
  | IN_TREATMENT
  | READY_FOR_DISCHARGE
  | DISCHARGED.

#[export] Instance PatientStatus_eq_dec : EqDecision PatientStatus.
Proof. solve_decision. Defined.

Definition PatientStatus_value (s : PatientStatus) : Z :=
  match s with
  | WAITING_REGISTRATION => 0
  | REGISTERED => 1
  | WAITING_DIAGNOSIS => 2
  | DIAGNOSED => 3
  | WAITING_RESOURCE => 4
  | IN_TREATMENT => 5
  | READY_FOR_DISCHARGE => 6
  | DISCHARGED => 7
  end.

Inductive Priority := LOW | MEDIUM | HIGH | CRITICAL.

#[export] Instance Priority_eq_dec : EqDecision Priority.
Proof. solve_decision. Defined.

Definition Priority_value (p : Priority) : Z :=
  match p with LOW => 3 | MEDIUM => 2 | HIGH => 1 | CRITICAL => 0 end.

(** [[p for p in Priority]]: members in definition order. *)
Definition Priority_members : list Priority := [LOW; MEDIUM; HIGH; CRITICAL].

(** ** The [random] module, with the raw draw as an argument *)

(** [random.choice(seq)] is [seq[_randbelow(len(seq))]]; [r] stands for
    the raw draw, reduced below the length. *)
Definition random_choice {A} (d : A) (seq : list A) (r : nat) : A :=
  nth (r mod length seq)%nat seq d.

(** [random.randint(a, b)]: an integer of [a..b], both ends included. *)
Definition random_randint (a b : Z) (r : nat) : Z :=
  a + Z.of_nat r mod (b - a + 1).

(** Result of a Python comparison that may raise [TypeError]. *)
Inductive PyResult (A : Type) :=
  | Returns (a : A)
  | RaisesTypeError.
Arguments Returns {A} a.
Arguments RaisesTypeError {A}.

(** [Priority] derives from plain [Enum], which defines no ordering:
    [a < b] finds [NotImplemented] on both sides and raises. *)
Definition Priority_lt (a b : Priority) : PyResult bool := RaisesTypeError.

(** [(a,) < (b,)] on one-element tuples: the first position where the
    items differ (by [==]) is compared with [<]; equal tuples of equal
    length are not smaller. *)
Definition tuple1_lt (a b : Priority) : PyResult bool :=
  if bool_decide (a = b) then Returns false else Priority_lt a b.

(** Truthiness of an optional dictionary: [None] is false, a handle
    dictionary (two keys) is true. *)
Definition truthy {A} (o : option A) : bool :=
  match o with Some _ => true | None => false end.

Inductive Resource := Doctor | Bed.

#[export] Instance Resource_eq_dec : EqDecision Resource.
Proof. solve_decision. Defined.

Inductive Stage := Allocation | Discharge.

#[export] Instance Stage_eq_dec : EqDecision Stage.
Proof. solve_decision. Defined.

(** What happened, newest first.  The index is the position of the
    patient object in [allocation_tasks]. *)
Inductive Event :=
  | EvCollect (i : nat)
  | EvPollSleep
  | EvAcquire (r : Resource) (i : nat)
  | EvRelease (st : Stage) (r : Resource) (i : nat)
  | EvEnqueue (i : nat)
  | EvDequeue (i : nat)
  | EvDischarged (i : nat)
  | EvLost (i : nat)
  | EvCancel.

#[export] Instance Event_eq_dec : EqDecision Event.
Proof. solve_decision. Defined.

Definition b2z (b : bool) : Z := if b then 1 else 0.

(** Number of events of a trace that satisfy [f]. *)
Fixpoint count (f : Event -> bool) (tr : list Event) : Z :=
  match tr with
  | [] => 0
  | e :: tr' => b2z (f e) + count f tr'
  end.

(** Number of occurrences of an event in a trace. *)
Definition occ (e : Event) (tr : list Event) : Z :=
  count (λ x, bool_decide (x = e)) tr.

Definition is_acquire (r : Resource) (e : Event) : bool :=
  match e with EvAcquire r' _ => bool_decide (r' = r) | _ => false end.

Definition is_release (r : Resource) (e : Event) : bool :=
  match e with EvRelease _ r' _ => bool_decide (r' = r) | _ => false end.

Definition is_collect (e : Event) : bool :=
  match e with EvCollect _ => true | _ => false end.

Definition is_enqueue (e : Event) : bool :=
  match e with EvEnqueue _ => true | _ => false end.

Definition is_dequeue (e : Event) : bool :=
  match e with EvDequeue _ => true | _ => false end.

Definition is_discharged (e : Event) : bool :=
  match e with EvDischarged _ => true | _ => false end.

Definition is_lost (e : Event) : bool :=
  match e with EvLost _ => true | _ => false end.

(** Program counters of [allocate_resources] (lines 120-169). *)
Inductive AllocPc :=
  | A_created        (* task created, body not entered *)
  | A_check_sleep    (* line 126, [await asyncio.sleep] *)
  | A_acq_doctor     (* line 133 *)
  | A_doctor_handle  (* line 134 *)
  | A_acq_bed        (* line 138 *)
  | A_bed_handle     (* line 139 *)
  | A_lock           (* lines 142-148 *)
  | A_treatment      (* lines 153-155 *)
  | A_put            (* lines 157-158 *)
  | A_done           (* returned after line 159 *)
  | A_failed         (* returned from the handler, lines 161-169 *)
  | A_raised.        (* exception escaped, raised before the [try] *)

#[export] Instance AllocPc_eq_dec : EqDecision AllocPc.
Proof. solve_decision. Defined.

(** Program counters of [process_discharge] (lines 173-205). *)
Inductive DischargePc :=
  | D_created            (* task created by line 228, not yet run *)
  | D_get                (* line 177 *)
  | D_sleep (i : nat)    (* line 180, holding the dequeued patient *)
  | D_returned           (* left the loop through line 203 *)
  | D_cancelled.         (* cancelled before its first step *)

(** Program counters of [hospital_simulation] from line 249 on. *)
Inductive OrchPc :=
  | O_collect            (* lines 251-268 *)
  | O_gather             (* lines 273-274 *)
  | O_join               (* line 280 *)
  | O_cancel             (* lines 284-285 *)
  | O_await_cancelled    (* lines 286-289 *)
  | O_shutdown.          (* line 291 on *)

#[export] Instance OrchPc_eq_dec : EqDecision OrchPc.
Proof. solve_decision. Defined.

(** A statement either completes or raises an [Exception]. *)
Inductive Outcome := Normal | Raise.

#[export] Instance Outcome_eq_dec : EqDecision Outcome.
Proof. solve_decision. Defined.

Section Hospital.
Context {num : Type} `{Arith num}.

(** ** Data model (lines 30-63) *)

Record Handle := { handle_id : Z; handle_kind : string }.

Record Diagnosis := {
  condition : string;
  severity : Z;
  recommended_treatment : string;
  processing_time : num }.

Record AssignedResources := {
  doctor : option Handle;
  bed : option Handle;
  assignment_time : num }.

(** The dictionaries [diagnosis] and [assigned_resources] start empty
    ([None]) and are only ever replaced by a full dictionary. *)
Record Patient := {
  priority : Priority;
  id : Z;
  name : string;
  symptoms : list string;
  status : PatientStatus;
  registration_time : num;
  diagnosis : option Diagnosis;
  assigned_resources : option AssignedResources }.

Definition set_status (st : PatientStatus) (p : Patient) : Patient :=
  {| priority := priority p; id := id p; name := name p;
     symptoms := symptoms p; status := st;
     registration_time := registration_time p;
     diagnosis := diagnosis p;
     assigned_resources := assigned_resources p |}.

Definition set_priority (pr : Priority) (p : Patient) : Patient :=
  {| priority := pr; id := id p; name := name p;
     symptoms := symptoms p; status := status p;
     registration_time := registration_time p;
     diagnosis := diagnosis p;
     assigned_resources := assigned_resources p |}.

Definition set_diagnosis (d : Diagnosis) (p : Patient) : Patient :=
  {| priority := priority p; id := id p; name := name p;
     symptoms := symptoms p; status := status p;
     registration_time := registration_time p;
     diagnosis := Some d;
     assigned_resources := assigned_resources p |}.

Definition set_assigned_resources (a : AssignedResources) (p : Patient)
  : Patient :=
  {| priority := priority p; id := id p; name := name p;
     symptoms := symptoms p; status := status p;
     registration_time := registration_time p;
     diagnosis := diagnosis p;
     assigned_resources := Some a |}.

(** [Patient.__lt__] generated by [@dataclass(order=True)]: the tuples of
    the fields declared with [compare=True] are compared, and [priority]
    is the only such field. *)
Definition Patient_lt (p q : Patient) : PyResult bool :=
  tuple1_lt (priority p) (priority q).

(** [asyncio.Queue]: the items and the counter behind [join]/[task_done].
    The items are references to patient objects. *)
Record AsyncQueue := {
  items : list nat;
  unfinished_tasks : Z }.

(** [HospitalResources] (lines 45-63).  A semaphore is its counter; the
    three locks are never held across a suspension point and carry no
    state here. *)
Record HospitalResources := {
  doctors_semaphore : Z;
  beds_semaphore : Z;
  diagnosis_queue : list (option Patient);
  discharge_queue : AsyncQueue;
  total_patients : Z;
  processed_patients : Z;
  avg_wait_time : num }.

(** [HospitalResources(num_doctors, num_beds)]; [asyncio.Semaphore]
    raises [ValueError] on a negative initial value. *)
Definition HospitalResources_init (num_doctors num_beds : Z)
  : option HospitalResources :=
  if (num_doctors <? 0) || (num_beds <? 0) then None
  else Some {| doctors_semaphore := num_doctors;
               beds_semaphore := num_beds;
               diagnosis_queue := [];
               discharge_queue := {| items := []; unfinished_tasks := 0 |};
               total_patients := 0;
               processed_patients := 0;
               avg_wait_time := num_of_int 0 |}.

Definition semaphore (r : Resource) (res : HospitalResources) : Z :=
  match r with
  | Doctor => doctors_semaphore res
  | Bed => beds_semaphore res
  end.

Definition set_semaphore (r : Resource) (v : Z) (res : HospitalResources)
  : HospitalResources :=
  {| doctors_semaphore :=
       match r with Doctor => v | Bed => doctors_semaphore res end;
     beds_semaphore :=
       match r with Doctor => beds_semaphore res | Bed => v end;
     diagnosis_queue := diagnosis_queue res;
     discharge_queue := discharge_queue res;
     total_patients := total_patients res;
     processed_patients := processed_patients res;
     avg_wait_time := avg_wait_time res |}.

Definition set_discharge_queue (q : AsyncQueue) (res : HospitalResources)
  : HospitalResources :=
  {| doctors_semaphore := doctors_semaphore res;
     beds_semaphore := beds_semaphore res;
     diagnosis_queue := diagnosis_queue res;
     discharge_queue := q;
     total_patients := total_patients res;
     processed_patients := processed_patients res;
     avg_wait_time := avg_wait_time res |}.

(** ** Registration (lines 66-80) *)

(** The critical section of [register_patient], lines 71-78; [r] is the
    draw behind [random.choice]. *)
Definition register_patient (r : nat) (patient : Patient)
    (res : HospitalResources) : HospitalResources :=
  let severity := random_choice LOW Priority_members r in
  let patient' := set_status REGISTERED (set_priority severity patient) in
  {| doctors_semaphore := doctors_semaphore res;
     beds_semaphore := beds_semaphore res;
     diagnosis_queue := diagnosis_queue res ++ [Some patient'];
     discharge_queue := discharge_queue res;
     total_patients := total_patients res + 1;
     processed_patients := processed_patients res;
     avg_wait_time := avg_wait_time res |}.

(** [patients_to_register] (lines 230-237): ids [1..num_patients];
    [draws i] is what [random.choice] and [time.time()] give for the
    [i]-th patient. *)
Definition symptom_names : list string :=
  ["Fiebre"; "Dolor"; "Tos"; "Mareo"; "Fractura"].

Definition new_patient (draws : Z -> nat * num) (i : Z) : Patient :=
  {| priority := MEDIUM;
     id := i;
     name := "Paciente_" +:+ pretty i;
     symptoms := [random_choice "" symptom_names (fst (draws i))];
     status := WAITING_REGISTRATION;
     registration_time := snd (draws i);
     diagnosis := None;
     assigned_resources := None |}.

Definition patients_to_register (draws : Z -> nat * num) (num_patients : Z)
  : list Patient :=
  map (λ k, new_patient draws (Z.of_nat k + 1))
      (seq 0 (Z.to_nat num_patients)).

(** The registration stage (lines 241-243): every patient is submitted
    once; the pool runs the critical sections one at a time, in the order
    [order] in which the threads obtain the lock.  [r p] is the draw of
    the call for [p]. *)
Definition registration_stage (r : Patient -> nat) (order : list Patient)
    (res : HospitalResources) : HospitalResources :=
  foldl (λ acc p, register_patient (r p) p acc) res order.

(** ** Diagnosis worker (lines 83-116) *)

Definition condition_names : list string :=
  ["Gripe"; "Fractura"; "Apendicitis"; "COVID-19"; "Migraña"].

Definition treatment_names : list string :=
  ["Medicamentos"; "Cirugía"; "Observación"; "Terapia"].

(** [random.uniform(a, b)] is [a + (b - a) * random()]; [u] is the value
    of [random()]. *)
Definition random_uniform (a b : Z) (u : num) : num :=
  num_add (num_of_int a) (num_mul (num_sub (num_of_int b) (num_of_int a)) u).

(** The four draws of one pass through lines 94-101. *)
Record DiagnosisDraws := {
  draw_time : num;
  draw_condition : nat;
  draw_severity : nat;
  draw_treatment : nat }.

(** The dictionary built at lines 97-102. *)
Definition make_diagnosis (d : DiagnosisDraws) : Diagnosis :=
  {| condition := random_choice "" condition_names (draw_condition d);
     severity := random_randint 1 10 (draw_severity d);
     recommended_treatment :=
       random_choice "" treatment_names (draw_treatment d);
     processing_time := random_uniform 1 3 (draw_time d) |}.

(** Lines 93-105 for one patient: the statuses written, in order, and
    the patient as it is put on the result queue. *)
Definition diagnose (d : DiagnosisDraws) (patient : Patient)
  : list PatientStatus * Patient :=
  let p1 := set_status WAITING_DIAGNOSIS patient in
  let p2 := set_status DIAGNOSED (set_diagnosis (make_diagnosis d) p1) in
  ([status p1; status p2], p2).

(** One iteration of the worker loop: [get] times out on an empty queue
    and the loop continues, the sentinel [None] ends the loop, a patient
    is diagnosed and put on the result queue.  The result is whether the
    loop continues and the two queues. *)
Definition worker_iteration (d : DiagnosisDraws)
    (dq : list (option Patient)) (rq : list Patient)
  : bool * list (option Patient) * list Patient :=
  match dq with
  | [] => (true, [], rq)
  | None :: dq' => (false, dq', rq)
  | Some p :: dq' => (true, dq', rq ++ [snd (diagnose d p)])
  end.

(** ** Statistics (lines 192-197) *)

Definition record_discharge (total_time_in_system : num)
    (res : HospitalResources) : HospitalResources :=
  let k := processed_patients res + 1 in
  {| doctors_semaphore := doctors_semaphore res;
     beds_semaphore := beds_semaphore res;
     diagnosis_queue := diagnosis_queue res;
     discharge_queue := discharge_queue res;
     total_patients := total_patients res;
     processed_patients := k;
     avg_wait_time :=
       num_div (num_add (num_mul (avg_wait_time res) (num_of_int (k - 1)))
                        total_time_in_system)
               (num_of_int k) |}.




(** ** The cooperative part: allocation, discharge, orchestrator *)

(** An allocation task: the patient object it was given and its locals.
    The patient object stays here for the whole run; queues refer to it
    by its index. *)
Record AllocTask := {
  patient : Patient;
  pc : AllocPc;
  assigned_doctor : option Handle;
  assigned_bed : option Handle }.

Record Simulation := {
  num_patients : Z;
  resources : HospitalResources;
  diagnosis_result_queue : list Patient;
  allocation_tasks : list AllocTask;
  diagnosis_collected_count : Z;
  discharge_task : DischargePc;
  cancel_requested : bool;
  orchestrator : OrchPc;
  trace : list Event }.

Definition upd_resources (f : HospitalResources -> HospitalResources)
    (s : Simulation) : Simulation :=
  {| num_patients := num_patients s;
     resources := f (resources s);
     diagnosis_result_queue := diagnosis_result_queue s;
     allocation_tasks := allocation_tasks s;
     diagnosis_collected_count := diagnosis_collected_count s;
     discharge_task := discharge_task s;
     cancel_requested := cancel_requested s;
     orchestrator := orchestrator s;
     trace := trace s |}.

Definition upd_tasks (f : list AllocTask -> list AllocTask)
    (s : Simulation) : Simulation :=
  {| num_patients := num_patients s;
     resources := resources s;
     diagnosis_result_queue := diagnosis_result_queue s;
     allocation_tasks := f (allocation_tasks s);
     diagnosis_collected_count := diagnosis_collected_count s;
     discharge_task := discharge_task s;
     cancel_requested := cancel_requested s;
     orchestrator := orchestrator s;
     trace := trace s |}.

Definition log (e : Event) (s : Simulation) : Simulation :=
  {| num_patients := num_patients s;
     resources := resources s;
     diagnosis_result_queue := diagnosis_result_queue s;
     allocation_tasks := allocation_tasks s;
     diagnosis_collected_count := diagnosis_collected_count s;
     discharge_task := discharge_task s;
     cancel_requested := cancel_requested s;
     orchestrator := orchestrator s;
     trace := e :: trace s |}.

Definition set_discharge_task (d : DischargePc) (s : Simulation)
  : Simulation :=
  {| num_patients := num_patients s;
     resources := resources s;
     diagnosis_result_queue := diagnosis_result_queue s;
     allocation_tasks := allocation_tasks s;
     diagnosis_collected_count := diagnosis_collected_count s;
     discharge_task := d;
     cancel_requested := cancel_requested s;
     orchestrator := orchestrator s;
     trace := trace s |}.

Definition set_orchestrator (o : OrchPc) (s : Simulation) : Simulation :=
  {| num_patients := num_patients s;
     resources := resources s;
     diagnosis_result_queue := diagnosis_result_queue s;
     allocation_tasks := allocation_tasks s;
     diagnosis_collected_count := diagnosis_collected_count s;
     discharge_task := discharge_task s;
     cancel_requested := cancel_requested s;
     orchestrator := o;
     trace := trace s |}.

Definition request_cancel (s : Simulation) : Simulation :=
  {| num_patients := num_patients s;
     resources := resources s;
     diagnosis_result_queue := diagnosis_result_queue s;
     allocation_tasks := allocation_tasks s;
     diagnosis_collected_count := diagnosis_collected_count s;
     discharge_task := discharge_task s;
     cancel_requested := true;
     orchestrator := orchestrator s;
     trace := EvCancel :: trace s |}.

(** A non-empty poll of the collection loop (lines 255-260): the result
    is dequeued, counted, and an allocation task is created for it. *)
Definition collect (p : Patient) (rest : list Patient) (s : Simulation)
  : Simulation :=
  {| num_patients := num_patients s;
     resources := resources s;
     diagnosis_result_queue := rest;
     allocation_tasks :=
       allocation_tasks s ++
       [{| patient := p; pc := A_created;
           assigned_doctor := None; assigned_bed := None |}];
     diagnosis_collected_count := diagnosis_collected_count s + 1;
     discharge_task := discharge_task s;
     cancel_requested := cancel_requested s;
     orchestrator := orchestrator s;
     trace := EvCollect (length (allocation_tasks s)) :: trace s |}.

Definition result_arrives (p : Patient) (s : Simulation) : Simulation :=
  {| num_patients := num_patients s;
     resources := resources s;
     diagnosis_result_queue := diagnosis_result_queue s ++ [p];
     allocation_tasks := allocation_tasks s;
     diagnosis_collected_count := diagnosis_collected_count s;
     discharge_task := discharge_task s;
     cancel_requested := cancel_requested s;
     orchestrator := orchestrator s;
     trace := trace s |}.

Definition set_task (i : nat) (c : AllocTask) (s : Simulation) : Simulation :=
  upd_tasks (λ ts, <[i := c]> ts) s.

Definition set_pc (k : AllocPc) (c : AllocTask) : AllocTask :=
  {| patient := patient c; pc := k;
     assigned_doctor := assigned_doctor c;
     assigned_bed := assigned_bed c |}.

Definition set_patient (p : Patient) (c : AllocTask) : AllocTask :=
  {| patient := p; pc := pc c;
     assigned_doctor := assigned_doctor c;
     assigned_bed := assigned_bed c |}.

Definition set_handle (r : Resource) (h : Handle) (c : AllocTask)
  : AllocTask :=
  {| patient := patient c; pc := pc c;
     assigned_doctor :=
       match r with Doctor => Some h | Bed => assigned_doctor c end;
     assigned_bed :=
       match r with Doctor => assigned_bed c | Bed => Some h end |}.

(** [semaphore.acquire()] once the counter is positive, and
    [semaphore.release()]. *)
Definition acquire (r : Resource) (i : nat) (s : Simulation) : Simulation :=
  log (EvAcquire r i)
      (upd_resources (λ res, set_semaphore r (semaphore r res - 1) res) s).

Definition release (st : Stage) (r : Resource) (i : nat) (s : Simulation)
  : Simulation :=
  log (EvRelease st r i)
      (upd_resources (λ res, set_semaphore r (semaphore r res + 1) res) s).

(** The handler of [allocate_resources], lines 161-169. *)
Definition rollback (i : nat) (c : AllocTask) (s : Simulation) : Simulation :=
  let s1 := if truthy (assigned_doctor c)
            then release Allocation Doctor i s else s in
  let s2 := if truthy (assigned_bed c)
            then release Allocation Bed i s1 else s1 in
  set_task i (set_pc A_failed c) s2.

(** [discharge_queue.put(item)] on an unbounded queue. *)
Definition queue_put (i : nat) (s : Simulation) : Simulation :=
  log (EvEnqueue i)
      (upd_resources
         (λ res, set_discharge_queue
            {| items := items (discharge_queue res) ++ [i];
               unfinished_tasks :=
                 unfinished_tasks (discharge_queue res) + 1 |} res) s).

(** One step of the allocation task [i].  [h] is the handle dictionary
    built from the random draws and [t] the value of [time.time()], for
    the statements that use them.  The statements that await or call into
    a semaphore, the lock or the queue may raise; the handler runs in the
    same step. *)
Definition alloc_step (i : nat) (o : Outcome) (h : Handle) (t : num)
    (s : Simulation) : option Simulation :=
  c ← allocation_tasks s !! i;
  match pc c, o with
  | A_created, Normal =>
      Some (set_task i
              (set_pc A_check_sleep
                 (set_patient (set_status WAITING_RESOURCE (patient c)) c)) s)
  | A_check_sleep, Normal => Some (set_task i (set_pc A_acq_doctor c) s)
  | A_check_sleep, Raise => Some (set_task i (set_pc A_raised c) s)
  | A_acq_doctor, Normal =>
      if 0 <? doctors_semaphore (resources s)
      then Some (set_task i (set_pc A_doctor_handle c) (acquire Doctor i s))
      else None
  | A_acq_doctor, Raise => Some (rollback i c s)
  | A_doctor_handle, Normal =>
      Some (set_task i (set_pc A_acq_bed (set_handle Doctor h c)) s)
  | A_acq_bed, Normal =>
      if 0 <? beds_semaphore (resources s)
      then Some (set_task i (set_pc A_bed_handle c) (acquire Bed i s))
      else None
  | A_acq_bed, Raise => Some (rollback i c s)
  | A_bed_handle, Normal =>
      Some (set_task i (set_pc A_lock (set_handle Bed h c)) s)
  | A_lock, Normal =>
      let ar := {| doctor := assigned_doctor c; bed := assigned_bed c;
                   assignment_time := t |} in
      Some (set_task i
              (set_pc A_treatment
                 (set_patient
                    (set_status IN_TREATMENT
                       (set_assigned_resources ar (patient c))) c)) s)
  | A_lock, Raise => Some (rollback i c s)
  | A_treatment, Normal => Some (set_task i (set_pc A_put c) s)
  | A_treatment, Raise => Some (rollback i c s)
  | A_put, Normal =>
      let c' := set_patient (set_status READY_FOR_DISCHARGE (patient c)) c in
      Some (set_task i (set_pc A_done c') (queue_put i s))
  | A_put, Raise =>
      let c' := set_patient (set_status READY_FOR_DISCHARGE (patient c)) c in
      Some (rollback i c' s)
  | _, _ => None
  end.

(** ['doctor' in d and d['doctor']] and the same for the bed. *)
Definition recorded (r : Resource) (p : Patient) : bool :=
  match assigned_resources p with
  | Some ar => truthy (match r with Doctor => doctor ar | Bed => bed ar end)
  | None => false
  end.

(** [discharge_queue.task_done()]: [ValueError] when called more often
    than items were put, which the loop catches and ignores. *)
Definition task_done (s : Simulation) : Simulation :=
  if unfinished_tasks (discharge_queue (resources s)) <=? 0 then s
  else upd_resources
         (λ res, set_discharge_queue
            {| items := items (discharge_queue res);
               unfinished_tasks :=
                 unfinished_tasks (discharge_queue res) - 1 |} res) s.

(** Lines 183-200 for the dequeued patient [i]; [t] is [time.time()]. *)
Definition discharge_patient (i : nat) (c : AllocTask) (t : num)
    (s : Simulation) : Simulation :=
  let s1 := if recorded Doctor (patient c)
            then release Discharge Doctor i s else s in
  let s2 := if recorded Bed (patient c)
            then release Discharge Bed i s1 else s1 in
  let s3 := set_task i (set_patient (set_status DISCHARGED (patient c)) c) s2 in
  let total_time_in_system := num_sub t (registration_time (patient c)) in
  let s4 := upd_resources (record_discharge total_time_in_system) s3 in
  task_done (log (EvDischarged i) s4).

(** One step of [process_discharge].  A pending cancellation is
    delivered at the suspension point the task is in: [CancelledError]
    is caught at line 201 and the loop is left.  An [Exception] is caught
    at line 204 and the loop goes on. *)
Definition discharge_step (o : Outcome) (t : num) (s : Simulation)
  : option Simulation :=
  match discharge_task s with
  | D_created =>
      if cancel_requested s then Some (set_discharge_task D_cancelled s)
      else match o with
           | Normal => Some (set_discharge_task D_get s)
           | Raise => None
           end
  | D_get =>
      if cancel_requested s then Some (set_discharge_task D_returned s)
      else match o with
           | Normal =>
               match items (discharge_queue (resources s)) with
               | [] => None
               | i :: rest =>
                   Some (set_discharge_task (D_sleep i)
                           (log (EvDequeue i)
                              (upd_resources
                                 (λ res, set_discharge_queue
                                    {| items := rest;
                                       unfinished_tasks :=
                                         unfinished_tasks
                                           (discharge_queue res) |} res) s)))
               end
           | Raise => Some s
           end
  | D_sleep i =>
      if cancel_requested s
      then Some (set_discharge_task D_returned (log (EvLost i) s))
      else match o with
           | Normal =>
               c ← allocation_tasks s !! i;
               Some (set_discharge_task D_get (discharge_patient i c t s))
           | Raise => Some (set_discharge_task D_get (log (EvLost i) s))
           end
  | D_returned | D_cancelled => None
  end.

Definition finished (c : AllocTask) : bool :=
  match pc c with A_done | A_failed | A_raised => true | _ => false end.

Definition discharge_task_done (s : Simulation) : bool :=
  match discharge_task s with
  | D_returned | D_cancelled => true
  | _ => false
  end.

(** One step of [hospital_simulation] from line 249 on. *)
Definition orchestrator_step (s : Simulation) : option Simulation :=
  match orchestrator s with
  | O_collect =>
      if diagnosis_collected_count s <? num_patients s then
        match diagnosis_result_queue s with
        | p :: rest => Some (collect p rest s)
        | [] => Some (log EvPollSleep s)
        end
      else Some (set_orchestrator O_gather s)
  | O_gather =>
      if forallb finished (allocation_tasks s)
      then Some (set_orchestrator O_join s) else None
  | O_join =>
      if unfinished_tasks (discharge_queue (resources s)) <=? 0
      then Some (set_orchestrator O_cancel s) else None
  | O_cancel =>
      if discharge_task_done s then Some (set_orchestrator O_shutdown s)
      else Some (set_orchestrator O_await_cancelled (request_cancel s))
  | O_await_cancelled =>
      if discharge_task_done s then Some (set_orchestrator O_shutdown s)
      else None
  | O_shutdown => None
  end.

(** What can happen next: a diagnosis worker delivers a result, or one
    of the cooperative tasks runs its next step. *)
Inductive Action :=
  | Worker_result (d : DiagnosisDraws) (p : Patient)
  | Orchestrator_runs
  | Alloc_runs (i : nat) (o : Outcome) (h : Handle) (t : num)
  | Discharge_runs (o : Outcome) (t : num).

Definition step (a : Action) (s : Simulation) : option Simulation :=
  match a with
  | Worker_result d p => Some (result_arrives (snd (diagnose d p)) s)
  | Orchestrator_runs => orchestrator_step s
  | Alloc_runs i o h t => alloc_step i o h t s
  | Discharge_runs o t => discharge_step o t s
  end.

Fixpoint run (acts : list Action) (s : Simulation) : option Simulation :=
  match acts with
  | [] => Some s
  | a :: acts' => s' ← step a s; run acts' s'
  end.

(** The state when the collection loop is entered (line 249): the
    discharge task exists and nothing has been collected. *)
Definition initial (n : Z) (res : HospitalResources) : Simulation :=
  {| num_patients := n;
     resources := res;
     diagnosis_result_queue := [];
     allocation_tasks := [];
     diagnosis_collected_count := 0;
     discharge_task := D_created;
     cancel_requested := false;
     orchestrator := O_collect;
     trace := [] |}.

(** The states of a run with [n] patients, [nd] doctors and [nb] beds:
    the resources are created, the registration stage runs (in some
    order, with some draws), and the cooperative part takes steps. *)
Definition reachable (n nd nb : Z) (s : Simulation) : Prop :=
  ∃ res r order acts,
    HospitalResources_init nd nb = Some res ∧
    run acts (initial n (registration_stage r order res)) = Some s.

(** ** Vocabulary of the invariants *)

Definition capacity (nd nb : Z) (r : Resource) : Z :=
  match r with Doctor => nd | Bed => nb end.

Definition handle (r : Resource) (c : AllocTask) : option Handle :=
  match r with Doctor => assigned_doctor c | Bed => assigned_bed c end.

(** The task has passed the [acquire] of [r]. *)
Definition acquired (r : Resource) (c : AllocTask) : bool :=
  match pc c with
  | A_created | A_check_sleep | A_acq_doctor | A_raised => false
  | A_doctor_handle | A_acq_bed => bool_decide (r = Doctor)
  | A_bed_handle | A_lock | A_treatment | A_put | A_done => true
  | A_failed => truthy (handle r c)
  end.

(** The handler of the task has released [r]. *)
Definition rolled_back (r : Resource) (c : AllocTask) : bool :=
  match pc c with A_failed => truthy (handle r c) | _ => false end.

Definition discharged (c : AllocTask) : bool :=
  bool_decide (status (patient c) = DISCHARGED).

(** The patient of the task holds a unit of [r]. *)
Definition holds (r : Resource) (c : AllocTask) : bool :=
  acquired r c && negb (rolled_back r c) && negb (discharged c).

Fixpoint held (r : Resource) (ts : list AllocTask) : Z :=
  match ts with
  | [] => 0
  | c :: ts' => b2z (holds r c) + held r ts'
  end.

Definition at_task (f : AllocTask -> bool) (s : Simulation) (i : nat)
  : bool :=
  match allocation_tasks s !! i with Some c => f c | None => false end.

Definition sleeping (d : DischargePc) : bool :=
  match d with D_sleep _ => true | _ => false end.

Definition sleeping_on (i : nat) (d : DischargePc) : bool :=
  match d with D_sleep j => bool_decide (j = i) | _ => false end.

(** What the locals and the patient of a task look like at each point. *)
Definition cell_ok (c : AllocTask) : Prop :=
  match pc c with
  | A_created | A_check_sleep | A_acq_doctor | A_doctor_handle | A_raised =>
      assigned_doctor c = None ∧ assigned_bed c = None ∧
      status (patient c) ≠ DISCHARGED
  | A_acq_bed | A_bed_handle =>
      truthy (assigned_doctor c) = true ∧ assigned_bed c = None ∧
      status (patient c) ≠ DISCHARGED
  | A_lock =>
      truthy (assigned_doctor c) = true ∧ truthy (assigned_bed c) = true ∧
      status (patient c) ≠ DISCHARGED
  | A_treatment | A_put =>
      truthy (assigned_doctor c) = true ∧ truthy (assigned_bed c) = true ∧
      recorded Doctor (patient c) = true ∧ recorded Bed (patient c) = true ∧
      status (patient c) ≠ DISCHARGED
  | A_done =>
      truthy (assigned_doctor c) = true ∧ truthy (assigned_bed c) = true ∧
      recorded Doctor (patient c) = true ∧ recorded Bed (patient c) = true ∧
      (status (patient c) = READY_FOR_DISCHARGE ∨
       status (patient c) = DISCHARGED)
  | A_failed =>
      (truthy (assigned_bed c) = true → truthy (assigned_doctor c) = true) ∧
      status (patient c) ≠ DISCHARGED
  end.

(** The patient [i] went through line 158 and was not discharged yet. *)
Definition awaiting_discharge (s : Simulation) (i : nat) : Prop :=
  ∃ c, allocation_tasks s !! i = Some c ∧ pc c = A_done ∧
       status (patient c) = READY_FOR_DISCHARGE.

Definition queue_items (s : Simulation) : list nat :=
  items (discharge_queue (resources s)).

(** Shape of the tasks and of the discharge queue. *)
Definition shape_ok (s : Simulation) : Prop :=
  (∀ p, p ∈ diagnosis_result_queue s → status p = DIAGNOSED) ∧
  (∀ i c, allocation_tasks s !! i = Some c → cell_ok c) ∧
  NoDup (queue_items s) ∧
  (∀ i, i ∈ queue_items s → awaiting_discharge s i) ∧
  (∀ i, discharge_task s = D_sleep i →
        (i ∉ queue_items s) ∧ awaiting_discharge s i).

(** The counter of each semaphore against the units held. *)
Definition pools_ok (nd nb : Z) (s : Simulation) : Prop :=
  ∀ r, 0 ≤ semaphore r (resources s) ∧
       semaphore r (resources s) + held r (allocation_tasks s)
       = capacity nd nb r.

(** The acquire and release events of each patient against its task. *)
Definition events_ok (s : Simulation) : Prop :=
  ∀ i r,
    occ (EvAcquire r i) (trace s) = b2z (at_task (acquired r) s i) ∧
    occ (EvRelease Allocation r i) (trace s)
      = b2z (at_task (rolled_back r) s i) ∧
    occ (EvRelease Discharge r i) (trace s) = b2z (at_task discharged s i).

(** Every release follows the acquire of the same unit by the same
    patient, and every bed acquire follows the doctor acquire. *)
Definition order_ok (tr : list Event) : Prop :=
  (∀ st r i post pre, tr = post ++ EvRelease st r i :: pre →
                      EvAcquire r i ∈ pre) ∧
  (∀ i post pre, tr = post ++ EvAcquire Bed i :: pre →
                 EvAcquire Doctor i ∈ pre).

(** The dequeue and discharge events of each patient. *)
Definition queue_events_ok (s : Simulation) : Prop :=
  ∀ i,
    occ (EvDequeue i) (trace s)
      = b2z (at_task discharged s i) + b2z (sleeping_on i (discharge_task s))
        + occ (EvLost i) (trace s) ∧
    occ (EvDischarged i) (trace s) = b2z (at_task discharged s i).

(** The counters against the whole trace. *)
Definition totals_ok (nd nb : Z) (s : Simulation) : Prop :=
  (∀ r, semaphore r (resources s)
        + count (is_acquire r) (trace s) - count (is_release r) (trace s)
        = capacity nd nb r) ∧
  unfinished_tasks (discharge_queue (resources s))
    = Z.of_nat (length (queue_items s)) + b2z (sleeping (discharge_task s))
      + count is_lost (trace s) ∧
  count is_dequeue (trace s)
    = processed_patients (resources s) + b2z (sleeping (discharge_task s))
      + count is_lost (trace s) ∧
  processed_patients (resources s) = count is_discharged (trace s) ∧
  0 ≤ count is_lost (trace s).

Definition gathered (o : OrchPc) : bool :=
  match o with O_collect | O_gather => false | _ => true end.

Definition joined (o : OrchPc) : bool :=
  match o with O_collect | O_gather | O_join => false | _ => true end.

Definition cancelling (o : OrchPc) : bool :=
  match o with O_await_cancelled | O_shutdown => true | _ => false end.

(** The orchestrator against the tasks it created. *)
Definition orchestrator_ok (n : Z) (s : Simulation) : Prop :=
  num_patients s = n ∧
  diagnosis_collected_count s = Z.of_nat (length (allocation_tasks s)) ∧
  diagnosis_collected_count s = count is_collect (trace s) ∧
  (orchestrator s = O_collect →
     diagnosis_collected_count s ≤ Z.max 0 (num_patients s)) ∧
  (orchestrator s ≠ O_collect →
     diagnosis_collected_count s = Z.max 0 (num_patients s)) ∧
  (gathered (orchestrator s) = true →
     forallb finished (allocation_tasks s) = true) ∧
  (joined (orchestrator s) = true →
     unfinished_tasks (discharge_queue (resources s)) ≤ 0) ∧
  (cancel_requested s = true → cancelling (orchestrator s) = true).


(** The status of the patient of a task at each point of
    [allocate_resources]. *)
Definition status_ok (c : AllocTask) : Prop :=
  match pc c with
  | A_created => status (patient c) = DIAGNOSED
  | A_check_sleep | A_acq_doctor | A_doctor_handle | A_acq_bed
  | A_bed_handle | A_lock | A_raised =>
      status (patient c) = WAITING_RESOURCE
  | A_treatment | A_put => status (patient c) = IN_TREATMENT
  | A_done =>
      status (patient c) = READY_FOR_DISCHARGE ∨
      status (patient c) = DISCHARGED
  | A_failed =>
      status (patient c) = WAITING_RESOURCE ∨
      (status (patient c) = IN_TREATMENT ∨
       status (patient c) = READY_FOR_DISCHARGE) ∧
      truthy (assigned_doctor c) = true ∧ truthy (assigned_bed c) = true
  end.

Definition statuses_ok (s : Simulation) : Prop :=
  ∀ i c, allocation_tasks s !! i = Some c → status_ok c.

(** The fields of a patient that identify it. *)
Definition same_patient (p q : Patient) : Prop :=
  id p = id q ∧ name p = name q ∧ priority p = priority q ∧
  symptoms p = symptoms q ∧ registration_time p = registration_time q ∧
  diagnosis p = diagnosis q.

(** The patient of [c'] is the patient of [c], one state further along
    the life cycle or in the same state. *)
Definition advances (c c' : AllocTask) : Prop :=
  same_patient (patient c) (patient c') ∧
  PatientStatus_value (status (patient c))
    ≤ PatientStatus_value (status (patient c'))
    ≤ PatientStatus_value (status (patient c)) + 1.

(** The number of tasks that satisfy [f]. *)
Fixpoint number_of (f : AllocTask -> bool) (ts : list AllocTask) : Z :=
  match ts with
  | [] => 0
  | c :: ts' => b2z (f c) + number_of f ts'
  end.

(** The task is between lines 146 and 158: the patient is in treatment
    and the task has not failed. *)
Definition in_treatment (c : AllocTask) : bool :=
  match pc c with A_treatment | A_put => true | _ => false end.


(** The patients put on the discharge queue and the patients taken from
    it, oldest first. *)
Definition enqueue_index (e : Event) : option nat :=
  match e with EvEnqueue i => Some i | _ => None end.

Definition dequeue_index (e : Event) : option nat :=
  match e with EvDequeue i => Some i | _ => None end.

Definition enqueued (tr : list Event) : list nat :=
  omap enqueue_index (reverse tr).

Definition dequeued (tr : list Event) : list nat :=
  omap dequeue_index (reverse tr).

(** A patient dropped by the handler at line 204 stays as it was when
    it was taken from the queue. *)
Definition lost_ok (s : Simulation) : Prop :=
  ∀ i, EvLost i ∈ trace s →
       awaiting_discharge s i ∧ (i ∉ queue_items s) ∧
       discharge_task s ≠ D_sleep i.

(** The number of results the diagnosis workers deliver in a schedule. *)
Definition is_worker_result (a : Action) : bool :=
  match a with Worker_result _ _ => true | _ => false end.

Definition results_delivered (acts : list Action) : Z :=
  Z.of_nat (length (filter (λ a, is_worker_result a = true) acts)).

(** A patient that went through line 158 and is not discharged is on
    the queue, or being processed by the discharge task, or was dropped
    by it; and the discharge task ends only when it is cancelled. *)
Definition pending_ok (s : Simulation) : Prop :=
  (∀ j, awaiting_discharge s j →
        j ∈ queue_items s ∨ discharge_task s = D_sleep j ∨
        EvLost j ∈ trace s) ∧
  (discharge_task_done s = true → cancel_requested s = true).

(** ** The diagnosis workers as processes (lines 83-116, 218-226,
    293-301) *)

(** Where a worker is: at the [get] of line 91, between lines 93 and
    107 with the patient it took, or after the loop. *)
Inductive WorkerPc :=
  | W_get
  | W_busy (p : Patient)
  | W_finished.

(** The diagnosis queue, the result queue and the workers.
    [stage_dropped] records the patients given up by the handler at
    line 112. *)
Record DiagnosisStage := {
  stage_queue : list (option Patient);
  stage_results : list Patient;
  stage_workers : list WorkerPc;
  stage_dropped : list Patient }.

Definition set_worker (w : nat) (k : WorkerPc) (st : DiagnosisStage)
  : DiagnosisStage :=
  {| stage_queue := stage_queue st;
     stage_results := stage_results st;
     stage_workers := <[w := k]> (stage_workers st);
     stage_dropped := stage_dropped st |}.

Definition set_stage_queue (q : list (option Patient)) (st : DiagnosisStage)
  : DiagnosisStage :=
  {| stage_queue := q;
     stage_results := stage_results st;
     stage_workers := stage_workers st;
     stage_dropped := stage_dropped st |}.

Definition put_result (p : Patient) (st : DiagnosisStage) : DiagnosisStage :=
  {| stage_queue := stage_queue st;
     stage_results := stage_results st ++ [p];
     stage_workers := stage_workers st;
     stage_dropped := stage_dropped st |}.

Definition drop_patient (p : Patient) (st : DiagnosisStage)
  : DiagnosisStage :=
  {| stage_queue := stage_queue st;
     stage_results := stage_results st;
     stage_workers := stage_workers st;
     stage_dropped := stage_dropped st ++ [p] |}.

(** One step of the worker [w].  At the [get]: the queue is empty and
    the call times out, or the sentinel ends the loop, or a patient is
    taken; an exception other than [queue.Empty] is handled at line 112
    and the loop goes on.  With a patient: lines 93-107 end with the
    [put] on the result queue, or an exception is handled at line 112 and
    the patient is given up. *)
Definition worker_step (w : nat) (o : Outcome) (d : DiagnosisDraws)
    (st : DiagnosisStage) : option DiagnosisStage :=
  k ← stage_workers st !! w;
  match k, o with
  | W_get, Normal =>
      match stage_queue st with
      | [] => Some st
      | None :: q => Some (set_worker w W_finished (set_stage_queue q st))
      | Some p :: q => Some (set_worker w (W_busy p) (set_stage_queue q st))
      end
  | W_get, Raise => Some st
  | W_busy p, Normal =>
      Some (set_worker w W_get (put_result (snd (diagnose d p)) st))
  | W_busy p, Raise => Some (set_worker w W_get (drop_patient p st))
  | W_finished, _ => None
  end.

(** What happens to the stage: [register_patient] or the shutdown puts
    an item on the diagnosis queue, or a worker runs. *)
Inductive StageAction :=
  | Stage_put (x : option Patient)
  | Worker_runs (w : nat) (o : Outcome) (d : DiagnosisDraws).

Definition stage_step (a : StageAction) (st : DiagnosisStage)
  : option DiagnosisStage :=
  match a with
  | Stage_put x => Some (set_stage_queue (stage_queue st ++ [x]) st)
  | Worker_runs w o d => worker_step w o d st
  end.

Fixpoint stage_run (acts : list StageAction) (st : DiagnosisStage)
  : option DiagnosisStage :=
  match acts with
  | [] => Some st
  | a :: acts' => st' ← stage_step a st; stage_run acts' st'
  end.

(** The stage when [num_processors] workers were started (lines
    218-226). *)
Definition stage_initial (num_processors : nat) : DiagnosisStage :=
  {| stage_queue := [];
     stage_results := [];
     stage_workers := replicate num_processors W_get;
     stage_dropped := [] |}.

(** The items put on the queue by a schedule, the patients among a list
    of items, and the patients the workers hold. *)
Definition put_item (a : StageAction) : option (option Patient) :=
  match a with Stage_put x => Some x | _ => None end.

Definition patients_of (q : list (option Patient)) : list Patient :=
  omap (λ x, x) q.

Definition busy_patient (k : WorkerPc) : option Patient :=
  match k with W_busy p => Some p | _ => None end.

(** The patients in the stage: on the queue, with a worker, on the
    result queue, given up. *)
Definition stage_patients (st : DiagnosisStage) : list Patient :=
  patients_of (stage_queue st) ++ omap busy_patient (stage_workers st)
  ++ stage_results st ++ stage_dropped st.

Definition sentinels (q : list (option Patient)) : nat :=
  length (filter (λ x, x = None) q).

Definition workers_at (k : WorkerPc → bool) (ws : list WorkerPc) : nat :=
  length (filter (λ x, k x = true) ws).

Definition is_finished (k : WorkerPc) : bool :=
  match k with W_finished => true | _ => false end.

Definition is_idle (k : WorkerPc) : bool :=
  match k with W_get => true | _ => false end.

(** The statements a task still has to go through, and the steps the
    discharge task still has to take for its patient; [remaining] bounds
    the steps left in a run without faults. *)
Definition weight (c : AllocTask) : Z :=
  match pc c with
  | A_created => 11
  | A_check_sleep => 10
  | A_acq_doctor => 9
  | A_doctor_handle => 8
  | A_acq_bed => 7
  | A_bed_handle => 6
  | A_lock => 5
  | A_treatment => 4
  | A_put => 3
  | A_done => if discharged c then 0 else 2
  | A_failed | A_raised => 0
  end.

Fixpoint total_weight (ts : list AllocTask) : Z :=
  match ts with
  | [] => 0
  | c :: ts' => weight c + total_weight ts'
  end.

Definition remaining (s : Simulation) : Z :=
  total_weight (allocation_tasks s)
  + match discharge_task s with
    | D_created => 2
    | D_get => 1
    | _ => 0
    end.

(** The task returned and its patient does not wait for the discharge. *)
Definition settled (c : AllocTask) : bool :=
  finished c && (negb (bool_decide (pc c = A_done)) || discharged c).

(** Nothing failed and nothing was cancelled so far. *)
Definition fault_free (s : Simulation) : Prop :=
  cancel_requested s = false ∧
  (∀ k, EvLost k ∉ trace s) ∧
  (∀ i c, allocation_tasks s !! i = Some c →
          pc c ≠ A_failed ∧ pc c ≠ A_raised).

(** ** A small run, used to exercise the statements below *)

Definition demo_handle : Handle :=
  {| handle_id := 1234; handle_kind := "General" |}.

Definition demo_draws : DiagnosisDraws :=
  {| draw_time := num_of_int 0; draw_condition := 7;
     draw_severity := 13; draw_treatment := 2 |}.

(** The same draws but for the severity. *)
Definition demo_draws_other : DiagnosisDraws :=
  {| draw_time := num_of_int 0; draw_condition := 7;
     draw_severity := 14; draw_treatment := 2 |}.

(** A second patient of the intake list. *)
Definition demo_patient_2 : Patient :=
  new_patient (λ _, (1%nat, num_of_int 2)) 2.

Definition demo_patient : Patient :=
  new_patient (λ _, (3%nat, num_of_int 1)) 1.

Definition demo_resources : HospitalResources :=
  {| doctors_semaphore := 1;
     beds_semaphore := 1;
     diagnosis_queue := [];
     discharge_queue := {| items := []; unfinished_tasks := 0 |};
     total_patients := 0;
     processed_patients := 0;
     avg_wait_time := num_of_int 0 |}.

Definition demo_alloc (o : Outcome) : Action :=
  Alloc_runs 0 o demo_handle (num_of_int 10).

(** One patient is diagnosed and collected, and its task reaches the
    doctor acquire. *)
Definition demo_to_doctor : list Action :=
  [Worker_result demo_draws demo_patient; Orchestrator_runs;
   Orchestrator_runs;
   Discharge_runs Normal (num_of_int 5);
   demo_alloc Normal; demo_alloc Normal].

(** The task acquires the doctor and records the handle. *)
Definition demo_doctor : list Action := [demo_alloc Normal; demo_alloc Normal].

(** The task goes on to the end, the patient is discharged, and the
    orchestrator cancels the discharge task. *)
Definition demo_to_cancel : list Action :=
  [demo_alloc Normal; demo_alloc Normal; demo_alloc Normal;
   demo_alloc Normal; demo_alloc Normal;
   Orchestrator_runs;
   Discharge_runs Normal (num_of_int 20);
   Discharge_runs Normal (num_of_int 25);
   Orchestrator_runs; Orchestrator_runs].

(** The state after the actions, or the start state when they cannot
    all run. *)
Definition state_after (acts : list Action) (s : Simulation) : Simulation :=
  default s (run acts s).

Definition demo_initial : Simulation := initial 1 demo_resources.

(** The task is at the doctor acquire; it has the doctor and its handle;
    it failed in the bed acquire; it went through and the discharge task
    is being cancelled. *)
Definition demo_at_doctor : Simulation :=
  state_after demo_to_doctor demo_initial.

Definition demo_at_bed : Simulation :=
  state_after (demo_to_doctor ++ demo_doctor) demo_initial.


Definition demo_cancelling : Simulation :=
  state_after (demo_to_doctor ++ demo_doctor ++ demo_to_cancel) demo_initial.

(** The task is at the lock of line 141, and in treatment. *)
Definition demo_at_lock : Simulation :=
  state_after (demo_to_doctor ++ demo_doctor
               ++ [demo_alloc Normal; demo_alloc Normal]) demo_initial.

Definition demo_in_treatment : Simulation :=
  state_after (demo_to_doctor ++ demo_doctor
               ++ [demo_alloc Normal; demo_alloc Normal; demo_alloc Normal])
    demo_initial.

(** The patient goes through, is taken from the discharge queue, and
    the body of the discharge loop raises. *)
Definition demo_to_lost : list Action :=
  demo_to_doctor ++ demo_doctor
  ++ [demo_alloc Normal; demo_alloc Normal; demo_alloc Normal;
      demo_alloc Normal; demo_alloc Normal;
      Discharge_runs Normal (num_of_int 20);
      Discharge_runs Raise (num_of_int 25)].

Definition demo_lost : Simulation := state_after demo_to_lost demo_initial.

(** A hospital without doctors: the task reaches the doctor acquire. *)
Definition demo_resources_no_doctor : HospitalResources :=
  {| doctors_semaphore := 0;
     beds_semaphore := 1;
     diagnosis_queue := [];
     discharge_queue := {| items := []; unfinished_tasks := 0 |};
     total_patients := 0;
     processed_patients := 0;
     avg_wait_time := num_of_int 0 |}.

Definition demo_to_no_doctor : list Action :=
  [Worker_result demo_draws demo_patient; Orchestrator_runs;
   demo_alloc Normal; demo_alloc Normal].

Definition demo_no_doctor : Simulation :=
  state_after demo_to_no_doctor (initial 1 demo_resources_no_doctor).

(** One worker takes a patient and puts its result. *)
Definition demo_stage_acts : list StageAction :=
  [Stage_put (Some demo_patient); Stage_put None;
   Worker_runs 0 Normal demo_draws; Worker_runs 0 Normal demo_draws].

Definition demo_stage : DiagnosisStage :=
  default (stage_initial 1) (stage_run demo_stage_acts (stage_initial 1)).

(** * Properties *)

(** ** Runs *)

Lemma run_app acts1 acts2 (s : Simulation) :
  run (acts1 ++ acts2) s = run acts1 s ≫= run acts2.
Proof.
  revert s. induction acts1 as [|a acts1 IH]; intros s; simpl.
  - done.
  - destruct (step a s) as [s'|]; simpl; [apply IH | done].
Qed.

Lemma registration_stage_cooperative r order (res : HospitalResources) :
  doctors_semaphore (registration_stage r order res) = doctors_semaphore res ∧
  beds_semaphore (registration_stage r order res) = beds_semaphore res ∧
  discharge_queue (registration_stage r order res) = discharge_queue res ∧
  processed_patients (registration_stage r order res)
    = processed_patients res.
Proof.
  unfold registration_stage. revert res.
  induction order as [|p order IH]; intros res; simpl; [done|].
  destruct (IH (register_patient (r p) p res)) as (-> & -> & -> & ->).
  done.
Qed.

Lemma reachable_step n nd nb (s s' : Simulation) a :
  reachable n nd nb s → step a s = Some s' → reachable n nd nb s'.
Proof.
  intros (res & r & order & acts & Hres & Hrun) Hstep.
  exists res, r, order, (acts ++ [a]). split; [done|].
  rewrite run_app, Hrun. simpl. by rewrite Hstep.
Qed.

(** Induction over the states of a run. *)
Lemma reachable_ind n nd nb (P : Simulation → Prop) :
  (∀ res r order, HospitalResources_init nd nb = Some res →
                  P (initial n (registration_stage r order res))) →
  (∀ s a s', reachable n nd nb s → P s → step a s = Some s' → P s') →
  ∀ s, reachable n nd nb s → P s.
Proof.
  intros Hinit Hstep s (res & r & order & acts & Hres & Hrun).
  revert s Hrun. induction acts as [|a acts IH] using rev_ind; intros s Hrun.
  - simpl in Hrun. injection Hrun as <-. by apply Hinit.
  - rewrite run_app in Hrun.
    destruct (run acts (initial n (registration_stage r order res)))
      as [s0|] eqn:Hs0; simpl in Hrun; [|done].
    destruct (step a s0) as [s1|] eqn:Hs1; simpl in Hrun; [|done].
    injection Hrun as <-.
    apply (Hstep s0 a s1); [|by apply IH|done].
    by exists res, r, order, acts.
Qed.


(** ** Shape of the tasks and of the queue *)

Lemma rollback_frame i c (s : Simulation) :
  num_patients (rollback i c s) = num_patients s ∧
  diagnosis_result_queue (rollback i c s) = diagnosis_result_queue s ∧
  allocation_tasks (rollback i c s)
    = <[i:=set_pc A_failed c]> (allocation_tasks s) ∧
  diagnosis_collected_count (rollback i c s) = diagnosis_collected_count s ∧
  discharge_task (rollback i c s) = discharge_task s ∧
  cancel_requested (rollback i c s) = cancel_requested s ∧
  orchestrator (rollback i c s) = orchestrator s ∧
  discharge_queue (resources (rollback i c s)) = discharge_queue (resources s) ∧
  processed_patients (resources (rollback i c s))
    = processed_patients (resources s).
Proof.
  unfold rollback.
  destruct (truthy (assigned_doctor c)), (truthy (assigned_bed c)); done.
Qed.

Lemma awaiting_discharge_other (s s' : Simulation) i j c' :
  allocation_tasks s' = <[i:=c']> (allocation_tasks s) → j ≠ i →
  awaiting_discharge s j → awaiting_discharge s' j.
Proof.
  intros Hts Hne (c & Hc & Hpc & Hst). exists c.
  rewrite Hts, list_lookup_insert_ne; auto.
Qed.

Lemma awaiting_discharge_same (s s' : Simulation) j :
  allocation_tasks s' = allocation_tasks s →
  awaiting_discharge s j → awaiting_discharge s' j.
Proof. intros Hts (c & Hc & ?). exists c. by rewrite Hts. Qed.

Lemma shape_ok_set (s s' : Simulation) i c' :
  shape_ok s →
  cell_ok c' →
  i ∉ queue_items s →
  (∀ j, discharge_task s' = D_sleep j → discharge_task s = D_sleep j ∧ j ≠ i) →
  diagnosis_result_queue s' = diagnosis_result_queue s →
  allocation_tasks s' = <[i:=c']> (allocation_tasks s) →
  queue_items s' = queue_items s →
  shape_ok s'.
Proof.
  intros (Hrq & Hcell & Hnd & Hq & Hd) Hok Hni Hdt Erq Ets Eq.
  unfold shape_ok. rewrite Erq, Eq. split_and!; auto.
  - intros j c. rewrite Ets. intros Hj.
    destruct (decide (j = i)) as [->|Hne].
    + apply list_lookup_insert_Some in Hj as [(_ & <- & _)|(? & _)]; done.
    + rewrite list_lookup_insert_ne in Hj by done. eauto.
  - intros j Hj. apply (awaiting_discharge_other s s' i j c'); auto.
    intros ->. done.
  - intros j Hj. destruct (Hdt j Hj) as [Hj' Hne].
    destruct (Hd j Hj') as [? ?]. split; [done|].
    by apply (awaiting_discharge_other s s' i j c').
Qed.

Lemma shape_ok_same (s s' : Simulation) :
  shape_ok s →
  (∀ j, discharge_task s' = D_sleep j → discharge_task s = D_sleep j) →
  diagnosis_result_queue s' = diagnosis_result_queue s →
  allocation_tasks s' = allocation_tasks s →
  queue_items s' = queue_items s →
  shape_ok s'.
Proof.
  intros (Hrq & Hcell & Hnd & Hq & Hd) Hdt Erq Ets Eq.
  unfold shape_ok. rewrite Erq, Eq, Ets. split_and!; auto.
  - intros j Hj. apply (awaiting_discharge_same s s'); auto.
  - intros j Hj. destruct (Hd j (Hdt j Hj)) as [? ?]. split; [done|].
    apply (awaiting_discharge_same s s'); auto.
Qed.

Lemma not_queued (s : Simulation) i c :
  shape_ok s → allocation_tasks s !! i = Some c → pc c ≠ A_done →
  (i ∉ queue_items s) ∧ discharge_task s ≠ D_sleep i.
Proof.
  intros (_ & _ & _ & Hq & Hd) Hc Hpc. split.
  - intros Hin. destruct (Hq i Hin) as (c0 & Hc0 & ? & _). congruence.
  - intros Hs. destruct (Hd i Hs) as (_ & c0 & Hc0 & ? & _). congruence.
Qed.

(** A task that is not past line 158 is replaced by a well-shaped one;
    the queues and the discharge task stay as they are. *)
Lemma shape_ok_move (s s' : Simulation) i c c' :
  shape_ok s → allocation_tasks s !! i = Some c → pc c ≠ A_done →
  cell_ok c' →
  discharge_task s' = discharge_task s →
  diagnosis_result_queue s' = diagnosis_result_queue s →
  allocation_tasks s' = <[i:=c']> (allocation_tasks s) →
  queue_items s' = queue_items s →
  shape_ok s'.
Proof.
  intros Hs Hc Hpc Hok Edt Erq Ets Eq.
  destruct (not_queued s i c Hs Hc Hpc) as [Hni Hns].
  apply (shape_ok_set s s' i c'); auto.
  intros j Hj. rewrite Edt in Hj. split; [done|]. intros ->. done.
Qed.

Lemma shape_ok_rollback (s : Simulation) i c c' :
  shape_ok s → allocation_tasks s !! i = Some c → pc c ≠ A_done →
  cell_ok (set_pc A_failed c') → shape_ok (rollback i c' s).
Proof.
  intros Hs Hc Hpc Hok.
  destruct (rollback_frame i c' s) as (_ & Erq & Ets & _ & Edt & _ & _ & Eq & _).
  apply (shape_ok_move s _ i c (set_pc A_failed c')); auto.
  unfold queue_items. by rewrite Eq.
Qed.

Lemma shape_ok_alloc_step i o h t (s s' : Simulation) :
  shape_ok s → alloc_step i o h t s = Some s' → shape_ok s'.
Proof.
  intros Hs Hstep. unfold alloc_step in Hstep.
  destruct (allocation_tasks s !! i) as [c|] eqn:Hc; simpl in Hstep; [|done].
  pose proof Hs as (Hrq & Hcell & Hnd & Hq & Hd).
  pose proof (Hcell i c Hc) as Hok. unfold cell_ok in Hok.
  destruct (pc c) eqn:Hpc, o; try discriminate Hstep; rewrite ?Hpc in Hok.
  all: repeat match goal with
    | Hx : (if 0 <? ?v then _ else _) = Some _ |- _ =>
        destruct (0 <? v); [|discriminate Hx]
    end.
  all: injection Hstep as <-.
  all: try (apply (shape_ok_rollback s i c); [done|done|congruence|];
            unfold cell_ok; simpl; intuition congruence).
  all: try (eapply (shape_ok_move s _ i c _ Hs Hc);
            [congruence| |reflexivity..];
            unfold cell_ok, recorded; simpl; rewrite ?Hpc;
            intuition congruence).
  (* line 158: the patient is put on the queue *)
  destruct (not_queued s i c Hs Hc) as [Hni Hns]; [congruence|].
  unfold shape_ok, queue_items. simpl. split_and!; auto.
  - intros j c0 Hj.
    destruct (decide (j = i)) as [->|Hne].
    + apply list_lookup_insert_Some in Hj as [(_ & <- & _)|(? & _)];
        [|done]. unfold cell_ok; simpl. intuition congruence.
    + rewrite list_lookup_insert_ne in Hj by done. eauto.
  - apply NoDup_app. split_and!; [done| |apply NoDup_singleton].
    intros j Hj ->%list_elem_of_singleton. done.
  - intros j [Hj| ->%list_elem_of_singleton]%elem_of_app.
    + eapply (awaiting_discharge_other s _ i j); [reflexivity| |by apply Hq].
      intros ->. done.
    + eexists. split.
      { simpl. rewrite list_lookup_insert_eq; [done|].
        by eapply lookup_lt_Some. }
      split; reflexivity.
  - intros j Hj. destruct (Hd j Hj) as (Hnj & Hw).
    assert (j ≠ i) by (intros ->; congruence).
    split.
    + rewrite elem_of_app, list_elem_of_singleton. intros [?|?]; done.
    + by eapply (awaiting_discharge_other s _ i j); [reflexivity|..].
Qed.

Lemma discharge_patient_frame i c t (s : Simulation) :
  num_patients (discharge_patient i c t s) = num_patients s ∧
  diagnosis_result_queue (discharge_patient i c t s)
    = diagnosis_result_queue s ∧
  allocation_tasks (discharge_patient i c t s)
    = <[i:=set_patient (set_status DISCHARGED (patient c)) c]>
        (allocation_tasks s) ∧
  diagnosis_collected_count (discharge_patient i c t s)
    = diagnosis_collected_count s ∧
  discharge_task (discharge_patient i c t s) = discharge_task s ∧
  cancel_requested (discharge_patient i c t s) = cancel_requested s ∧
  orchestrator (discharge_patient i c t s) = orchestrator s ∧
  queue_items (discharge_patient i c t s) = queue_items s.
Proof.
  unfold discharge_patient, task_done, queue_items.
  destruct (recorded Doctor (patient c)), (recorded Bed (patient c)); simpl;
    case_match; done.
Qed.

Lemma shape_ok_discharge_step o t (s s' : Simulation) :
  shape_ok s → discharge_step o t s = Some s' → shape_ok s'.
Proof.
  intros Hs Hstep. unfold discharge_step in Hstep.
  pose proof Hs as (Hrq & Hcell & Hnd & Hq & Hd).
  destruct (discharge_task s) as [| |i| |] eqn:Hdt; [| | |done..].
  - destruct (cancel_requested s), o; simplify_eq;
      (eapply (shape_ok_same s); [done| |done..]); done.
  - destruct (cancel_requested s); simplify_eq.
    { eapply (shape_ok_same s); [done| |done..]; done. }
    destruct o; simplify_eq; [|done].
    destruct (items (discharge_queue (resources s))) as [|i rest] eqn:Hit;
      simplify_eq.
    unfold queue_items in *. rewrite Hit in Hnd, Hq.
    apply NoDup_cons in Hnd as [Hni Hnd].
    unfold shape_ok, queue_items. simpl. split_and!; auto.
    + intros j Hj. eapply (awaiting_discharge_same s); [done|].
      apply Hq. by right.
    + intros j [= <-]. split; [done|].
      eapply (awaiting_discharge_same s); [done|]. apply Hq. by left.
  - destruct (Hd i eq_refl) as (Hni & c & Hc & Hpc & Hst).
    destruct (cancel_requested s); simplify_eq.
    { eapply (shape_ok_same s); [done| |done..]; done. }
    destruct o; simplify_eq;
      [|eapply (shape_ok_same s); [done| |done..]; done].
    rewrite Hc in Hstep. simpl in Hstep. simplify_eq.
    pose proof (Hcell i c Hc) as Hok. unfold cell_ok in Hok.
    rewrite Hpc in Hok.
    destruct (discharge_patient_frame i c t s)
      as (_ & Erq & Ets & _ & Edt & _ & _ & Eq).
    eapply (shape_ok_set s _ i
      (set_patient (set_status DISCHARGED (patient c)) c));
      [done| |done| |done..].
    + unfold cell_ok. simpl. rewrite Hpc. intuition congruence.
    + intros j Hj. simpl in Hj. done.
Qed.

Lemma shape_ok_orchestrator_step (s s' : Simulation) :
  shape_ok s → orchestrator_step s = Some s' → shape_ok s'.
Proof.
  intros Hs Hstep. unfold orchestrator_step in Hstep.
  pose proof Hs as (Hrq & Hcell & Hnd & Hq & Hd).
  destruct (orchestrator s).
  - destruct (diagnosis_collected_count s <? num_patients s);
      [|simplify_eq; eapply (shape_ok_same s); [done| |done..]; done].
    destruct (diagnosis_result_queue s) as [|p rest] eqn:Hrest; simplify_eq;
      [eapply (shape_ok_same s); [done| |done..]; done|].
    unfold shape_ok, queue_items, awaiting_discharge. simpl.
    split_and!; auto.
    + intros q Hq'. apply Hrq. by right.
    + intros j c [Hj|[_ Hj]]%lookup_app_Some; [eauto|].
      apply list_lookup_singleton_Some in Hj as [_ <-].
      unfold cell_ok. simpl. split_and!; [done..|].
      rewrite (Hrq p); [done|]. by left.
    + intros j Hj. destruct (Hq j Hj) as (c & Hc & ?). exists c.
      split; [|done]. by apply lookup_app_l_Some.
    + intros j Hj. destruct (Hd j Hj) as (? & c & Hc & ?). split; [done|].
      exists c. split; [|done]. by apply lookup_app_l_Some.
  - destruct (forallb finished (allocation_tasks s)); simplify_eq.
    eapply (shape_ok_same s); [done| |done..]; done.
  - destruct (unfinished_tasks (discharge_queue (resources s)) <=? 0);
      simplify_eq.
    eapply (shape_ok_same s); [done| |done..]; done.
  - destruct (discharge_task_done s); simplify_eq;
      (eapply (shape_ok_same s); [done| |done..]; done).
  - destruct (discharge_task_done s); simplify_eq;
      (eapply (shape_ok_same s); [done| |done..]; done).
  - done.
Qed.

Lemma shape_ok_step a (s s' : Simulation) :
  shape_ok s → step a s = Some s' → shape_ok s'.
Proof.
  intros Hs Hstep. destruct a as [d p| |i o h t|o t]; simpl in Hstep.
  - simplify_eq. pose proof Hs as (Hrq & Hcell & Hnd & Hq & Hd).
    unfold shape_ok, queue_items, awaiting_discharge. simpl.
    split_and!; auto.
    intros q [Hq'| ->%list_elem_of_singleton]%elem_of_app; auto.
  - by eapply shape_ok_orchestrator_step.
  - by eapply shape_ok_alloc_step.
  - by eapply shape_ok_discharge_step.
Qed.

Lemma init_resources nd nb (res : HospitalResources) r order :
  HospitalResources_init nd nb = Some res →
  0 ≤ nd ∧ 0 ≤ nb ∧
  doctors_semaphore (registration_stage r order res) = nd ∧
  beds_semaphore (registration_stage r order res) = nb ∧
  discharge_queue (registration_stage r order res)
    = {| items := []; unfinished_tasks := 0 |} ∧
  processed_patients (registration_stage r order res) = 0.
Proof.
  unfold HospitalResources_init.
  destruct (registration_stage_cooperative r order res) as (-> & -> & -> & ->).
  destruct (nd <? 0) eqn:Hd, (nb <? 0) eqn:Hb; simpl; intros Hres;
    simplify_eq.
  apply Z.ltb_ge in Hd, Hb. split_and!; [lia|lia|done..].
Qed.

Lemma shape_ok_reachable n nd nb (s : Simulation) :
  reachable n nd nb s → shape_ok s.
Proof.
  apply reachable_ind.
  - intros res r order Hres.
    destruct (init_resources nd nb res r order Hres) as (_ & _ & _ & _ & Hq & _).
    unfold shape_ok, queue_items. simpl. rewrite Hq. simpl.
    split_and!.
    + intros p Hp. by apply elem_of_nil in Hp.
    + intros i c Hc. done.
    + apply NoDup_nil_2.
    + intros i Hi. by apply elem_of_nil in Hi.
    + intros i Hi. done.
  - intros s0 a s1 _. apply shape_ok_step.
Qed.


(** ** Semaphores against the units held *)

Lemma held_app r (ts1 ts2 : list AllocTask) :
  held r (ts1 ++ ts2) = held r ts1 + held r ts2.
Proof. induction ts1 as [|c ts1 IH]; simpl; lia. Qed.

Lemma held_insert r (ts : list AllocTask) i c c' :
  ts !! i = Some c →
  held r (<[i:=c']> ts) = held r ts - b2z (holds r c) + b2z (holds r c').
Proof.
  revert i. induction ts as [|c0 ts IH]; intros [|i] Hi; simplify_eq/=.
  - lia.
  - rewrite (IH i Hi). lia.
Qed.

Lemma held_nonneg r (ts : list AllocTask) : 0 ≤ held r ts.
Proof.
  induction ts as [|c ts IH]; simpl; [lia|].
  destruct (holds r c); simpl; lia.
Qed.

Lemma rollback_semaphore r i c (s : Simulation) :
  semaphore r (resources (rollback i c s))
  = semaphore r (resources s) + b2z (truthy (handle r c)).
Proof.
  unfold rollback, handle.
  destruct r, (truthy (assigned_doctor c)), (truthy (assigned_bed c));
    simpl; lia.
Qed.

Lemma discharge_patient_semaphore r i c t (s : Simulation) :
  semaphore r (resources (discharge_patient i c t s))
  = semaphore r (resources s) + b2z (recorded r (patient c)).
Proof.
  unfold discharge_patient, task_done.
  destruct r, (recorded Doctor (patient c)), (recorded Bed (patient c));
    simpl; case_match; simpl; lia.
Qed.

Ltac holds_simpl :=
  unfold holds, acquired, rolled_back, discharged, handle; simpl;
  repeat match goal with
    | E : pc ?c = _ |- context [pc ?c] => rewrite E
    | E : truthy ?x = _ |- context [truthy ?x] => rewrite E
    | E : ?x = None |- context [truthy ?x] => rewrite E
    end;
  simpl;
  repeat (case_bool_decide; try done); simpl.

Lemma pools_ok_alloc_step nd nb i o h t (s s' : Simulation) :
  shape_ok s → pools_ok nd nb s → alloc_step i o h t s = Some s' →
  pools_ok nd nb s'.
Proof.
  intros Hs Hp Hstep. unfold alloc_step in Hstep.
  destruct (allocation_tasks s !! i) as [c|] eqn:Hc; simpl in Hstep; [|done].
  pose proof Hs as (_ & Hcell & _).
  pose proof (Hcell i c Hc) as Hok. unfold cell_ok in Hok.
  intros r. destruct (Hp r) as [Hge Hsum].
  destruct (pc c) eqn:Hpc, o; try discriminate Hstep; rewrite ?Hpc in Hok.
  all: repeat match goal with
    | Hx : (if 0 <? ?v then _ else _) = Some _ |- _ =>
        let E := fresh "Hpos" in
        destruct (0 <? v) eqn:E; [apply Z.ltb_lt in E|discriminate Hx]
    end.
  all: injection Hstep as <-.
  all: destruct Hok as (Hd & Hb & Hrest).
  all: rewrite ?rollback_semaphore.
  all: repeat match goal with
    | |- context [allocation_tasks (rollback ?i ?c ?s)] =>
        destruct (rollback_frame i c s) as (_ & _ & -> & _)
    end.
  all: simpl; rewrite (held_insert r _ i c _ Hc).
  all: destruct r; holds_simpl; simpl in *; try lia.
  all: exfalso; intuition congruence.
Qed.

Lemma pools_ok_discharge_step nd nb o t (s s' : Simulation) :
  shape_ok s → pools_ok nd nb s → discharge_step o t s = Some s' →
  pools_ok nd nb s'.
Proof.
  intros Hs Hp Hstep. unfold discharge_step in Hstep.
  pose proof Hs as (_ & Hcell & _ & _ & Hd).
  destruct (discharge_task s) as [| |i| |] eqn:Hdt; [| | |done..].
  - destruct (cancel_requested s), o; simplify_eq; done.
  - destruct (cancel_requested s); simplify_eq; [done|].
    destruct o; simplify_eq; [|done].
    destruct (items (discharge_queue (resources s))); simplify_eq.
    intros r. destruct (Hp r). by destruct r.
  - destruct (Hd i eq_refl) as (Hni & c & Hc & Hpc & Hst).
    destruct (cancel_requested s); simplify_eq; [done|].
    destruct o; simplify_eq; [|done].
    rewrite Hc in Hstep. simpl in Hstep. simplify_eq.
    pose proof (Hcell i c Hc) as Hok. unfold cell_ok in Hok.
    rewrite Hpc in Hok. destruct Hok as (_ & _ & Hrd & Hrb & _).
    intros r. destruct (Hp r) as [Hge Hsum]. simpl.
    rewrite discharge_patient_semaphore.
    destruct (discharge_patient_frame i c t s) as (_ & _ & -> & _).
    rewrite (held_insert r _ i c _ Hc).
    destruct r; rewrite ?Hrd, ?Hrb; holds_simpl; simpl in *; try lia;
      congruence.
Qed.

Lemma pools_ok_step nd nb a (s s' : Simulation) :
  shape_ok s → pools_ok nd nb s → step a s = Some s' → pools_ok nd nb s'.
Proof.
  intros Hs Hp Hstep. destruct a as [d p| |i o h t|o t]; simpl in Hstep.
  - by simplify_eq.
  - unfold orchestrator_step in Hstep.
    destruct (orchestrator s); repeat case_match; simplify_eq; try done.
    intros r. destruct (Hp r) as [Hge Hsum]. simpl.
    rewrite held_app. simpl. holds_simpl. split; [done|lia].
  - by eapply pools_ok_alloc_step.
  - by eapply pools_ok_discharge_step.
Qed.

Lemma pools_ok_reachable n nd nb (s : Simulation) :
  reachable n nd nb s → pools_ok nd nb s.
Proof.
  intros Hr. pose proof Hr as Hr'. revert s Hr' Hr.
  apply (reachable_ind n nd nb
           (λ s, reachable n nd nb s → pools_ok nd nb s)).
  - intros res r order Hres _.
    destruct (init_resources nd nb res r order Hres)
      as (? & ? & Hd & Hb & _).
    intros [|]; simpl; rewrite ?Hd, ?Hb; lia.
  - intros s0 a s1 Hr0 IH Hstep _.
    eapply pools_ok_step; [by eapply shape_ok_reachable|by apply IH|done].
Qed.


(** ** Acquire and release events of each patient *)

Lemma count_app f (tr1 tr2 : list Event) :
  count f (tr1 ++ tr2) = count f tr1 + count f tr2.
Proof. induction tr1 as [|e tr1 IH]; simpl; lia. Qed.

Lemma count_nonneg f (tr : list Event) : 0 ≤ count f tr.
Proof. induction tr as [|e tr IH]; simpl; [lia|]. destruct (f e); simpl; lia. Qed.

Lemma occ_app e (tr1 tr2 : list Event) :
  occ e (tr1 ++ tr2) = occ e tr1 + occ e tr2.
Proof. apply count_app. Qed.

Lemma occ_cons e e' (tr : list Event) :
  occ e (e' :: tr) = b2z (bool_decide (e' = e)) + occ e tr.
Proof. reflexivity. Qed.

Lemma occ_pos_elem_of e (tr : list Event) : 0 < occ e tr → e ∈ tr.
Proof.
  induction tr as [|e' tr IH]; rewrite ?occ_cons; [unfold occ; simpl; lia|].
  case_bool_decide; simpl; intros Hp.
  - subst. by left.
  - right. apply IH. lia.
Qed.

Lemma rollback_trace i c (s : Simulation) :
  trace (rollback i c s)
  = (if truthy (assigned_bed c) then [EvRelease Allocation Bed i] else [])
    ++ (if truthy (assigned_doctor c)
        then [EvRelease Allocation Doctor i] else [])
    ++ trace s.
Proof.
  unfold rollback.
  destruct (truthy (assigned_doctor c)), (truthy (assigned_bed c)); done.
Qed.

Lemma discharge_patient_trace i c t (s : Simulation) :
  trace (discharge_patient i c t s)
  = EvDischarged i ::
    (if recorded Bed (patient c) then [EvRelease Discharge Bed i] else [])
    ++ (if recorded Doctor (patient c)
        then [EvRelease Discharge Doctor i] else [])
    ++ trace s.
Proof.
  unfold discharge_patient, task_done.
  destruct (recorded Doctor (patient c)), (recorded Bed (patient c)); simpl;
    case_match; done.
Qed.

Lemma at_task_insert f (s s' : Simulation) i c c' j :
  allocation_tasks s !! i = Some c →
  allocation_tasks s' = <[i:=c']> (allocation_tasks s) →
  at_task f s' j = if bool_decide (j = i) then f c' else at_task f s j.
Proof.
  intros Hc Ets. unfold at_task. rewrite Ets.
  case_bool_decide as Hj.
  - subst. rewrite list_lookup_insert_eq; [done|]. by eapply lookup_lt_Some.
  - by rewrite list_lookup_insert_ne.
Qed.

Lemma at_task_same f (s s' : Simulation) j :
  allocation_tasks s' = allocation_tasks s → at_task f s' j = at_task f s j.
Proof. intros Ets. unfold at_task. by rewrite Ets. Qed.

Lemma rollback_tasks i c (s : Simulation) :
  allocation_tasks (rollback i c s)
  = <[i:=set_pc A_failed c]> (allocation_tasks s).
Proof. by destruct (rollback_frame i c s) as (_ & _ & -> & _). Qed.

Lemma discharge_patient_tasks i c t (s : Simulation) :
  allocation_tasks (discharge_patient i c t s)
  = <[i:=set_patient (set_status DISCHARGED (patient c)) c]>
      (allocation_tasks s).
Proof. by destruct (discharge_patient_frame i c t s) as (_ & _ & -> & _). Qed.

(** The task [i] is replaced and events about [i] are added. *)
Lemma events_ok_update (s s' : Simulation) i c c' :
  events_ok s →
  allocation_tasks s !! i = Some c →
  allocation_tasks s' = <[i:=c']> (allocation_tasks s) →
  (∀ j r, j ≠ i →
     occ (EvAcquire r j) (trace s') = occ (EvAcquire r j) (trace s) ∧
     occ (EvRelease Allocation r j) (trace s')
       = occ (EvRelease Allocation r j) (trace s) ∧
     occ (EvRelease Discharge r j) (trace s')
       = occ (EvRelease Discharge r j) (trace s)) →
  (∀ r,
     occ (EvAcquire r i) (trace s')
       = occ (EvAcquire r i) (trace s)
         + b2z (acquired r c') - b2z (acquired r c) ∧
     occ (EvRelease Allocation r i) (trace s')
       = occ (EvRelease Allocation r i) (trace s)
         + b2z (rolled_back r c') - b2z (rolled_back r c) ∧
     occ (EvRelease Discharge r i) (trace s')
       = occ (EvRelease Discharge r i) (trace s)
         + b2z (discharged c') - b2z (discharged c)) →
  events_ok s'.
Proof.
  intros He Hc Ets Hother Hself j r.
  destruct (He j r) as (Ha & Hr & Hd).
  rewrite !(at_task_insert _ s s' i c c' j Hc Ets).
  case_bool_decide as Hj.
  - subst j. destruct (Hself r) as (-> & -> & ->).
    rewrite Ha, Hr, Hd. unfold at_task. rewrite Hc. lia.
  - destruct (Hother j r Hj) as (-> & -> & ->). done.
Qed.

Lemma events_ok_same (s s' : Simulation) :
  events_ok s →
  (∀ j f, at_task f s' j = at_task f s j) →
  (∀ j r,
     occ (EvAcquire r j) (trace s') = occ (EvAcquire r j) (trace s) ∧
     occ (EvRelease Allocation r j) (trace s')
       = occ (EvRelease Allocation r j) (trace s) ∧
     occ (EvRelease Discharge r j) (trace s')
       = occ (EvRelease Discharge r j) (trace s)) →
  events_ok s'.
Proof.
  intros He Ets Hother j r.
  destruct (He j r) as (Ha & Hr & Hd). destruct (Hother j r) as (-> & -> & ->).
  by rewrite !Ets.
Qed.

Ltac occ_simpl :=
  rewrite ?rollback_trace, ?discharge_patient_trace; simpl;
  repeat match goal with
    | |- context [truthy ?x] =>
        let E := fresh "Ht" in destruct (truthy x) eqn:E
    | |- context [if recorded ?r ?p then _ else _] =>
        let E := fresh "Hr" in destruct (recorded r p) eqn:E
    end; simpl;
  rewrite ?occ_cons;
  repeat (case_bool_decide; simplify_eq); simpl.

Ltac cell_simpl :=
  unfold holds, acquired, rolled_back, discharged, handle; simpl;
  repeat match goal with
    | E : pc ?c = _ |- context [pc ?c] => rewrite E
    | E : truthy ?x = _ |- context [truthy ?x] => rewrite E
    | E : ?x = None |- context [truthy ?x] => rewrite E
    end;
  simpl;
  repeat (case_bool_decide; simplify_eq); simpl.

Ltac absurd_cell :=
  exfalso;
  repeat match goal with
    | E : ?x = None, E2 : truthy ?x = _ |- _ => rewrite E in E2; simpl in E2
    end;
  intuition congruence.

Lemma events_ok_alloc_step i o h t (s s' : Simulation) :
  shape_ok s → events_ok s → alloc_step i o h t s = Some s' → events_ok s'.
Proof.
  intros Hs He Hstep. unfold alloc_step in Hstep.
  destruct (allocation_tasks s !! i) as [c|] eqn:Hc; simpl in Hstep; [|done].
  pose proof Hs as (_ & Hcell & _).
  pose proof (Hcell i c Hc) as Hok. unfold cell_ok in Hok.
  destruct (pc c) eqn:Hpc, o; try discriminate Hstep; rewrite ?Hpc in Hok.
  all: repeat match goal with
    | Hx : (if 0 <? ?v then _ else _) = Some _ |- _ =>
        destruct (0 <? v); [|discriminate Hx]
    end.
  all: injection Hstep as <-.
  all: destruct Hok as (Hd & Hb & Hrest).
  all: eapply (events_ok_update s _ i c _ He Hc);
    [first [reflexivity|apply rollback_tasks]| |].
  all: try (intros j r Hj; occ_simpl; done).
  all: intros r; destruct r; occ_simpl; cell_simpl; try lia.
  all: absurd_cell.
Qed.

Lemma events_ok_discharge_step o t (s s' : Simulation) :
  shape_ok s → events_ok s → discharge_step o t s = Some s' → events_ok s'.
Proof.
  intros Hs He Hstep. unfold discharge_step in Hstep.
  pose proof Hs as (_ & Hcell & _ & _ & Hd).
  destruct (discharge_task s) as [| |i| |] eqn:Hdt; [| | |done..].
  - destruct (cancel_requested s), o; simplify_eq; done.
  - destruct (cancel_requested s); simplify_eq; [done|].
    destruct o; simplify_eq; [|done].
    destruct (items (discharge_queue (resources s))); simplify_eq.
    apply (events_ok_same s); [done|done|]. intros j r. by occ_simpl.
  - destruct (Hd i eq_refl) as (Hni & c & Hc & Hpc & Hst).
    destruct (cancel_requested s); simplify_eq.
    { apply (events_ok_same s); [done|done|]. intros j r. by occ_simpl. }
    destruct o; simplify_eq.
    2: { apply (events_ok_same s); [done|done|]. intros j r. by occ_simpl. }
    rewrite Hc in Hstep. simpl in Hstep. simplify_eq.
    pose proof (Hcell i c Hc) as Hok. unfold cell_ok in Hok.
    rewrite Hpc in Hok. destruct Hok as (_ & _ & Hrd & Hrb & _).
    eapply (events_ok_update s _ i c _ He Hc);
      [apply discharge_patient_tasks| |].
    + intros j r Hj. simpl. rewrite discharge_patient_trace, Hrd, Hrb.
      by occ_simpl.
    + intros r. simpl. rewrite discharge_patient_trace, Hrd, Hrb.
      destruct r; occ_simpl; cell_simpl; try lia; congruence.
Qed.

Lemma at_task_snoc f (s s' : Simulation) c j :
  allocation_tasks s' = allocation_tasks s ++ [c] → f c = false →
  at_task f s' j = at_task f s j.
Proof.
  intros Ets Hf. unfold at_task. rewrite Ets.
  destruct (allocation_tasks s !! j) as [c0|] eqn:Hj.
  - by rewrite (lookup_app_l_Some _ _ _ _ Hj).
  - destruct ((allocation_tasks s ++ [c]) !! j) as [c1|] eqn:Hj'; [|done].
    apply lookup_app_Some in Hj' as [Hj'|[_ Hj']]; [congruence|].
    apply list_lookup_singleton_Some in Hj' as [_ <-]. done.
Qed.

Lemma events_ok_step a (s s' : Simulation) :
  shape_ok s → events_ok s → step a s = Some s' → events_ok s'.
Proof.
  intros Hs He Hstep. destruct a as [d p| |i o h t|o t]; simpl in Hstep.
  - by simplify_eq.
  - unfold orchestrator_step in Hstep.
    destruct (orchestrator s); repeat case_match; simplify_eq; try done.
    destruct Hs as (Hrq & _).
      assert (status p = DIAGNOSED) as Hst
        by (apply Hrq; rewrite H1; by left).
      intros j r. destruct (He j r) as (Ha & Hr & Hd).
      rewrite (at_task_snoc (acquired r) s (collect p l s) _ j eq_refl)
        by done.
      rewrite (at_task_snoc (rolled_back r) s (collect p l s) _ j eq_refl)
        by done.
      rewrite (at_task_snoc discharged s (collect p l s) _ j eq_refl)
        by (unfold discharged; simpl; by rewrite Hst).
      simpl. rewrite !occ_cons.
      repeat (case_bool_decide; simplify_eq). simpl. done.
  - by eapply events_ok_alloc_step.
  - by eapply events_ok_discharge_step.
Qed.

Lemma events_ok_reachable n nd nb (s : Simulation) :
  reachable n nd nb s → events_ok s.
Proof.
  intros Hr. pose proof Hr as Hr'. revert s Hr' Hr.
  apply (reachable_ind n nd nb (λ s, reachable n nd nb s → events_ok s)).
  - intros res r order Hres _ j r0. done.
  - intros s0 a s1 Hr0 IH Hstep _.
    eapply events_ok_step; [by eapply shape_ok_reachable|by apply IH|done].
Qed.


(** ** Order of the events of a patient *)

Lemma order_ok_cons e (tr : list Event) :
  order_ok tr →
  (∀ st r i, e = EvRelease st r i → EvAcquire r i ∈ tr) →
  (∀ i, e = EvAcquire Bed i → EvAcquire Doctor i ∈ tr) →
  order_ok (e :: tr).
Proof.
  intros [Hrel Hbed] Hr Hb. split.
  - intros st r i [|e' post] pre Heq; simplify_eq/=; eauto.
  - intros i [|e' post] pre Heq; simplify_eq/=; eauto.
Qed.

Lemma acquired_in_trace (s : Simulation) i c r :
  events_ok s → allocation_tasks s !! i = Some c → acquired r c = true →
  EvAcquire r i ∈ trace s.
Proof.
  intros He Hc Ha. destruct (He i r) as (Hocc & _).
  apply occ_pos_elem_of. rewrite Hocc. unfold at_task. rewrite Hc, Ha. done.
Qed.

Ltac order_cons :=
  apply order_ok_cons;
  [|intros ? ? ? ?; simplify_eq|intros ? ?; simplify_eq].

Lemma order_ok_alloc_step i o h t (s s' : Simulation) :
  shape_ok s → events_ok s → order_ok (trace s) →
  alloc_step i o h t s = Some s' → order_ok (trace s').
Proof.
  intros Hs He Ho Hstep. unfold alloc_step in Hstep.
  destruct (allocation_tasks s !! i) as [c|] eqn:Hc; simpl in Hstep; [|done].
  pose proof Hs as (_ & Hcell & _).
  pose proof (Hcell i c Hc) as Hok. unfold cell_ok in Hok.
  pose proof (acquired_in_trace s i c Doctor He Hc) as HaD.
  pose proof (acquired_in_trace s i c Bed He Hc) as HaB.
  unfold acquired, handle in HaD, HaB.
  destruct (pc c) eqn:Hpc, o; try discriminate Hstep; rewrite ?Hpc in Hok.
  all: repeat match goal with
    | Hx : (if 0 <? ?v then _ else _) = Some _ |- _ =>
        destruct (0 <? v); [|discriminate Hx]
    end.
  all: injection Hstep as <-.
  all: destruct Hok as (Hd & Hb & Hrest).
  all: rewrite ?rollback_trace; simpl.
  all: repeat match goal with
    | |- context [truthy ?x] =>
        let E := fresh "Ht" in destruct (truthy x) eqn:E
    end; simpl.
  all: repeat order_cons; try done.
  all: repeat apply list_elem_of_further; auto.
  all: try (first [apply HaD|apply HaB]; congruence).
  all: absurd_cell.
Qed.

Lemma order_ok_discharge_step o t (s s' : Simulation) :
  shape_ok s → events_ok s → order_ok (trace s) →
  discharge_step o t s = Some s' → order_ok (trace s').
Proof.
  intros Hs He Ho Hstep. unfold discharge_step in Hstep.
  pose proof Hs as (_ & Hcell & _ & _ & Hd).
  destruct (discharge_task s) as [| |i| |] eqn:Hdt; [| | |done..].
  - destruct (cancel_requested s), o; simplify_eq; done.
  - destruct (cancel_requested s); simplify_eq; [done|].
    destruct o; simplify_eq; [|done].
    destruct (items (discharge_queue (resources s))); simplify_eq.
    simpl. by order_cons.
  - destruct (Hd i eq_refl) as (Hni & c & Hc & Hpc & Hst).
    destruct (cancel_requested s); simplify_eq; [simpl; by order_cons|].
    destruct o; simplify_eq; [|simpl; by order_cons].
    rewrite Hc in Hstep. simpl in Hstep. simplify_eq.
    pose proof (acquired_in_trace s i c Doctor He Hc) as HaD.
    pose proof (acquired_in_trace s i c Bed He Hc) as HaB.
    unfold acquired in HaD, HaB. rewrite Hpc in HaD, HaB.
    simpl. rewrite discharge_patient_trace.
    destruct (recorded Doctor (patient c)), (recorded Bed (patient c)); simpl.
    all: repeat order_cons; try done.
    all: repeat apply list_elem_of_further; auto.
Qed.

Lemma order_ok_step a (s s' : Simulation) :
  shape_ok s → events_ok s → order_ok (trace s) →
  step a s = Some s' → order_ok (trace s').
Proof.
  intros Hs He Ho Hstep. destruct a as [d p| |i o h t|o t]; simpl in Hstep.
  - by simplify_eq.
  - unfold orchestrator_step in Hstep.
    destruct (orchestrator s); repeat case_match; simplify_eq; try done.
    all: simpl; by order_cons.
  - by eapply order_ok_alloc_step.
  - by eapply order_ok_discharge_step.
Qed.

Lemma order_ok_reachable n nd nb (s : Simulation) :
  reachable n nd nb s → order_ok (trace s).
Proof.
  intros Hr. pose proof Hr as Hr'. revert s Hr' Hr.
  apply (reachable_ind n nd nb
           (λ s, reachable n nd nb s → order_ok (trace s))).
  - intros res r order Hres _. simpl. split.
    + intros st r0 i [|e post] pre Heq; discriminate Heq.
    + intros i [|e post] pre Heq; discriminate Heq.
  - intros s0 a s1 Hr0 IH Hstep _.
    eapply order_ok_step;
      [by eapply shape_ok_reachable|by eapply events_ok_reachable
      |by apply IH|done].
Qed.


(** ** Counters against the whole trace *)

Lemma discharge_patient_counters i c t (s : Simulation) :
  processed_patients (resources (discharge_patient i c t s))
    = processed_patients (resources s) + 1 ∧
  avg_wait_time (resources (discharge_patient i c t s))
    = avg_wait_time
        (record_discharge (num_sub t (registration_time (patient c)))
           (resources s)) ∧
  unfinished_tasks (discharge_queue (resources (discharge_patient i c t s)))
    = (if unfinished_tasks (discharge_queue (resources s)) <=? 0
       then unfinished_tasks (discharge_queue (resources s))
       else unfinished_tasks (discharge_queue (resources s)) - 1).
Proof.
  unfold discharge_patient, task_done.
  destruct (recorded Doctor (patient c)), (recorded Bed (patient c)); simpl;
    case_match; done.
Qed.

Ltac count_simpl :=
  rewrite ?rollback_trace, ?discharge_patient_trace; simpl;
  repeat match goal with
    | |- context [truthy ?x] =>
        let E := fresh "Ht" in destruct (truthy x) eqn:E
    | |- context [if recorded ?r ?p then _ else _] =>
        let E := fresh "Hr" in destruct (recorded r p) eqn:E
    end; simpl;
  repeat (case_bool_decide; simplify_eq); simpl.

Lemma totals_ok_alloc_step nd nb i o h t (s s' : Simulation) :
  totals_ok nd nb s → alloc_step i o h t s = Some s' → totals_ok nd nb s'.
Proof.
  intros (Hsem & Hunf & Hdeq & Hproc & Hlost) Hstep. unfold alloc_step in Hstep.
  destruct (allocation_tasks s !! i) as [c|] eqn:Hc; simpl in Hstep; [|done].
  destruct (pc c) eqn:Hpc, o; try discriminate Hstep.
  all: repeat match goal with
    | Hx : (if 0 <? ?v then _ else _) = Some _ |- _ =>
        destruct (0 <? v); [|discriminate Hx]
    end.
  all: injection Hstep as <-.
  all: unfold totals_ok, queue_items in *.
  all: repeat match goal with
    | |- context [rollback ?i ?c ?s] =>
        let E1 := fresh in let E2 := fresh in let E3 := fresh in
        destruct (rollback_frame i c s)
          as (_ & _ & _ & _ & E1 & _ & _ & E2 & E3);
        rewrite ?E1, ?E2, ?E3; clear E1 E2 E3
    end.
  all: split_and!; try (intros r; specialize (Hsem r);
                        rewrite ?rollback_semaphore; unfold handle;
                        destruct r); count_simpl;
    rewrite ?length_app; simpl in *; lia.
Qed.

Lemma totals_ok_discharge_step nd nb o t (s s' : Simulation) :
  shape_ok s → totals_ok nd nb s → discharge_step o t s = Some s' →
  totals_ok nd nb s'.
Proof.
  intros Hs (Hsem & Hunf & Hdeq & Hproc & Hlost) Hstep.
  unfold discharge_step in Hstep.
  pose proof Hs as (_ & Hcell & _ & _ & Hd).
  unfold totals_ok, queue_items in *.
  destruct (discharge_task s) as [| |i| |] eqn:Hdt; [| | |done..].
  - destruct (cancel_requested s), o; simplify_eq; simpl in *;
      rewrite ?Hdt; done.
  - destruct (cancel_requested s); simplify_eq.
    { simpl in *. rewrite ?Hdt. done. }
    destruct o; simplify_eq; [|simpl in *; by rewrite ?Hdt].
    destruct (items (discharge_queue (resources s))) eqn:Hit; simplify_eq.
    simpl in *. split_and!; try done; try lia.
  - destruct (Hd i eq_refl) as (Hni & c & Hc & Hpc & Hst).
    destruct (cancel_requested s); simplify_eq.
    { simpl in *. split_and!; try done; try lia. }
    destruct o; simplify_eq.
    2: { simpl in *. split_and!; try done; try lia. }
    rewrite Hc in Hstep. simpl in Hstep. simplify_eq.
    pose proof (Hcell i c Hc) as Hok. unfold cell_ok in Hok.
    rewrite Hpc in Hok. destruct Hok as (_ & _ & Hrd & Hrb & _).
    destruct (discharge_patient_counters i c t s) as (Ep & _ & Eu).
    destruct (discharge_patient_frame i c t s)
      as (_ & _ & _ & _ & _ & _ & _ & Eq).
    unfold queue_items in Eq. simpl.
    rewrite Ep, Eu, Eq, discharge_patient_trace, Hrd, Hrb.
    assert ((unfinished_tasks (discharge_queue (resources s)) <=? 0) = false)
      as -> by (apply Z.leb_gt; simpl in *; lia).
    simpl in *. split_and!; try lia.
    intros r. specialize (Hsem r). rewrite discharge_patient_semaphore.
    destruct r; rewrite ?Hrd, ?Hrb; simpl in *; lia.
Qed.

Lemma totals_ok_step nd nb a (s s' : Simulation) :
  shape_ok s → totals_ok nd nb s → step a s = Some s' → totals_ok nd nb s'.
Proof.
  intros Hs Ht Hstep. destruct a as [d p| |i o h t|o t]; simpl in Hstep.
  - by simplify_eq.
  - unfold orchestrator_step in Hstep.
    destruct (orchestrator s); repeat case_match; simplify_eq; try done.
  - by eapply totals_ok_alloc_step.
  - by eapply totals_ok_discharge_step.
Qed.

Lemma totals_ok_reachable n nd nb (s : Simulation) :
  reachable n nd nb s → totals_ok nd nb s.
Proof.
  intros Hr. pose proof Hr as Hr'. revert s Hr' Hr.
  apply (reachable_ind n nd nb
           (λ s, reachable n nd nb s → totals_ok nd nb s)).
  - intros res r order Hres _.
    destruct (init_resources nd nb res r order Hres)
      as (? & ? & Hd & Hb & Hq & Hp).
    unfold totals_ok, queue_items. simpl. rewrite Hq, Hp. simpl.
    split_and!; try done. intros [|]; simpl; lia.
  - intros s0 a s1 Hr0 IH Hstep _.
    eapply totals_ok_step; [by eapply shape_ok_reachable|by apply IH|done].
Qed.


(** ** The orchestrator *)

Lemma forallb_lookup (f : AllocTask → bool) ts i c :
  forallb f ts = true → ts !! i = Some c → f c = true.
Proof.
  revert i. induction ts as [|c0 ts IH]; intros [|i] Hall Hi; simplify_eq/=;
    apply andb_prop in Hall as [? ?]; eauto.
Qed.

Lemma forallb_insert (f : AllocTask → bool) ts i c :
  forallb f ts = true → f c = true → forallb f (<[i:=c]> ts) = true.
Proof.
  revert i. induction ts as [|c0 ts IH]; intros [|i] Hall Hc; simpl in *;
    try done; apply andb_prop in Hall as [? ?]; apply andb_true_intro; eauto.
Qed.

Lemma joined_gathered o : joined o = true → gathered o = true.
Proof. by destruct o. Qed.

Lemma orchestrator_ok_alloc_step n i o h t (s s' : Simulation) :
  orchestrator_ok n s → alloc_step i o h t s = Some s' →
  orchestrator_ok n s'.
Proof.
  intros (Hn & Hlen & Hcol & Hle & Heq & Hg & Hj & Hcan) Hstep.
  unfold alloc_step in Hstep.
  destruct (allocation_tasks s !! i) as [c|] eqn:Hc; simpl in Hstep; [|done].
  assert (gathered (orchestrator s) = true → finished c = true) as Hfin
    by (intros Hg'; eapply forallb_lookup; eauto).
  unfold finished in Hfin.
  destruct (pc c) eqn:Hpc, o; try discriminate Hstep.
  all: repeat match goal with
    | Hx : (if 0 <? ?v then _ else _) = Some _ |- _ =>
        destruct (0 <? v); [|discriminate Hx]
    end.
  all: injection Hstep as <-.
  all: unfold orchestrator_ok.
  all: repeat match goal with
    | |- context [rollback ?i ?c ?s] =>
        let E := fresh in
        destruct (rollback_frame i c s)
          as (E & _ & E0 & E1 & _ & E2 & E3 & E4 & _);
        rewrite ?E, ?E0, ?E1, ?E2, ?E3, ?E4, ?rollback_trace;
        clear E E0 E1 E2 E3 E4
    end.
  all: simpl; rewrite ?length_insert.
  all: split_and!; try done.
  all: try (intros Hg'; specialize (Hfin Hg'); discriminate Hfin).
  all: try (intros Hj'; apply joined_gathered in Hj'; specialize (Hfin Hj');
            discriminate Hfin).
  all: count_simpl; done.
Qed.

Lemma orchestrator_ok_discharge_step n o t (s s' : Simulation) :
  shape_ok s → orchestrator_ok n s → discharge_step o t s = Some s' →
  orchestrator_ok n s'.
Proof.
  intros Hs (Hn & Hlen & Hcol & Hle & Heq & Hg & Hj & Hcan) Hstep.
  unfold discharge_step in Hstep.
  pose proof Hs as (_ & _ & _ & _ & Hd).
  unfold orchestrator_ok.
  destruct (cancel_requested s) eqn:Hcr;
    destruct (discharge_task s) as [| |i| |] eqn:Hdt; try done.
  1-3: simplify_eq; simpl; rewrite Hcr; split_and!; auto.
  - destruct o; simplify_eq. simpl; rewrite Hcr; split_and!; auto.
  - destruct o; simplify_eq; [|simpl; rewrite Hcr; split_and!; auto].
    destruct (items (discharge_queue (resources s))) eqn:Hit; simplify_eq.
    simpl. rewrite Hcr. split_and!; auto.
  - destruct (Hd i eq_refl) as (Hni & c & Hc & Hpc & Hst).
    destruct o; simplify_eq; [|simpl; rewrite Hcr; split_and!; auto].
    rewrite Hc in Hstep. simpl in Hstep. simplify_eq.
    destruct (discharge_patient_counters i c t s) as (_ & _ & Eu).
    destruct (discharge_patient_frame i c t s)
      as (En & _ & Ets & Ec & _ & Ecr & Eo & _).
    simpl. rewrite En, Ets, Ec, Ecr, Eo, Eu, discharge_patient_trace.
    rewrite length_insert.
    split_and!; try done.
    + rewrite Hcol. by count_simpl.
    + intros Hg'. apply forallb_insert; [by apply Hg|].
      unfold finished. simpl. by rewrite Hpc.
    + intros Hj'. specialize (Hj Hj'). case_match; lia.
    + by rewrite Hcr.
Qed.

Lemma orchestrator_ok_step n a (s s' : Simulation) :
  shape_ok s → orchestrator_ok n s → step a s = Some s' →
  orchestrator_ok n s'.
Proof.
  intros Hs Ho Hstep. destruct a as [d p| |i o h t|o t]; simpl in Hstep.
  - by simplify_eq.
  - destruct Ho as (Hn & Hlen & Hcol & Hle & Heq & Hg & Hj & Hcan).
    unfold orchestrator_step in Hstep. unfold orchestrator_ok.
    destruct (orchestrator s) eqn:Ho.
    + destruct (diagnosis_collected_count s <? num_patients s) eqn:Hlt.
      * apply Z.ltb_lt in Hlt.
        destruct (diagnosis_result_queue s) as [|p rest]; simplify_eq; simpl.
        { rewrite Ho. split_and!; try done. }
        rewrite Ho, length_app. simpl.
        split_and!; try done; try lia.
      * apply Z.ltb_ge in Hlt. simplify_eq. simpl.
        specialize (Hle eq_refl).
        split_and!; try done; try lia.
    + destruct (forallb finished (allocation_tasks s)) eqn:Hf; simplify_eq.
      simpl. specialize (Heq ltac:(done)). split_and!; try done.
    + destruct (unfinished_tasks (discharge_queue (resources s)) <=? 0)
        eqn:Hu; simplify_eq.
      apply Z.leb_le in Hu. simpl. specialize (Heq ltac:(done)).
      specialize (Hg eq_refl). split_and!; try done.
    + specialize (Heq ltac:(done)). specialize (Hg eq_refl).
      specialize (Hj eq_refl).
      destruct (discharge_task_done s); simplify_eq; simpl;
        split_and!; try done.
    + specialize (Heq ltac:(done)). specialize (Hg eq_refl).
      specialize (Hj eq_refl).
      destruct (discharge_task_done s); simplify_eq; simpl;
        split_and!; try done.
    + done.
  - by eapply orchestrator_ok_alloc_step.
  - by eapply orchestrator_ok_discharge_step.
Qed.

Lemma orchestrator_ok_reachable n nd nb (s : Simulation) :
  reachable n nd nb s → orchestrator_ok n s.
Proof.
  intros Hr. pose proof Hr as Hr'. revert s Hr' Hr.
  apply (reachable_ind n nd nb
           (λ s, reachable n nd nb s → orchestrator_ok n s)).
  - intros res r order Hres _.
    destruct (init_resources nd nb res r order Hres)
      as (? & ? & Hd & Hb & Hq & Hp).
    unfold orchestrator_ok. simpl. rewrite Hq. simpl.
    split_and!; try done. lia.
  - intros s0 a s1 Hr0 IH Hstep _.
    eapply orchestrator_ok_step;
      [by eapply shape_ok_reachable|by apply IH|done].
Qed.


(** ** Dequeue and discharge events of each patient *)

Lemma occ_le_count e f (tr : list Event) :
  f e = true → 0 ≤ occ e tr ∧ occ e tr ≤ count f tr.
Proof.
  intros Hf. unfold occ. induction tr as [|e' tr IH]; simpl; [lia|].
  case_bool_decide as He; [rewrite He, Hf|destruct (f e')]; simpl; lia.
Qed.

Lemma rollback_discharge_task i c (s : Simulation) :
  discharge_task (rollback i c s) = discharge_task s.
Proof. by destruct (rollback_frame i c s) as (_ & _ & _ & _ & -> & _). Qed.

Lemma queue_events_ok_alloc_step i o h t (s s' : Simulation) :
  shape_ok s → queue_events_ok s → alloc_step i o h t s = Some s' →
  queue_events_ok s'.
Proof.
  intros Hs Hq Hstep.
  pose proof (shape_ok_alloc_step i o h t s s' Hs Hstep) as Hs'.
  unfold alloc_step in Hstep.
  destruct (allocation_tasks s !! i) as [c|] eqn:Hc; simpl in Hstep; [|done].
  pose proof Hs as (_ & Hcell & _).
  pose proof (Hcell i c Hc) as Hok. unfold cell_ok in Hok.
  assert (pc c ≠ A_done) as Hnd by (intros E; rewrite E in Hstep; by destruct o).
  assert (discharged c = false) as Hdc.
  { unfold discharged. case_bool_decide as Hst; [|done].
    destruct (pc c); intuition congruence. }
  assert (∃ c', allocation_tasks s' = <[i:=c']> (allocation_tasks s) ∧
                discharged c' = false ∧
                discharge_task s' = discharge_task s ∧
                ∀ j, occ (EvDequeue j) (trace s') = occ (EvDequeue j) (trace s) ∧
                     occ (EvLost j) (trace s') = occ (EvLost j) (trace s) ∧
                     occ (EvDischarged j) (trace s')
                       = occ (EvDischarged j) (trace s))
    as (c' & Ets & Hdc' & Edt & Eocc).
  { destruct (pc c) eqn:Hpc, o; try discriminate Hstep.
    all: repeat match goal with
      | Hx : (if 0 <? ?v then _ else _) = Some _ |- _ =>
          destruct (0 <? v); [|discriminate Hx]
      end.
    all: injection Hstep as <-.
    all: eexists; split; [first [reflexivity|apply rollback_tasks]|].
    all: split; [unfold discharged in *; simpl; case_bool_decide; try done;
                 exfalso; intuition congruence|].
    all: split; [first [reflexivity|apply rollback_discharge_task]|].
    all: intros j; occ_simpl; done. }
  intros j. destruct (Hq j) as (Hd & Hdi). destruct (Eocc j) as (-> & -> & ->).
  rewrite (at_task_insert _ s s' i c c' j Hc Ets), Edt.
  case_bool_decide; [subst j|done].
  rewrite Hdc'. unfold at_task in Hd, Hdi. rewrite Hc, Hdc in Hd, Hdi. done.
Qed.

Lemma queue_events_ok_discharge_step o t (s s' : Simulation) :
  shape_ok s → queue_events_ok s → discharge_step o t s = Some s' →
  queue_events_ok s'.
Proof.
  intros Hs Hq Hstep. unfold discharge_step in Hstep.
  pose proof Hs as (_ & Hcell & _ & _ & Hd).
  destruct (cancel_requested s) eqn:Hcr;
    destruct (discharge_task s) as [| |i| |] eqn:Hdt; try done.
  - simplify_eq. intros j. destruct (Hq j) as (Hdq & Hdi).
    rewrite Hdt in Hdq. done.
  - simplify_eq. intros j. destruct (Hq j) as (Hdq & Hdi).
    rewrite Hdt in Hdq. done.
  - simplify_eq. intros j. destruct (Hq j) as (Hdq & Hdi).
    rewrite Hdt in Hdq. simpl in *. rewrite !occ_cons.
    unfold at_task in *. simpl.
    repeat (case_bool_decide; simplify_eq); simpl in *; try lia.
  - destruct o; simplify_eq. intros j. destruct (Hq j) as (Hdq & Hdi).
    rewrite Hdt in Hdq. done.
  - destruct o; simplify_eq; [|done].
    destruct (items (discharge_queue (resources s))) eqn:Hit; simplify_eq.
    intros j. destruct (Hq j) as (Hdq & Hdi). rewrite Hdt in Hdq.
    simpl in *. rewrite !occ_cons. unfold at_task in *. simpl.
    repeat (case_bool_decide; simplify_eq); simpl in *; try lia.
  - destruct (Hd i eq_refl) as (Hni & c & Hc & Hpc & Hst).
    destruct o; simplify_eq.
    2: { intros j. destruct (Hq j) as (Hdq & Hdi). rewrite Hdt in Hdq.
         simpl in *. rewrite !occ_cons. unfold at_task in *. simpl.
         repeat (case_bool_decide; simplify_eq); simpl in *; try lia. }
    rewrite Hc in Hstep. simpl in Hstep. simplify_eq.
    pose proof (Hcell i c Hc) as Hok. unfold cell_ok in Hok.
    rewrite Hpc in Hok. destruct Hok as (_ & _ & Hrd & Hrb & _).
    intros j. destruct (Hq j) as (Hdq & Hdi). rewrite Hdt in Hdq.
    rewrite !(at_task_insert _ s
                (set_discharge_task D_get (discharge_patient i c t s))
                i c _ j Hc (discharge_patient_tasks i c t s)).
    simpl. rewrite discharge_patient_trace, Hrd, Hrb. simpl.
    rewrite !occ_cons.
    assert (at_task discharged s i = false) as Hold
      by (unfold at_task, discharged; by rewrite Hc, Hst).
    unfold discharged at 1 3. simpl in *.
    repeat (case_bool_decide; simplify_eq); simpl in *;
      rewrite ?Hold in *; simpl in *; lia.
Qed.

Lemma queue_events_ok_step a (s s' : Simulation) :
  shape_ok s → queue_events_ok s → step a s = Some s' → queue_events_ok s'.
Proof.
  intros Hs Hq Hstep. destruct a as [d p| |i o h t|o t]; simpl in Hstep.
  - by simplify_eq.
  - unfold orchestrator_step in Hstep.
    destruct (orchestrator s); repeat case_match; simplify_eq; try done.
    destruct Hs as (Hrq & _).
    assert (status p = DIAGNOSED) as Hst
      by (apply Hrq; rewrite H1; by left).
    intros j. destruct (Hq j) as (Hdq & Hdi).
    rewrite (at_task_snoc discharged s (collect p l s) _ j eq_refl)
      by (unfold discharged; simpl; by rewrite Hst).
    simpl. rewrite !occ_cons.
    repeat (case_bool_decide; simplify_eq). simpl. done.
  - by eapply queue_events_ok_alloc_step.
  - by eapply queue_events_ok_discharge_step.
Qed.

Lemma queue_events_ok_reachable n nd nb (s : Simulation) :
  reachable n nd nb s → queue_events_ok s.
Proof.
  intros Hr. pose proof Hr as Hr'. revert s Hr' Hr.
  apply (reachable_ind n nd nb
           (λ s, reachable n nd nb s → queue_events_ok s)).
  - intros res r order Hres _ j. done.
  - intros s0 a s1 Hr0 IH Hstep _.
    eapply queue_events_ok_step;
      [by eapply shape_ok_reachable|by apply IH|done].
Qed.


(** ** Tasks that returned *)




Lemma reachable_run n nd nb acts (s s' : Simulation) :
  reachable n nd nb s → run acts s = Some s' → reachable n nd nb s'.
Proof.
  intros (res & r & order & acts0 & Hres & Hrun0) Hrun.
  exists res, r, order, (acts0 ++ acts). split; [done|].
  rewrite run_app, Hrun0. done.
Qed.


(** ** Rollback of a failed allocation *)




(** ** Acquisitions and releases of a patient *)

Lemma cell_release_le_acquire r c :
  cell_ok c →
  b2z (rolled_back r c) + b2z (discharged c) ≤ b2z (acquired r c) ∧
  b2z (acquired r c) - b2z (rolled_back r c) - b2z (discharged c)
    = b2z (holds r c).
Proof.
  unfold cell_ok, holds, rolled_back, acquired, discharged. intros Hok.
  destruct (pc c) eqn:Hpc; destruct Hok as (Hd & Hrest);
    repeat case_bool_decide; simpl; try lia;
    try (exfalso; intuition congruence).
  all: destruct (truthy (handle r c)); simpl; lia.
Qed.

(** C2.  For every patient whose status reaches DISCHARGED, the trace
    holds exactly one doctor acquire and one bed acquire by its
    allocation task and exactly one release of each by the discharge
    stage, none by the rollback handler, and each release comes after the
    acquire of the same unit.  For every patient and at every state, the
    releases never outnumber the acquires, and no unit is acquired
    twice. *)
Theorem discharged_patient_releases n nd nb (s : Simulation) :
  reachable n nd nb s →
  (∀ i c, allocation_tasks s !! i = Some c →
          status (patient c) = DISCHARGED →
          ∀ r, occ (EvAcquire r i) (trace s) = 1 ∧
               occ (EvRelease Discharge r i) (trace s) = 1 ∧
               occ (EvRelease Allocation r i) (trace s) = 0) ∧
  (∀ i r, occ (EvRelease Allocation r i) (trace s)
          + occ (EvRelease Discharge r i) (trace s)
          ≤ occ (EvAcquire r i) (trace s) ∧
          occ (EvAcquire r i) (trace s) ≤ 1) ∧
  (∀ st r i post pre, trace s = post ++ EvRelease st r i :: pre →
                      EvAcquire r i ∈ pre).
Proof.
  intros Hr.
  pose proof (shape_ok_reachable n nd nb s Hr) as (_ & Hcell & _).
  pose proof (events_ok_reachable n nd nb s Hr) as He.
  pose proof (order_ok_reachable n nd nb s Hr) as [Hord _].
  split_and!; [| |exact Hord].
  - intros i c Hc Hst r. destruct (He i r) as (-> & -> & ->).
    unfold at_task. rewrite Hc.
    pose proof (Hcell i c Hc) as Hok. unfold cell_ok in Hok.
    unfold acquired, rolled_back, discharged.
    destruct (pc c) eqn:Hpc; try (exfalso; intuition congruence).
    rewrite Hst. done.
  - intros i r. destruct (He i r) as (-> & -> & ->). unfold at_task.
    destruct (allocation_tasks s !! i) as [c|] eqn:Hc; [|simpl; lia].
    destruct (cell_release_le_acquire r c (Hcell i c Hc)) as [Hle _].
    split; [done|]. destruct (acquired r c); simpl; lia.
Qed.

(** C3.  At every state of a run with [nd] doctors and [nb] beds, the
    counter of each semaphore lies between 0 and the capacity, and the
    number of units held (acquires minus releases in the trace, which is
    also the number of tasks holding a unit) is the capacity minus the
    counter, hence between 0 and the capacity. *)
Theorem pools_within_capacity n nd nb (s : Simulation) :
  reachable n nd nb s →
  ∀ r, 0 ≤ semaphore r (resources s) ∧
       semaphore r (resources s) ≤ capacity nd nb r ∧
       count (is_acquire r) (trace s) - count (is_release r) (trace s)
         = capacity nd nb r - semaphore r (resources s) ∧
       held r (allocation_tasks s)
         = capacity nd nb r - semaphore r (resources s) ∧
       0 ≤ held r (allocation_tasks s) ∧
       held r (allocation_tasks s) ≤ capacity nd nb r.
Proof.
  intros Hr r.
  destruct (pools_ok_reachable n nd nb s Hr r) as [Hge Hsum].
  destruct (totals_ok_reachable n nd nb s Hr) as (Hsem & _).
  specialize (Hsem r). pose proof (held_nonneg r (allocation_tasks s)).
  lia.
Qed.

(** C9.  Every bed acquire of a patient comes after the doctor acquire of
    the same patient; a task that is at the doctor acquire has acquired
    no bed; and a task that holds a bed holds a doctor and is at neither
    acquire, so no task waits for a unit while it holds a bed. *)
Theorem doctor_before_bed n nd nb (s : Simulation) :
  reachable n nd nb s →
  (∀ i post pre, trace s = post ++ EvAcquire Bed i :: pre →
                 EvAcquire Doctor i ∈ pre) ∧
  (∀ i c, allocation_tasks s !! i = Some c → pc c = A_acq_doctor →
          occ (EvAcquire Bed i) (trace s) = 0 ∧
          occ (EvAcquire Doctor i) (trace s) = 0) ∧
  (∀ i c, allocation_tasks s !! i = Some c →
          occ (EvAcquire Bed i) (trace s)
          - occ (EvRelease Allocation Bed i) (trace s)
          - occ (EvRelease Discharge Bed i) (trace s) = 1 →
          occ (EvAcquire Doctor i) (trace s)
          - occ (EvRelease Allocation Doctor i) (trace s)
          - occ (EvRelease Discharge Doctor i) (trace s) = 1 ∧
          pc c ≠ A_acq_doctor ∧ pc c ≠ A_acq_bed).
Proof.
  intros Hr.
  pose proof (shape_ok_reachable n nd nb s Hr) as (_ & Hcell & _).
  pose proof (events_ok_reachable n nd nb s Hr) as He.
  pose proof (order_ok_reachable n nd nb s Hr) as [_ Hord].
  split_and!; [exact Hord| |].
  - intros i c Hc Hpc.
    destruct (He i Bed) as (-> & _). destruct (He i Doctor) as (-> & _).
    unfold at_task, acquired. rewrite Hc, Hpc. done.
  - intros i c Hc.
    destruct (He i Bed) as (-> & -> & ->).
    destruct (He i Doctor) as (-> & -> & ->).
    unfold at_task. rewrite Hc.
    pose proof (Hcell i c Hc) as Hok. unfold cell_ok in Hok.
    unfold acquired, rolled_back, discharged, handle.
    destruct (decide (pc c = A_failed)) as [Hpc|Hnf].
    { rewrite Hpc. simpl. case_bool_decide; simpl; lia. }
    destruct (pc c) eqn:Hpc; try done; destruct Hok as (Hd & Hb & Hrest);
      rewrite ?Hd, ?Hb; simpl; repeat case_bool_decide; simpl;
      try lia; try done.
Qed.


(** ** The collection loop and the shutdown of the discharge task *)

(** C5.  With [n >= 0] patients, the counter of the collection loop is
    the number of results dequeued so far and the number of allocation
    tasks created, and never exceeds [n].  While the orchestrator is in
    the loop its step is always possible, and it leaves the loop exactly
    when the counter is [n]; otherwise a non-empty poll dequeues the first
    result, counts it and creates one task for it, and an empty poll
    sleeps and changes nothing else.  Once the loop is left the counter
    is [n]. *)
Theorem collection_loop n nd nb (s : Simulation) :
  0 ≤ n → reachable n nd nb s →
  diagnosis_collected_count s = count is_collect (trace s) ∧
  diagnosis_collected_count s = Z.of_nat (length (allocation_tasks s)) ∧
  diagnosis_collected_count s ≤ n ∧
  (orchestrator s ≠ O_collect → diagnosis_collected_count s = n) ∧
  (orchestrator s = O_collect →
     ∃ s', orchestrator_step s = Some s' ∧
       (orchestrator s' ≠ O_collect ↔ diagnosis_collected_count s = n) ∧
       (diagnosis_collected_count s < n →
          match diagnosis_result_queue s with
          | p :: rest =>
              diagnosis_result_queue s' = rest ∧
              diagnosis_collected_count s' = diagnosis_collected_count s + 1 ∧
              allocation_tasks s' =
                allocation_tasks s ++
                [{| patient := p; pc := A_created;
                    assigned_doctor := None; assigned_bed := None |}] ∧
              resources s' = resources s
          | [] =>
              s' = log EvPollSleep s
          end)).
Proof.
  intros Hn Hr.
  destruct (orchestrator_ok_reachable n nd nb s Hr)
    as (En & Hlen & Hcol & Hle & Heq & _).
  assert (diagnosis_collected_count s ≤ n) as Hcn.
  { destruct (decide (orchestrator s = O_collect)) as [Ho|Ho].
    - specialize (Hle Ho). lia.
    - specialize (Heq Ho). lia. }
  split_and!; try done.
  - intros Ho. specialize (Heq Ho). lia.
  - intros Ho. unfold orchestrator_step. rewrite Ho, En.
    destruct (diagnosis_collected_count s <? n) eqn:Hlt.
    + apply Z.ltb_lt in Hlt.
      destruct (diagnosis_result_queue s) as [|p rest].
      * eexists. split; [reflexivity|]. simpl. rewrite Ho.
        split; [split; [done|lia]|done].
      * eexists. split; [reflexivity|]. simpl. rewrite Ho.
        split; [split; [done|lia]|done].
    + apply Z.ltb_ge in Hlt. eexists. split; [reflexivity|]. simpl.
      split; [split; [lia|done]|lia].
Qed.

Lemma elem_of_occ_pos e (tr : list Event) : e ∈ tr → 0 < occ e tr.
Proof.
  intros Hin. destruct (occ_le_count e (λ _, true) tr eq_refl) as [Hge _].
  induction tr as [|e' tr IH]; [by apply elem_of_nil in Hin|].
  rewrite occ_cons. destruct (occ_le_count e (λ _, true) tr eq_refl) as [? _].
  apply elem_of_cons in Hin as [->|Hin].
  - rewrite bool_decide_eq_true_2 by done. simpl. lia.
  - assert (0 < occ e tr) by (apply IH; [done|lia]).
    destruct (bool_decide (e' = e)); simpl; lia.
Qed.



(** ** Registration *)




(** ** Diagnosis worker *)

Lemma random_randint_range a b k :
  a ≤ b → a ≤ random_randint a b k ∧ random_randint a b k ≤ b.
Proof.
  intros Hab. unfold random_randint.
  pose proof (Z.mod_pos_bound (Z.of_nat k) (b - a + 1)). lia.
Qed.

(** C7 (amended).  For every patient a diagnosis worker takes from the
    queue, the payload is the one built from the four draws of the pass:
    it is the same for two passes with the same draws and does not depend
    on the patient; its severity lies in 1..10; the statuses written are
    WAITING_DIAGNOSIS and then DIAGNOSED; the other fields of the patient
    are kept; and the patient is put last on the result queue, the loop
    going on. *)
Theorem diagnosis_worker_step d (p : Patient) dq rq :
  worker_iteration d (Some p :: dq) rq
    = (true, dq, rq ++ [snd (diagnose d p)]) ∧
  fst (diagnose d p) = [WAITING_DIAGNOSIS; DIAGNOSED] ∧
  status (snd (diagnose d p)) = DIAGNOSED ∧
  diagnosis (snd (diagnose d p)) = Some (make_diagnosis d) ∧
  (∀ q, diagnosis (snd (diagnose d q)) = diagnosis (snd (diagnose d p))) ∧
  1 ≤ severity (make_diagnosis d) ∧ severity (make_diagnosis d) ≤ 10 ∧
  id (snd (diagnose d p)) = id p ∧
  name (snd (diagnose d p)) = name p ∧
  priority (snd (diagnose d p)) = priority p ∧
  registration_time (snd (diagnose d p)) = registration_time p.
Proof.
  split_and!; try done.
  - apply (random_randint_range 1 10). lia.
  - apply (random_randint_range 1 10). lia.
Qed.

(** ** Ordering of patients *)

Lemma Patient_lt_spec (p q : Patient) :
  Patient_lt p q
  = if bool_decide (priority p = priority q)
    then Returns false else RaisesTypeError.
Proof. reflexivity. Qed.

Lemma Patient_lt_never_true (p q : Patient) : Patient_lt p q ≠ Returns true.
Proof. rewrite Patient_lt_spec. by case_bool_decide. Qed.

Lemma Patient_lt_priority_only (p q p' q' : Patient) :
  priority p = priority p' → priority q = priority q' →
  Patient_lt p q = Patient_lt p' q'.
Proof. intros Hp Hq. rewrite !Patient_lt_spec. by rewrite Hp, Hq. Qed.


(** C10.  The comparison generated for [Patient] looks at the priority
    only, but [Priority] has no ordering: [p < q] raises [TypeError]
    whenever the two priorities differ (and is false when they are
    equal), whatever their numeric values. *)
Theorem Patient_lt_distinct_priorities_raises (p q : Patient) :
  priority p ≠ priority q → Patient_lt p q = RaisesTypeError.
Proof.
  intros Hne. rewrite Patient_lt_spec. by rewrite bool_decide_eq_false_2.
Qed.


(** * Further properties of the cooperative part *)

(** ** Status of a patient along its task *)

Lemma statuses_ok_update (s s' : Simulation) i c' :
  statuses_ok s → status_ok c' →
  allocation_tasks s' = <[i:=c']> (allocation_tasks s) →
  statuses_ok s'.
Proof.
  intros Hs Hok Ets j c. rewrite Ets. intros Hj.
  destruct (decide (j = i)) as [->|Hne].
  - apply list_lookup_insert_Some in Hj as [(_ & <- & _)|(? & _)]; done.
  - rewrite list_lookup_insert_ne in Hj by done. eauto.
Qed.

Lemma statuses_ok_step a (s s' : Simulation) :
  shape_ok s → statuses_ok s → step a s = Some s' → statuses_ok s'.
Proof.
  intros Hshape Hs Hstep.
  destruct a as [d p| |i o h t|o t]; simpl in Hstep.
  - by simplify_eq.
  - unfold orchestrator_step in Hstep.
    destruct Hshape as (Hrq & _).
    destruct (orchestrator s); [|repeat case_match; by simplify_eq..].
    destruct (diagnosis_collected_count s <? num_patients s);
      [|by simplify_eq].
    destruct (diagnosis_result_queue s) as [|p rest] eqn:Hq;
      simplify_eq; [done|].
    intros j c [Hj|[_ Hj]]%lookup_app_Some; [eauto|].
    apply list_lookup_singleton_Some in Hj as [_ <-].
    unfold status_ok. simpl. apply Hrq. by left.
  - unfold alloc_step in Hstep.
    destruct (allocation_tasks s !! i) as [c|] eqn:Hc; simpl in Hstep; [|done].
    pose proof (Hs i c Hc) as Hok. unfold status_ok in Hok.
    destruct Hshape as (_ & Hcell & _).
    pose proof (Hcell i c Hc) as Hcok. unfold cell_ok in Hcok.
    destruct (pc c) eqn:Hpc, o; try discriminate Hstep.
    all: repeat match goal with
      | Hx : (if 0 <? ?v then _ else _) = Some _ |- _ =>
          destruct (0 <? v); [|discriminate Hx]
      end.
    all: injection Hstep as <-.
    all: eapply (statuses_ok_update s _ i _ Hs);
      [|first [reflexivity|apply rollback_tasks]].
    all: unfold status_ok; simpl; rewrite ?Hpc; intuition auto.
  - unfold discharge_step in Hstep.
    destruct Hshape as (_ & _ & _ & _ & Hd).
    destruct (discharge_task s) as [| |i| |] eqn:Hdt; [| | |done..].
    + destruct (cancel_requested s), o; by simplify_eq.
    + destruct (cancel_requested s); simplify_eq; [done|].
      destruct o; simplify_eq; [|done].
      destruct (items (discharge_queue (resources s))); by simplify_eq.
    + destruct (Hd i eq_refl) as (_ & c & Hc & Hpc & Hst).
      destruct (cancel_requested s); simplify_eq; [done|].
      destruct o; simplify_eq; [|done].
      rewrite Hc in Hstep. simpl in Hstep. simplify_eq.
      eapply (statuses_ok_update s _ i _ Hs);
        [|apply (discharge_patient_tasks i c t s)].
      unfold status_ok. simpl. rewrite Hpc. by right.
Qed.

Lemma statuses_ok_reachable n nd nb (s : Simulation) :
  reachable n nd nb s → statuses_ok s.
Proof.
  intros Hr. pose proof Hr as Hr'. revert s Hr' Hr.
  apply (reachable_ind n nd nb (λ s, reachable n nd nb s → statuses_ok s)).
  - intros res r order Hres _ j c Hj. done.
  - intros s0 a s1 Hr0 IH Hstep _.
    eapply statuses_ok_step; [by eapply shape_ok_reachable|by apply IH|done].
Qed.


Lemma advances_refl c : advances c c.
Proof. unfold advances, same_patient. split; [done|lia]. Qed.

Lemma advances_update (s s' : Simulation) i c c' j cj :
  allocation_tasks s !! i = Some c → advances c c' →
  allocation_tasks s' = <[i:=c']> (allocation_tasks s) →
  allocation_tasks s !! j = Some cj →
  ∃ cj', allocation_tasks s' !! j = Some cj' ∧ advances cj cj'.
Proof.
  intros Hc Hadv Ets Hj. rewrite Ets.
  destruct (decide (j = i)) as [->|Hne].
  - exists c'. rewrite list_lookup_insert_eq by by eapply lookup_lt_Some.
    split; [done|]. congruence.
  - exists cj. rewrite list_lookup_insert_ne by done.
    split; [done|apply advances_refl].
Qed.

(** X1: in a run, a step of any task leaves every patient with the same
    identity, priority, registration time and diagnosis, and moves its
    status at most one state forward in the order of [PatientStatus]:
    no status goes back and none is skipped. *)
Theorem status_moves_forward n nd nb (s s' : Simulation) a j c :
  reachable n nd nb s → step a s = Some s' →
  allocation_tasks s !! j = Some c →
  ∃ c', allocation_tasks s' !! j = Some c' ∧
        id (patient c') = id (patient c) ∧
        priority (patient c') = priority (patient c) ∧
        registration_time (patient c') = registration_time (patient c) ∧
        diagnosis (patient c') = diagnosis (patient c) ∧
        PatientStatus_value (status (patient c))
          ≤ PatientStatus_value (status (patient c'))
          ≤ PatientStatus_value (status (patient c)) + 1.
Proof.
  intros Hr Hstep Hj.
  pose proof (shape_ok_reachable n nd nb s Hr) as Hshape.
  pose proof (statuses_ok_reachable n nd nb s Hr) as Hs.
  cut (∃ c', allocation_tasks s' !! j = Some c' ∧ advances c c').
  { intros (c' & Hc' & (Hid & Hname & Hpr & Hsy & Hrt & Hdg) & Hv).
    exists c'. split_and!; try done; lia. }
  destruct a as [d p| |i o h t|o t]; simpl in Hstep.
  - simplify_eq. exists c. split; [done|apply advances_refl].
  - exists c. split; [|apply advances_refl].
    unfold orchestrator_step in Hstep.
    destruct (orchestrator s); repeat case_match; simplify_eq; try done.
    simpl. by apply lookup_app_l_Some.
  - unfold alloc_step in Hstep.
    destruct (allocation_tasks s !! i) as [ci|] eqn:Hc; simpl in Hstep;
      [|done].
    pose proof (Hs i ci Hc) as Hok. unfold status_ok in Hok.
    destruct (pc ci) eqn:Hpc, o; try discriminate Hstep.
    all: repeat match goal with
      | Hx : (if 0 <? ?v then _ else _) = Some _ |- _ =>
          destruct (0 <? v); [|discriminate Hx]
      end.
    all: injection Hstep as <-.
    all: eapply (advances_update s _ i ci _ j c Hc);
      [|first [reflexivity|apply rollback_tasks]|done].
    all: unfold advances, same_patient; simpl; rewrite ?Hok; simpl;
      split; [done|lia].
  - unfold discharge_step in Hstep.
    destruct Hshape as (_ & _ & _ & _ & Hd).
    destruct (discharge_task s) as [| |i| |] eqn:Hdt; [| | |done..].
    + exists c. split; [|apply advances_refl].
      destruct (cancel_requested s), o; by simplify_eq.
    + exists c. split; [|apply advances_refl].
      destruct (cancel_requested s); simplify_eq; [done|].
      destruct o; simplify_eq; [|done].
      destruct (items (discharge_queue (resources s))); by simplify_eq.
    + destruct (Hd i eq_refl) as (_ & ci & Hc & Hpc & Hst).
      destruct (cancel_requested s); simplify_eq.
      { exists c. split; [done|apply advances_refl]. }
      destruct o; simplify_eq;
        [|exists c; split; [done|apply advances_refl]].
      rewrite Hc in Hstep. simpl in Hstep. simplify_eq.
      eapply (advances_update s _ i ci _ j c Hc);
        [|apply (discharge_patient_tasks i ci t s)|done].
      unfold advances, same_patient; simpl; rewrite Hst; simpl.
      split; [done|lia].
Qed.


(** ** Patients in treatment, and the beds against the doctors *)

Lemma number_of_nonneg f (ts : list AllocTask) : 0 ≤ number_of f ts.
Proof.
  induction ts as [|c ts IH]; simpl; [lia|]. destruct (f c); simpl; lia.
Qed.

Lemma number_of_le f g (ts : list AllocTask) :
  (∀ c, c ∈ ts → f c = true → g c = true) →
  number_of f ts ≤ number_of g ts.
Proof.
  induction ts as [|c ts IH]; intros Hfg; simpl; [lia|].
  assert (number_of f ts ≤ number_of g ts) as Hle.
  { apply IH. intros c' Hc'. apply Hfg. by right. }
  destruct (f c) eqn:Hf; simpl.
  - rewrite (Hfg c) by (done || by left). simpl. lia.
  - destruct (g c); simpl; lia.
Qed.

Lemma number_of_lookup f (ts : list AllocTask) i c :
  ts !! i = Some c → f c = true → 1 ≤ number_of f ts.
Proof.
  revert i. induction ts as [|c0 ts IH]; intros [|i] Hi Hf; simplify_eq/=.
  - rewrite Hf. pose proof (number_of_nonneg f ts). simpl. lia.
  - pose proof (IH i Hi Hf). destruct (f c0); simpl; lia.
Qed.

Lemma held_number_of r (ts : list AllocTask) :
  held r ts = number_of (holds r) ts.
Proof. induction ts as [|c ts IH]; simpl; congruence. Qed.



(** X2: at every moment of a run the number of patients in treatment is
    at most the number of doctors and at most the number of beds; a task
    that has not failed is in treatment exactly when the status of its
    patient is [IN_TREATMENT]. *)
Theorem treatment_within_capacity n nd nb (s : Simulation) :
  reachable n nd nb s →
  number_of in_treatment (allocation_tasks s) ≤ Z.min nd nb ∧
  ∀ i c, allocation_tasks s !! i = Some c → pc c ≠ A_failed →
         (in_treatment c = true ↔ status (patient c) = IN_TREATMENT).
Proof.
  intros Hr.
  pose proof (shape_ok_reachable n nd nb s Hr) as (_ & Hcell & _).
  pose proof (statuses_ok_reachable n nd nb s Hr) as Hst.
  split.
  - assert (∀ r, number_of in_treatment (allocation_tasks s)
                 ≤ capacity nd nb r) as Hle.
    { intros r. destruct (pools_ok_reachable n nd nb s Hr r) as [Hge Hsum].
      rewrite held_number_of in Hsum.
      cut (number_of in_treatment (allocation_tasks s)
           ≤ number_of (holds r) (allocation_tasks s)); [lia|].
      apply number_of_le. intros c [i Hi]%list_elem_of_lookup Hin.
      pose proof (Hcell i c Hi) as Hok. unfold cell_ok in Hok.
      unfold in_treatment in Hin. unfold holds, acquired, rolled_back,
        discharged.
      destruct (pc c); try done; case_bool_decide; try done;
        exfalso; intuition congruence. }
    pose proof (Hle Doctor). pose proof (Hle Bed). simpl in *. lia.
  - intros i c Hi Hnf. pose proof (Hst i c Hi) as Hok.
    unfold status_ok in Hok. unfold in_treatment.
    destruct (pc c); split; intros; try done;
      try (rewrite Hok in *; done); intuition congruence.
Qed.



(** ** Order of service of the discharge queue *)

Lemma enqueued_cons e (tr : list Event) :
  enqueued (e :: tr) = enqueued tr ++ option_list (enqueue_index e).
Proof.
  unfold enqueued. rewrite reverse_cons, omap_app. simpl.
  by destruct (enqueue_index e).
Qed.

Lemma dequeued_cons e (tr : list Event) :
  dequeued (e :: tr) = dequeued tr ++ option_list (dequeue_index e).
Proof.
  unfold dequeued. rewrite reverse_cons, omap_app. simpl.
  by destruct (dequeue_index e).
Qed.

Lemma rollback_queue_items i c (s : Simulation) :
  queue_items (rollback i c s) = queue_items s.
Proof.
  unfold queue_items.
  by destruct (rollback_frame i c s) as (_ & _ & _ & _ & _ & _ & _ & -> & _).
Qed.

Lemma discharge_patient_queue_items i c t (s : Simulation) :
  queue_items (discharge_patient i c t s) = queue_items s.
Proof.
  by destruct (discharge_patient_frame i c t s)
    as (_ & _ & _ & _ & _ & _ & _ & ->).
Qed.

Ltac queue_simpl :=
  rewrite ?rollback_trace, ?discharge_patient_trace,
    ?rollback_queue_items, ?discharge_patient_queue_items; simpl;
  repeat match goal with
    | |- context [truthy ?x] => destruct (truthy x)
    | |- context [if recorded ?r ?p then _ else _] =>
        destruct (recorded r p)
    end; simpl;
  rewrite ?enqueued_cons, ?dequeued_cons; simpl; rewrite ?app_nil_r.

Lemma fifo_step a (s s' : Simulation) :
  step a s = Some s' →
  enqueued (trace s) = dequeued (trace s) ++ queue_items s →
  enqueued (trace s') = dequeued (trace s') ++ queue_items s'.
Proof.
  intros Hstep IH.
  destruct a as [d p| |i o h t|o t]; simpl in Hstep.
  - by simplify_eq.
  - unfold orchestrator_step in Hstep.
    destruct (orchestrator s); repeat case_match; simplify_eq; try done;
      unfold queue_items; simpl; by rewrite ?enqueued_cons, ?dequeued_cons,
        ?app_nil_r.
  - unfold alloc_step in Hstep.
    destruct (allocation_tasks s !! i) as [c|] eqn:Hc; simpl in Hstep;
      [|done].
    destruct (pc c) eqn:Hpc, o; try discriminate Hstep.
    all: repeat match goal with
      | Hx : (if 0 <? ?v then _ else _) = Some _ |- _ =>
          destruct (0 <? v); [|discriminate Hx]
      end.
    all: injection Hstep as <-.
    all: queue_simpl; try done.
    unfold queue_items in *. simpl. by rewrite IH, app_assoc.
  - unfold discharge_step in Hstep.
    destruct (discharge_task s) as [| |i| |] eqn:Hdt; [| | |done..].
    + destruct (cancel_requested s), o; by simplify_eq.
    + destruct (cancel_requested s); simplify_eq; [done|].
      destruct o; simplify_eq; [|done].
      destruct (items (discharge_queue (resources s))) as [|i rest] eqn:Hit;
        simplify_eq.
      unfold queue_items in *. simpl.
      rewrite enqueued_cons, dequeued_cons. simpl.
      rewrite app_nil_r, IH, Hit, <- app_assoc. done.
    + destruct (cancel_requested s); simplify_eq.
      { unfold queue_items. simpl.
        by rewrite enqueued_cons, dequeued_cons, !app_nil_r. }
      destruct o; simplify_eq.
      * destruct (allocation_tasks s !! i) as [c|]; simplify_eq/=.
        change (enqueued (trace (discharge_patient i c t s))
                = dequeued (trace (discharge_patient i c t s))
                  ++ queue_items (discharge_patient i c t s)).
        queue_simpl; done.
      * unfold queue_items. simpl.
        by rewrite enqueued_cons, dequeued_cons, !app_nil_r.
Qed.

(** X4: the discharge queue serves in arrival order.  At every moment
    of a run, the patients put on the queue so far, in the order of the
    puts, are the patients taken from it so far, in the order they were
    taken, followed by the patients still on it: no patient overtakes
    another, whatever its priority. *)
Theorem discharge_queue_fifo n nd nb (s : Simulation) :
  reachable n nd nb s →
  enqueued (trace s) = dequeued (trace s) ++ queue_items s.
Proof.
  revert s. apply reachable_ind.
  - intros res r order Hres. unfold queue_items. simpl.
    destruct (init_resources nd nb res r order Hres)
      as (_ & _ & _ & _ & -> & _).
    done.
  - intros s a s' _ IH Hstep. by eapply fifo_step.
Qed.


(** ** Patients dropped by the discharge task *)

(** What a step of an allocation task changes. *)
Lemma alloc_step_effect i o h t (s s' : Simulation) :
  alloc_step i o h t s = Some s' →
  ∃ c c' evs,
    allocation_tasks s !! i = Some c ∧ finished c = false ∧
    allocation_tasks s' = <[i:=c']> (allocation_tasks s) ∧
    trace s' = evs ++ trace s ∧
    (∀ j, EvLost j ∉ evs) ∧
    discharge_task s' = discharge_task s ∧
    orchestrator s' = orchestrator s ∧
    cancel_requested s' = cancel_requested s ∧
    diagnosis_result_queue s' = diagnosis_result_queue s ∧
    (queue_items s' = queue_items s ∧ pc c' ≠ A_done ∨
     pc c = A_put ∧ o = Normal ∧ pc c' = A_done ∧
     status (patient c') = READY_FOR_DISCHARGE ∧
     queue_items s' = queue_items s ++ [i]).
Proof.
  unfold alloc_step. intros Hstep.
  destruct (allocation_tasks s !! i) as [c|] eqn:Hc; simpl in Hstep; [|done].
  exists c. unfold finished.
  destruct (pc c) eqn:Hpc, o; try discriminate Hstep.
  all: repeat match goal with
    | Hx : (if 0 <? ?v then _ else _) = Some _ |- _ =>
        destruct (0 <? v); [|discriminate Hx]
    end.
  all: injection Hstep as <-.
  all: eexists; eexists.
  all: split; [done|]; split; [done|].
  all: split; [first [reflexivity|apply rollback_tasks]|].
  all: split;
    [first [etrans; [apply rollback_trace|apply app_assoc]
           |exact (eq_refl : _ = [_] ++ _)
           |exact (eq_refl : _ = [] ++ _)]|].
  all: split;
    [intros j; repeat case_match; rewrite ?elem_of_app, ?elem_of_cons,
       ?elem_of_nil; intuition congruence|].
  all: destruct (rollback_frame i c s)
         as (_ & Erq & _ & _ & Edt & Ecr & Eor & _).
  all: try destruct (rollback_frame i
         (set_patient (set_status READY_FOR_DISCHARGE (patient c)) c) s)
         as (_ & Erq' & _ & _ & Edt' & Ecr' & Eor' & _).
  all: split_and!; try done.
  all: rewrite ?rollback_queue_items.
  all: first [left; split; [done|simpl; rewrite ?Hpc; done]
             |right; split_and!; done].
Qed.


Lemma awaiting_discharge_snoc (s s' : Simulation) c j :
  allocation_tasks s' = allocation_tasks s ++ [c] →
  awaiting_discharge s j → awaiting_discharge s' j.
Proof.
  intros Ets (c0 & Hc & Hpc & Hst). exists c0. rewrite Ets.
  split_and!; [by apply lookup_app_l_Some|done..].
Qed.

Lemma lost_ok_same (s s' : Simulation) evs :
  lost_ok s →
  trace s' = evs ++ trace s → (∀ j, EvLost j ∉ evs) →
  allocation_tasks s' = allocation_tasks s →
  queue_items s' = queue_items s →
  discharge_task s' = discharge_task s ∨ sleeping (discharge_task s') = false →
  lost_ok s'.
Proof.
  intros Hl Etr Hevs Ets Eq Edt i. rewrite Etr, elem_of_app.
  intros [Hi|Hi]; [by apply Hevs in Hi|].
  destruct (Hl i Hi) as (Haw & Hni & Hdt). rewrite Eq. split_and!; [|done|].
  - by apply (awaiting_discharge_same s).
  - destruct Edt as [->|Edt]; [done|]. intros E. by rewrite E in Edt.
Qed.

Lemma lost_ok_step a (s s' : Simulation) :
  shape_ok s → lost_ok s → step a s = Some s' → lost_ok s'.
Proof.
  intros Hshape Hl Hstep.
  destruct a as [d p| |i o h t|o t]; simpl in Hstep.
  - simplify_eq. by apply (lost_ok_same s _ []); auto using not_elem_of_nil.
  - unfold orchestrator_step in Hstep.
    destruct (orchestrator s); [|repeat case_match; simplify_eq..].
    2-6: try (apply (lost_ok_same s _ []); auto using not_elem_of_nil; done).
    + destruct (diagnosis_collected_count s <? num_patients s);
        [|simplify_eq; apply (lost_ok_same s _ []);
          auto using not_elem_of_nil; done].
      destruct (diagnosis_result_queue s) as [|p rest]; simplify_eq.
      * apply (lost_ok_same s _ [EvPollSleep]); auto.
        intros j. rewrite list_elem_of_singleton. done.
      * intros i. simpl. rewrite elem_of_cons. intros [Hi|Hi]; [done|].
        destruct (Hl i Hi) as (Haw & Hni & Hdt). split_and!; [|done..].
        by eapply (awaiting_discharge_snoc s).
    + apply (lost_ok_same s _ [EvCancel]); auto.
      intros j. rewrite list_elem_of_singleton. done.
  - destruct (alloc_step_effect i o h t s s' Hstep)
      as (c & c' & evs & Hc & Hfin & Ets & Etr & Hevs & Edt & _ & _ & _ & Eq).
    intros j. rewrite Etr, elem_of_app.
    intros [Hj|Hj]; [by apply Hevs in Hj|].
    destruct (Hl j Hj) as (Haw & Hni & Hdt).
    assert (j ≠ i) as Hne.
    { intros ->. destruct Haw as (c0 & Hc0 & Hpc0 & _).
      rewrite Hc in Hc0. simplify_eq. unfold finished in Hfin.
      by rewrite Hpc0 in Hfin. }
    split_and!.
    + by apply (awaiting_discharge_other s s' i j c').
    + destruct Eq as [[-> _]|(_ & _ & _ & _ & ->)]; [done|].
      rewrite elem_of_app, list_elem_of_singleton. tauto.
    + by rewrite Edt.
  - unfold discharge_step in Hstep.
    pose proof Hshape as (_ & _ & Hnd & Hq & Hd).
    destruct (discharge_task s) as [| |i| |] eqn:Hdt; [| | |done..].
    + destruct (cancel_requested s), o; simplify_eq;
        by apply (lost_ok_same s _ []); auto using not_elem_of_nil.
    + destruct (cancel_requested s); simplify_eq.
      { by apply (lost_ok_same s _ []); auto using not_elem_of_nil. }
      destruct o; simplify_eq; [|done].
      destruct (items (discharge_queue (resources s))) as [|i rest] eqn:Hit;
        simplify_eq.
      intros j. simpl. rewrite elem_of_cons. intros [Hj|Hj]; [done|].
      destruct (Hl j Hj) as (Haw & Hni & _).
      unfold queue_items in *. simpl. rewrite Hit in Hni.
      rewrite elem_of_cons in Hni. split_and!.
      * by apply (awaiting_discharge_same s).
      * tauto.
      * intros [= ->]. tauto.
    + destruct (Hd i eq_refl) as (Hni & Haw).
      destruct (cancel_requested s); simplify_eq.
      { intros j. simpl. rewrite elem_of_cons.
        intros [[= ->]|Hj]; [by split_and!|].
        destruct (Hl j Hj) as (? & ? & ?). by split_and!. }
      destruct o; simplify_eq.
      * destruct (allocation_tasks s !! i) as [c|] eqn:Hc; simplify_eq/=.
        intros j.
        change (EvLost j ∈ trace (discharge_patient i c t s) →
                awaiting_discharge (discharge_patient i c t s) j ∧
                (j ∉ queue_items (discharge_patient i c t s)) ∧
                D_get ≠ D_sleep j).
        rewrite discharge_patient_trace, discharge_patient_queue_items.
        rewrite elem_of_cons, !elem_of_app. intros Hj.
        assert (EvLost j ∈ trace s) as Hj'.
        { destruct Hj as [Hj|[Hj|[Hj|Hj]]]; [done| | |done].
          - destruct (recorded Bed (patient c));
              [apply list_elem_of_singleton in Hj; done
              |by apply elem_of_nil in Hj].
          - destruct (recorded Doctor (patient c));
              [apply list_elem_of_singleton in Hj; done
              |by apply elem_of_nil in Hj]. }
        destruct (Hl j Hj') as (Haw' & Hni' & Hne).
        split_and!; [|done..].
        apply (awaiting_discharge_other s _ i j
                 (set_patient (set_status DISCHARGED (patient c)) c));
          [apply discharge_patient_tasks|congruence|done].
      * intros j. simpl. rewrite elem_of_cons.
        intros [[= ->]|Hj]; [by split_and!|].
        destruct (Hl j Hj) as (? & ? & ?). by split_and!.
Qed.

Lemma lost_ok_reachable n nd nb (s : Simulation) :
  reachable n nd nb s → lost_ok s.
Proof.
  intros Hr. pose proof Hr as Hr'. revert s Hr' Hr.
  apply (reachable_ind n nd nb (λ s, reachable n nd nb s → lost_ok s)).
  - intros res r order Hres _ j Hj. simpl in Hj. by apply elem_of_nil in Hj.
  - intros s0 a s1 Hr0 IH Hstep _.
    eapply lost_ok_step; [by eapply shape_ok_reachable|by apply IH|done].
Qed.

(** X5: when the body of [process_discharge] raises for a patient it has
    taken from the queue (the handler at line 204), the releases and
    [task_done] of lines 183-200 are skipped for good: in every later
    state of the run the patient is still [READY_FOR_DISCHARGE] and holds
    its doctor and its bed, the queue still counts it as unfinished, and
    [hospital_simulation] has not passed [discharge_queue.join()]. *)
Theorem lost_patient_keeps_units n nd nb (s : Simulation) i :
  reachable n nd nb s → EvLost i ∈ trace s →
  awaiting_discharge s i ∧
  (∀ r, at_task (holds r) s i = true) ∧
  0 < unfinished_tasks (discharge_queue (resources s)) ∧
  joined (orchestrator s) = false ∧
  (∀ r, semaphore r (resources s) < capacity nd nb r).
Proof.
  intros Hr Hi.
  destruct (lost_ok_reachable n nd nb s Hr i Hi) as (Haw & _ & _).
  destruct (totals_ok_reachable n nd nb s Hr) as (_ & Hun & _ & _ & Hl0).
  destruct (orchestrator_ok_reachable n nd nb s Hr)
    as (_ & _ & _ & _ & _ & _ & Hj & _).
  apply elem_of_occ_pos in Hi.
  pose proof (occ_le_count (EvLost i) is_lost (trace s) eq_refl) as Hle.
  assert (0 < unfinished_tasks (discharge_queue (resources s))) as Hpos.
  { destruct (sleeping (discharge_task s)); simpl in Hun; lia. }
  assert (∀ r, at_task (holds r) s i = true) as Hholds.
  { intros r. destruct Haw as (c & Hc & Hpc & Hst). unfold at_task.
    rewrite Hc. unfold holds, acquired, rolled_back, discharged.
    rewrite Hpc, Hst. simpl. repeat case_bool_decide; done. }
  split_and!; [done..| |].
  - destruct (joined (orchestrator s)); [|done]. specialize (Hj eq_refl). lia.
  - intros r. destruct (pools_ok_reachable n nd nb s Hr r) as [_ Hsum].
    specialize (Hholds r). unfold at_task in Hholds.
    destruct (allocation_tasks s !! i) as [c|] eqn:Hc; [|done].
    pose proof (number_of_lookup (holds r) _ i c Hc Hholds).
    rewrite held_number_of in Hsum. lia.
Qed.


(** ** Results delivered against results collected *)

Lemma alloc_step_frame i o h t (s s' : Simulation) :
  alloc_step i o h t s = Some s' →
  num_patients s' = num_patients s ∧
  diagnosis_result_queue s' = diagnosis_result_queue s ∧
  diagnosis_collected_count s' = diagnosis_collected_count s ∧
  orchestrator s' = orchestrator s.
Proof.
  unfold alloc_step. intros Hstep.
  destruct (allocation_tasks s !! i) as [c|] eqn:Hc; simpl in Hstep; [|done].
  destruct (pc c) eqn:Hpc, o; try discriminate Hstep.
  all: repeat match goal with
    | Hx : (if 0 <? ?v then _ else _) = Some _ |- _ =>
        destruct (0 <? v); [|discriminate Hx]
    end.
  all: injection Hstep as <-.
  all: try done.
  all: match goal with
    | |- context [rollback ?i ?c ?s] =>
        destruct (rollback_frame i c s) as (-> & -> & _ & -> & _ & _ & -> & _)
    end; done.
Qed.

Lemma discharge_step_frame o t (s s' : Simulation) :
  discharge_step o t s = Some s' →
  num_patients s' = num_patients s ∧
  diagnosis_result_queue s' = diagnosis_result_queue s ∧
  diagnosis_collected_count s' = diagnosis_collected_count s ∧
  orchestrator s' = orchestrator s.
Proof.
  unfold discharge_step. intros Hstep.
  destruct (discharge_task s) as [| |i| |] eqn:Hdt; [| | |done..].
  - destruct (cancel_requested s), o; by simplify_eq.
  - destruct (cancel_requested s); simplify_eq; [done|].
    destruct o; simplify_eq; [|done].
    destruct (items (discharge_queue (resources s))); by simplify_eq.
  - destruct (cancel_requested s); simplify_eq; [done|].
    destruct o; simplify_eq; [|done].
    destruct (allocation_tasks s !! i) as [c|]; simplify_eq/=.
    by destruct (discharge_patient_frame i c t s)
      as (-> & -> & _ & -> & _ & _ & -> & _).
Qed.

Lemma results_delivered_cons a acts :
  results_delivered (a :: acts)
  = b2z (is_worker_result a) + results_delivered acts.
Proof.
  unfold results_delivered. rewrite filter_cons.
  case_decide as Hw.
  - rewrite Hw. simpl length. simpl b2z. lia.
  - apply not_true_is_false in Hw. rewrite Hw. simpl b2z. lia.
Qed.

Lemma delivered_step a (s s' : Simulation) :
  step a s = Some s' →
  num_patients s' = num_patients s ∧
  diagnosis_collected_count s'
    + Z.of_nat (length (diagnosis_result_queue s'))
  = diagnosis_collected_count s
    + Z.of_nat (length (diagnosis_result_queue s))
    + b2z (is_worker_result a) ∧
  ((orchestrator s ≠ O_collect →
    num_patients s ≤ diagnosis_collected_count s) →
   orchestrator s' ≠ O_collect →
   num_patients s' ≤ diagnosis_collected_count s').
Proof.
  intros Hstep. destruct a as [d p| |i o h t|o t]; simpl in Hstep.
  - simplify_eq. unfold result_arrives.
    cbn [num_patients diagnosis_result_queue diagnosis_collected_count
         orchestrator is_worker_result b2z].
    rewrite length_app, Nat2Z.inj_add. cbn [length].
    split_and!; [done|lia|done].
  - unfold orchestrator_step in Hstep.
    destruct (orchestrator s) eqn:Ho.
    + destruct (diagnosis_collected_count s <? num_patients s) eqn:Hlt.
      * destruct (diagnosis_result_queue s) as [|p rest] eqn:Hq; simplify_eq;
          unfold collect, log;
          cbn [num_patients diagnosis_result_queue diagnosis_collected_count
               orchestrator b2z is_worker_result];
          rewrite ?Hq, ?length_cons, ?Nat2Z.inj_succ, Ho;
          split_and!; first [done|lia|intros; congruence].
      * apply Z.ltb_ge in Hlt. simplify_eq. simpl.
        split_and!; first [done|lia|intros; congruence].
    + case_match; simplify_eq. simpl. split_and!; [done|lia|].
      intros H1 _. by apply H1.
    + case_match; simplify_eq. simpl. split_and!; [done|lia|].
      intros H1 _. by apply H1.
    + case_match; simplify_eq; simpl; (split_and!; [done|lia|]);
        intros H1 _; by apply H1.
    + case_match; simplify_eq; simpl; (split_and!; [done|lia|]);
        intros H1 _; by apply H1.
    + done.
  - destruct (alloc_step_frame i o h t s s' Hstep) as (-> & -> & -> & ->).
    simpl. split_and!; [done|lia|done].
  - destruct (discharge_step_frame o t s s' Hstep) as (-> & -> & -> & ->).
    simpl. split_and!; [done|lia|done].
Qed.

Lemma delivered_run acts (s s' : Simulation) :
  run acts s = Some s' →
  num_patients s' = num_patients s ∧
  diagnosis_collected_count s'
    + Z.of_nat (length (diagnosis_result_queue s'))
  = diagnosis_collected_count s
    + Z.of_nat (length (diagnosis_result_queue s))
    + results_delivered acts ∧
  ((orchestrator s ≠ O_collect →
    num_patients s ≤ diagnosis_collected_count s) →
   orchestrator s' ≠ O_collect →
   num_patients s' ≤ diagnosis_collected_count s').
Proof.
  revert s. induction acts as [|a acts IH]; intros s Hrun; simpl in Hrun.
  - simplify_eq. unfold results_delivered. simpl. split_and!; [done|lia|done].
  - destruct (step a s) as [s1|] eqn:Hs1; simpl in Hrun; [|done].
    destruct (delivered_step a s s1 Hs1) as (En & Ec & Ho).
    destruct (IH s1 Hrun) as (En' & Ec' & Ho').
    rewrite results_delivered_cons. split_and!; [congruence|lia|auto].
Qed.

(** X6: in a run of the cooperative part, the results collected so far
    plus the results waiting on the result queue are the results the
    workers have delivered; and the collection loop (lines 249-268) is
    left only after the workers have delivered [num_patients] results.
    When the workers deliver fewer (no worker was started, or a worker
    dropped a patient at line 112), [hospital_simulation] stays in the
    loop. *)
Theorem collection_needs_all_results n (res : HospitalResources) acts
    (s : Simulation) :
  run acts (initial n res) = Some s →
  diagnosis_collected_count s
    + Z.of_nat (length (diagnosis_result_queue s))
  = results_delivered acts ∧
  (results_delivered acts < n → orchestrator s = O_collect).
Proof.
  intros Hrun. destruct (delivered_run acts _ s Hrun) as (En & Ec & Ho).
  simpl in *. split; [lia|]. intros Hlt.
  destruct (decide (orchestrator s = O_collect)) as [|Hne]; [done|].
  assert (n ≤ diagnosis_collected_count s) as Hle.
  { rewrite <- En. apply Ho; done. }
  lia.
Qed.


(** ** A pool without units *)

Lemma count_zero f (tr : list Event) :
  (∀ e, e ∈ tr → f e = false) → count f tr = 0.
Proof.
  induction tr as [|e tr IH]; intros Hf; simpl; [done|].
  rewrite (Hf e) by by left. rewrite IH; [done|].
  intros e' He'. apply Hf. by right.
Qed.

Lemma no_acquire_step r a (s s' : Simulation) :
  semaphore r (resources s) = 0 → step a s = Some s' →
  count (is_acquire r) (trace s') = count (is_acquire r) (trace s).
Proof.
  intros Hsem Hstep.
  destruct a as [d p| |i o h t|o t]; simpl in Hstep.
  - by simplify_eq.
  - unfold orchestrator_step in Hstep.
    destruct (orchestrator s); repeat case_match; by simplify_eq.
  - unfold alloc_step in Hstep.
    destruct (allocation_tasks s !! i) as [c|] eqn:Hc; simpl in Hstep;
      [|done].
    destruct (pc c) eqn:Hpc, o; try discriminate Hstep.
    all: repeat match goal with
      | Hx : (if 0 <? ?v then _ else _) = Some _ |- _ =>
          let E := fresh "Hpos" in
          destruct (0 <? v) eqn:E; [apply Z.ltb_lt in E|discriminate Hx]
      end.
    all: injection Hstep as <-.
    all: count_simpl; try done.
    all: try destruct r; simpl in *; try done; lia.
  - unfold discharge_step in Hstep.
    destruct (discharge_task s) as [| |i| |] eqn:Hdt; [| | |done..].
    + destruct (cancel_requested s), o; by simplify_eq.
    + destruct (cancel_requested s); simplify_eq; [done|].
      destruct o; simplify_eq; [|done].
      destruct (items (discharge_queue (resources s))); by simplify_eq.
    + destruct (cancel_requested s); simplify_eq; [done|].
      destruct o; simplify_eq; [|done].
      destruct (allocation_tasks s !! i) as [c|]; simplify_eq/=.
      change (count (is_acquire r) (trace (discharge_patient i c t s))
              = count (is_acquire r) (trace s)).
      count_simpl; done.
Qed.

(** X7: when one of the pools is created without units
    ([HospitalResources(0, nb)] or [HospitalResources(nd, 0)], which
    the constructor accepts), no task ever gets a unit of it: the acquire
    of that pool never returns, no patient goes beyond
    [WAITING_RESOURCE], none is discharged, and [asyncio.gather] at line
    274 returns only if every allocation task failed. *)
Theorem empty_pool_blocks n nd nb (s : Simulation) r :
  reachable n nd nb s → capacity nd nb r = 0 →
  semaphore r (resources s) = 0 ∧
  count (is_acquire r) (trace s) = 0 ∧
  processed_patients (resources s) = 0 ∧
  (∀ i c, allocation_tasks s !! i = Some c →
          (status (patient c) = DIAGNOSED ∨
           status (patient c) = WAITING_RESOURCE) ∧
          pc c ≠ A_done ∧
          (gathered (orchestrator s) = true →
           pc c = A_failed ∨ pc c = A_raised) ∧
          ∀ h t, pc c = match r with
                        | Doctor => A_acq_doctor
                        | Bed => A_acq_bed
                        end →
                 alloc_step i Normal h t s = None).
Proof.
  intros Hr Hcap.
  assert (∀ s, reachable n nd nb s → semaphore r (resources s) = 0) as Hsem0.
  { intros s0 Hr0. destruct (pools_ok_reachable n nd nb s0 Hr0 r) as [? ?].
    pose proof (held_nonneg r (allocation_tasks s0)). lia. }
  assert (count (is_acquire r) (trace s) = 0) as Hacq.
  { pose proof Hr as Hr'. revert s Hr' Hr.
    apply (reachable_ind n nd nb
             (λ s, reachable n nd nb s → count (is_acquire r) (trace s) = 0)).
    - done.
    - intros s0 a s1 Hr0 IH Hstep _.
      rewrite (no_acquire_step r a s0 s1); auto. }
  pose proof (statuses_ok_reachable n nd nb s Hr) as Hst.
  pose proof (events_ok_reachable n nd nb s Hr) as Hev.
  pose proof (shape_ok_reachable n nd nb s Hr) as (_ & Hcell & _).
  assert (∀ i c, allocation_tasks s !! i = Some c → acquired r c = false)
    as Hna.
  { intros i c Hc. destruct (Hev i r) as (Ha & _).
    pose proof (occ_le_count (EvAcquire r i) (is_acquire r) (trace s)) as Hle.
    unfold at_task in Ha. rewrite Hc in Ha.
    destruct (acquired r c); [|done].
    assert (is_acquire r (EvAcquire r i) = true) as Hf
      by (unfold is_acquire; by case_bool_decide).
    specialize (Hle Hf). simpl in Ha. lia. }
  assert (∀ i c, allocation_tasks s !! i = Some c →
                 (status (patient c) = DIAGNOSED ∨
                  status (patient c) = WAITING_RESOURCE) ∧ pc c ≠ A_done)
    as Hearly.
  { intros i c Hc. pose proof (Hna i c Hc) as Hn.
    pose proof (Hst i c Hc) as Hok. pose proof (Hcell i c Hc) as Hcok.
    unfold status_ok in Hok. unfold cell_ok in Hcok.
    unfold acquired, handle in Hn.
    destruct (pc c), r; simpl in Hn; try done; try (split; [tauto|done]).
    all: split; [|done].
    all: destruct Hok as [Hok|(_ & Hd & Hb)]; [tauto|congruence]. }
  split_and!; [by apply Hsem0|done| |].
  - destruct (totals_ok_reachable n nd nb s Hr) as (_ & _ & _ & -> & _).
    apply count_zero. intros e He. destruct e; try done.
    exfalso. apply elem_of_occ_pos in He.
    destruct (queue_events_ok_reachable n nd nb s Hr i) as (_ & Hd).
    unfold at_task in Hd.
    destruct (allocation_tasks s !! i) as [c|] eqn:Hc; [|simpl in Hd; lia].
    destruct (Hearly i c Hc) as ([Hs|Hs] & _); unfold discharged in Hd;
      rewrite Hs in Hd; simpl in Hd; lia.
  - intros i c Hc. destruct (Hearly i c Hc) as (Hs & Hnd).
    split_and!; [done..| |].
    + intros Hg.
      destruct (orchestrator_ok_reachable n nd nb s Hr)
        as (_ & _ & _ & _ & _ & Hfin & _).
      pose proof (forallb_lookup finished _ i c (Hfin Hg) Hc) as Hf.
      unfold finished in Hf. destruct (pc c); try done; auto.
    + intros h t Hpc. unfold alloc_step. rewrite Hc. simpl. rewrite Hpc.
      pose proof (Hsem0 s Hr) as Hz. destruct r; simpl in Hz; by rewrite Hz.
Qed.


(** ** The counters of a run *)

Lemma number_of_app f (ts1 ts2 : list AllocTask) :
  number_of f (ts1 ++ ts2) = number_of f ts1 + number_of f ts2.
Proof. induction ts1 as [|c ts1 IH]; simpl; lia. Qed.

Lemma number_of_insert f (ts : list AllocTask) i c c' :
  ts !! i = Some c →
  number_of f (<[i:=c']> ts) = number_of f ts - b2z (f c) + b2z (f c').
Proof.
  revert i. induction ts as [|c0 ts IH]; intros [|i] Hi; simplify_eq/=.
  - lia.
  - rewrite (IH i Hi). lia.
Qed.





Lemma processed_step a (s s' : Simulation) :
  shape_ok s → step a s = Some s' →
  processed_patients (resources s)
  = number_of discharged (allocation_tasks s) →
  processed_patients (resources s')
  = number_of discharged (allocation_tasks s').
Proof.
  intros Hshape Hstep IH.
  pose proof Hshape as (Hrq & Hcell & _ & _ & Hd).
  destruct a as [d p| |i o h t|o t]; simpl in Hstep.
  - by simplify_eq.
  - unfold orchestrator_step in Hstep.
    destruct (orchestrator s); [|repeat case_match; by simplify_eq..].
    destruct (diagnosis_collected_count s <? num_patients s);
      [|by simplify_eq].
    destruct (diagnosis_result_queue s) as [|p rest] eqn:Hq;
      simplify_eq; [done|].
    simpl. rewrite number_of_app. simpl. unfold discharged at 2. simpl.
    rewrite (Hrq p) by by left. simpl. lia.
  - pose proof (shape_ok_alloc_step i o h t s s' Hshape Hstep)
      as (_ & Hcell' & _).
    destruct (alloc_step_effect i o h t s s' Hstep)
      as (c & c' & evs & Hc & Hfin & Ets & _).
    assert (processed_patients (resources s')
            = processed_patients (resources s)) as ->.
    { unfold alloc_step in Hstep. rewrite Hc in Hstep. simpl in Hstep.
      destruct (pc c) eqn:Hpc, o; try discriminate Hstep.
      all: repeat match goal with
        | Hx : (if 0 <? ?v then _ else _) = Some _ |- _ =>
            destruct (0 <? v); [|discriminate Hx]
        end.
      all: injection Hstep as <-.
      all: try done.
      all: match goal with
        | |- context [rollback ?i ?c ?s] =>
            by destruct (rollback_frame i c s)
              as (_ & _ & _ & _ & _ & _ & _ & _ & ->)
        end. }
    rewrite Ets, (number_of_insert _ _ i c c' Hc), IH.
    assert (discharged c = false) as ->.
    { pose proof (Hcell i c Hc) as Hok. unfold cell_ok in Hok.
      unfold finished in Hfin. unfold discharged.
      case_bool_decide as Hst; [|done].
      destruct (pc c); try done; intuition congruence. }
    assert (discharged c' = false) as ->.
    { assert (allocation_tasks s' !! i = Some c') as Hc'.
      { rewrite Ets. apply list_lookup_insert_eq. by eapply lookup_lt_Some. }
      pose proof (Hcell' i c' Hc') as Hok. unfold cell_ok in Hok.
      unfold discharged. case_bool_decide as Hst; [|done].
      assert (pc c' ≠ A_done ∨ status (patient c') = READY_FOR_DISCHARGE)
        as Hcase.
      { unfold alloc_step in Hstep. rewrite Hc in Hstep. simpl in Hstep.
        destruct (pc c) eqn:Hpc, o; try discriminate Hstep.
        all: repeat match goal with
          | Hx : (if 0 <? ?v then _ else _) = Some _ |- _ =>
              destruct (0 <? v); [|discriminate Hx]
          end.
        all: injection Hstep as <-.
        all: try rewrite rollback_tasks in Hc'.
        all: simpl in Hc'.
        all: rewrite list_lookup_insert_eq in Hc' by by eapply lookup_lt_Some.
        all: injection Hc' as <-; simpl; auto. }
      destruct Hcase as [Hcase|Hcase]; [|congruence].
      destruct (pc c'); try done; intuition congruence. }
    simpl. lia.
  - unfold discharge_step in Hstep.
    destruct (discharge_task s) as [| |i| |] eqn:Hdt; [| | |done..].
    + destruct (cancel_requested s), o; by simplify_eq.
    + destruct (cancel_requested s); simplify_eq; [done|].
      destruct o; simplify_eq; [|done].
      destruct (items (discharge_queue (resources s))); by simplify_eq.
    + destruct (Hd i eq_refl) as (_ & c & Hc & Hpc & Hst).
      destruct (cancel_requested s); simplify_eq; [done|].
      destruct o; simplify_eq; [|done].
      rewrite Hc in Hstep. simpl in Hstep. simplify_eq.
      change (processed_patients (resources (discharge_patient i c t s))
              = number_of discharged
                  (allocation_tasks (discharge_patient i c t s))).
      destruct (discharge_patient_counters i c t s) as (-> & _).
      rewrite discharge_patient_tasks, (number_of_insert _ _ i c _ Hc), IH.
      unfold discharged. simpl. rewrite Hst. simpl. lia.
Qed.



(** ** A run without patients *)

Lemma processed_reachable n nd nb (s : Simulation) :
  reachable n nd nb s →
  processed_patients (resources s)
  = number_of discharged (allocation_tasks s).
Proof.
  intros Hr. pose proof Hr as Hr'. revert s Hr' Hr.
  apply (reachable_ind n nd nb
           (λ s, reachable n nd nb s →
                 processed_patients (resources s)
                 = number_of discharged (allocation_tasks s))).
  - intros res r order Hres _. simpl.
    by destruct (init_resources nd nb res r order Hres)
      as (_ & _ & _ & _ & _ & ->).
  - intros s0 a s1 Hr0 IH Hstep _.
    eapply processed_step; [by eapply shape_ok_reachable|done|by apply IH].
Qed.

Lemma no_patients_no_tasks n nd nb (s : Simulation) :
  n ≤ 0 → reachable n nd nb s →
  allocation_tasks s = [] ∧ queue_items s = [] ∧
  sleeping (discharge_task s) = false.
Proof.
  intros Hn Hr.
  destruct (orchestrator_ok_reachable n nd nb s Hr)
    as (En & Ec & _ & Hle & Heq & _).
  assert (allocation_tasks s = []) as Hts.
  { apply length_zero_iff_nil.
    destruct (decide (orchestrator s = O_collect)) as [Ho|Ho];
      [specialize (Hle Ho)|specialize (Heq Ho)]; lia. }
  pose proof (shape_ok_reachable n nd nb s Hr) as (_ & _ & _ & Hq & Hd).
  split_and!; [done| |].
  - destruct (queue_items s) as [|i q] eqn:E; [done|].
    destruct (Hq i) as (c & Hc & _); [by left|]. by rewrite Hts in Hc.
  - destruct (discharge_task s) as [| |i| |] eqn:Hdt; try done.
    destruct (Hd i eq_refl) as (_ & c & Hc & _). by rewrite Hts in Hc.
Qed.

Lemma no_patients_trace n nd nb (s : Simulation) :
  n ≤ 0 → reachable n nd nb s → ∀ e, e ∈ trace s → e = EvCancel.
Proof.
  intros Hn Hr. pose proof Hr as Hr'. revert s Hr' Hr.
  apply (reachable_ind n nd nb
           (λ s, reachable n nd nb s → ∀ e, e ∈ trace s → e = EvCancel)).
  - intros res r order _ _ e He. by apply elem_of_nil in He.
  - intros s a s' Hr IH Hstep _. specialize (IH Hr).
    destruct (no_patients_no_tasks n nd nb s Hn Hr) as (Hts & Hq & Hsl).
    destruct (orchestrator_ok_reachable n nd nb s Hr)
      as (En & Ec & _).
    destruct a as [d p| |i o h t|o t]; simpl in Hstep.
    + by simplify_eq.
    + unfold orchestrator_step in Hstep.
      destruct (orchestrator s).
      * assert ((diagnosis_collected_count s <? num_patients s) = false)
          as Hlt by (apply Z.ltb_ge; rewrite Ec, Hts, En; simpl; lia).
        rewrite Hlt in Hstep. by simplify_eq.
      * case_match; by simplify_eq.
      * case_match; by simplify_eq.
      * case_match; simplify_eq; [done|]. simpl. intros e.
        rewrite elem_of_cons. intros [->|He]; auto.
      * case_match; by simplify_eq.
      * done.
    + unfold alloc_step in Hstep. by rewrite Hts in Hstep.
    + unfold discharge_step in Hstep. unfold queue_items in Hq.
      destruct (discharge_task s) as [| |i| |] eqn:Hdt; [| |done|done..].
      * destruct (cancel_requested s), o; by simplify_eq.
      * destruct (cancel_requested s); simplify_eq; [done|].
        destruct o; simplify_eq; [|done]. by rewrite Hq in Hstep.
Qed.

(** X9: [hospital_simulation] with [num_patients <= 0].  The intake
    list is empty, no allocation task is ever created, no unit is ever
    taken and nobody is discharged; and the orchestrator goes straight
    through lines 249-289: when the discharge task has not run yet, it is
    cancelled before its first statement and the simulation ends. *)
Theorem empty_simulation n nd nb draws r t (res : HospitalResources) :
  n ≤ 0 → HospitalResources_init nd nb = Some res →
  patients_to_register draws n = [] ∧
  (∀ s, reachable n nd nb s →
        allocation_tasks s = [] ∧ queue_items s = [] ∧
        processed_patients (resources s) = 0 ∧
        (∀ k, semaphore k (resources s) = capacity nd nb k) ∧
        ∀ e, e ∈ trace s → e = EvCancel) ∧
  ∃ s, run [Orchestrator_runs; Orchestrator_runs; Orchestrator_runs;
            Orchestrator_runs; Discharge_runs Normal t; Orchestrator_runs]
           (initial n
              (registration_stage r (patients_to_register draws n) res))
       = Some s ∧
       orchestrator s = O_shutdown ∧ discharge_task s = D_cancelled ∧
       total_patients (resources s) = 0 ∧ trace s = [EvCancel].
Proof.
  intros Hn Hres.
  assert (patients_to_register draws n = []) as Hempty.
  { unfold patients_to_register. by rewrite Z2Nat.nonpos. }
  split; [done|]. split.
  - intros s Hr.
    destruct (no_patients_no_tasks n nd nb s Hn Hr) as (Hts & Hq & _).
    split_and!; [done..| | |].
    + rewrite (processed_reachable n nd nb s Hr). by rewrite Hts.
    + intros k. destruct (pools_ok_reachable n nd nb s Hr k) as [_ Hsum].
      rewrite Hts in Hsum. simpl in Hsum. lia.
    + by apply (no_patients_trace n nd nb).
  - rewrite Hempty. unfold registration_stage. simpl.
    unfold HospitalResources_init in Hres. repeat case_match; simplify_eq.
    unfold orchestrator_step. simpl.
    assert ((0 <? n) = false) as -> by by apply Z.ltb_ge.
    simpl. eexists. split; [reflexivity|]. done.
Qed.


(** ** Absence of deadlock *)

Lemma pending_ok_same (s s' : Simulation) evs :
  pending_ok s →
  trace s' = evs ++ trace s →
  (∀ j, awaiting_discharge s' j → awaiting_discharge s j) →
  queue_items s' = queue_items s →
  discharge_task s' = discharge_task s →
  (cancel_requested s = true → cancel_requested s' = true) →
  pending_ok s'.
Proof.
  intros (Hp & Hc) Etr Haw Eq Edt Hcr. split.
  - intros j Hj. rewrite Etr, Eq, Edt, elem_of_app.
    destruct (Hp j (Haw j Hj)) as [?|[?|?]]; auto.
  - unfold discharge_task_done in *. rewrite Edt. auto.
Qed.

Lemma awaiting_discharge_insert (s s' : Simulation) i c' j :
  allocation_tasks s' = <[i:=c']> (allocation_tasks s) →
  awaiting_discharge s' j →
  j ≠ i ∧ awaiting_discharge s j ∨
  j = i ∧ pc c' = A_done ∧ status (patient c') = READY_FOR_DISCHARGE.
Proof.
  intros Ets (c & Hc & Hpc & Hst). rewrite Ets in Hc.
  destruct (decide (j = i)) as [->|Hne].
  - right. apply list_lookup_insert_Some in Hc as [(_ & <- & _)|(? & _)]; done.
  - left. rewrite list_lookup_insert_ne in Hc by done.
    split; [done|]. by exists c.
Qed.

Lemma pending_ok_step a (s s' : Simulation) :
  shape_ok s → pending_ok s → step a s = Some s' → pending_ok s'.
Proof.
  intros Hshape Hpend Hstep. pose proof Hpend as (Hp & Hdone).
  destruct a as [d p| |i o h t|o t]; simpl in Hstep.
  - simplify_eq. by apply (pending_ok_same s _ []).
  - unfold orchestrator_step in Hstep.
    destruct (orchestrator s); [|repeat case_match; simplify_eq..].
    2-6: try (by apply (pending_ok_same s _ [])).
    + destruct (diagnosis_collected_count s <? num_patients s);
        [|simplify_eq; by apply (pending_ok_same s _ [])].
      destruct (diagnosis_result_queue s) as [|p rest]; simplify_eq.
      * by apply (pending_ok_same s _ [EvPollSleep]).
      * apply (pending_ok_same s _ [EvCollect (length (allocation_tasks s))]);
          try done.
        intros j (c & Hc & Hpc & Hst). simpl in Hc.
        apply lookup_app_Some in Hc as [Hc|[_ Hc]]; [by exists c|].
        apply list_lookup_singleton_Some in Hc as [_ <-]. done.
    + split; [|done]. intros j Hj. simpl. rewrite elem_of_cons.
      destruct (Hp j Hj) as [?|[?|?]]; auto.
  - destruct (alloc_step_effect i o h t s s' Hstep)
      as (c & c' & evs & Hc & Hfin & Ets & Etr & Hevs & Edt & _ & Ecr & _ & Eq).
    split.
    + intros j Hj. rewrite Etr, Edt, elem_of_app.
      destruct (awaiting_discharge_insert s s' i c' j Ets Hj)
        as [[Hne Haw]|(-> & Hpc' & Hst')].
      * destruct (Hp j Haw) as [Hin|[?|?]]; auto.
        left. destruct Eq as [[-> _]|(_ & _ & _ & _ & ->)]; [done|].
        rewrite elem_of_app. auto.
      * left. destruct Eq as [[_ ?]|(_ & _ & _ & _ & ->)]; [done|].
        rewrite elem_of_app, list_elem_of_singleton. auto.
    + unfold discharge_task_done in *. rewrite Edt, Ecr. done.
  - unfold discharge_step in Hstep.
    pose proof Hshape as (_ & _ & _ & _ & Hd).
    destruct (discharge_task s) as [| |i| |] eqn:Hdt; [| | |done..].
    + destruct (cancel_requested s) eqn:Hcr, o; simplify_eq.
      * split; [|done]. intros j Hj. simpl.
        destruct (Hp j Hj) as [?|[?|?]]; auto. done.
      * split; [|done]. intros j Hj. simpl.
        destruct (Hp j Hj) as [?|[?|?]]; auto. done.
      * split; [|done]. intros j Hj. simpl.
        destruct (Hp j Hj) as [?|[?|?]]; auto. done.
    + destruct (cancel_requested s) eqn:Hcr; simplify_eq.
      { split; [|done]. intros j Hj. simpl.
        destruct (Hp j Hj) as [?|[?|?]]; auto. done. }
      destruct o; simplify_eq; [|done].
      destruct (items (discharge_queue (resources s))) as [|i rest] eqn:Hit;
        simplify_eq.
      split; [|done]. intros j Hj. unfold queue_items in *. simpl.
      rewrite elem_of_cons.
      destruct (Hp j Hj) as [Hin|[?|?]]; auto; [|done].
      rewrite Hit, elem_of_cons in Hin. destruct Hin as [->|?]; auto.
    + destruct (cancel_requested s) eqn:Hcr; simplify_eq.
      { split; [|done]. intros j Hj. simpl. rewrite elem_of_cons.
        destruct (Hp j Hj) as [?|[[= ->]|?]]; auto. }
      destruct o; simplify_eq.
      * destruct (allocation_tasks s !! i) as [c|] eqn:Hc; simplify_eq/=.
        split; [|done]. intros j Hj.
        change (j ∈ queue_items (discharge_patient i c t s) ∨
                D_get = D_sleep j ∨
                EvLost j ∈ trace (discharge_patient i c t s)).
        rewrite discharge_patient_queue_items, discharge_patient_trace.
        destruct (awaiting_discharge_insert s _ i _ j
                    (discharge_patient_tasks i c t s) Hj)
          as [[Hne Haw]|(_ & _ & Hst)]; [|done].
        destruct (Hp j Haw) as [?|[[= ->]|?]]; auto; [done|].
        right. right. rewrite elem_of_cons, !elem_of_app. auto.
      * split; [|done]. intros j Hj. simpl. rewrite elem_of_cons.
        destruct (Hp j Hj) as [?|[[= ->]|?]]; auto.
Qed.

Lemma pending_ok_reachable n nd nb (s : Simulation) :
  reachable n nd nb s → pending_ok s.
Proof.
  intros Hr. pose proof Hr as Hr'. revert s Hr' Hr.
  apply (reachable_ind n nd nb (λ s, reachable n nd nb s → pending_ok s)).
  - intros res r order Hres _. split; [|done].
    intros j (c & Hc & _). done.
  - intros s0 a s1 Hr0 IH Hstep _.
    eapply pending_ok_step; [by eapply shape_ok_reachable|by apply IH|done].
Qed.

Lemma number_of_pos f (ts : list AllocTask) :
  0 < number_of f ts → ∃ i c, ts !! i = Some c ∧ f c = true.
Proof.
  induction ts as [|c ts IH]; simpl; [lia|]. intros Hpos.
  destruct (f c) eqn:Hf.
  - by exists 0%nat, c.
  - destruct IH as (i & c' & Hi & Hc'); [simpl in Hpos; lia|].
    by exists (S i), c'.
Qed.


Lemma awaiting_can_leave (s : Simulation) j t :
  shape_ok s → pending_ok s → cancel_requested s = false →
  (∀ k, EvLost k ∉ trace s) → awaiting_discharge s j →
  is_Some (discharge_step Normal t s).
Proof.
  intros (_ & _ & _ & _ & Hd) (Hp & Hdone) Hcr Hnl Haw.
  unfold discharge_step. rewrite Hcr.
  destruct (discharge_task s) as [| |k| |] eqn:Hdt.
  - by eexists.
  - destruct (Hp j Haw) as [Hin|[?|Hl]]; [|done|by apply Hnl in Hl].
    unfold queue_items in Hin.
    destruct (items (discharge_queue (resources s))); [|by eexists].
    by apply elem_of_nil in Hin.
  - destruct (Hd k eq_refl) as (_ & c & -> & _). simpl. by eexists.
  - unfold discharge_task_done in Hdone. rewrite Hdt in Hdone.
    specialize (Hdone eq_refl). congruence.
  - unfold discharge_task_done in Hdone. rewrite Hdt in Hdone.
    specialize (Hdone eq_refl). congruence.
Qed.

Lemma bed_holder_moves (s : Simulation) j c h t :
  shape_ok s → pending_ok s → cancel_requested s = false →
  (∀ k, EvLost k ∉ trace s) →
  allocation_tasks s !! j = Some c → holds Bed c = true →
  is_Some (alloc_step j Normal h t s) ∨ is_Some (discharge_step Normal t s).
Proof.
  intros Hshape Hpend Hcr Hnl Hc Hh.
  pose proof Hshape as (_ & Hcell & _).
  pose proof (Hcell j c Hc) as Hok. unfold cell_ok in Hok.
  unfold holds, acquired, rolled_back, discharged, handle in Hh.
  destruct (pc c) eqn:Hpc; simpl in Hh; try done.
  1-4: left; unfold alloc_step; rewrite Hc; simpl; rewrite Hpc; by eexists.
  - right. apply (awaiting_can_leave s j t); try done.
    exists c. split_and!; [done..|].
    destruct Hok as (_ & _ & _ & _ & [?|Hst]); [done|].
    rewrite Hst in Hh. simpl in Hh. repeat case_bool_decide; done.
  - by destruct (truthy (assigned_bed c)).
Qed.

Lemma some_task_can_step n nd nb (s : Simulation) i c h t :
  reachable n nd nb s → 0 < nd → 0 < nb →
  cancel_requested s = false → (∀ k, EvLost k ∉ trace s) →
  allocation_tasks s !! i = Some c → finished c = false →
  (∃ j, is_Some (alloc_step j Normal h t s)) ∨
  is_Some (discharge_step Normal t s).
Proof.
  intros Hr Hnd Hnb Hcr Hnl Hc Hfin.
  pose proof (shape_ok_reachable n nd nb s Hr) as Hshape.
  pose proof (pending_ok_reachable n nd nb s Hr) as Hpend.
  pose proof Hshape as (_ & Hcell & _).
  assert (∀ j cj, allocation_tasks s !! j = Some cj → holds Bed cj = true →
                  (∃ j, is_Some (alloc_step j Normal h t s)) ∨
                  is_Some (discharge_step Normal t s)) as Hbed.
  { intros j cj Hj Hh.
    destruct (bed_holder_moves s j cj h t Hshape Hpend Hcr Hnl Hj Hh);
      eauto. }
  assert (∀ j cj, allocation_tasks s !! j = Some cj → pc cj = A_acq_bed →
                  (∃ j, is_Some (alloc_step j Normal h t s)) ∨
                  is_Some (discharge_step Normal t s)) as Hwait_bed.
  { intros j cj Hj Hpc.
    destruct (decide (0 < beds_semaphore (resources s))) as [Hpos|Hz].
    - left. exists j. unfold alloc_step. rewrite Hj. simpl. rewrite Hpc.
      apply Z.ltb_lt in Hpos. rewrite Hpos. by eexists.
    - destruct (pools_ok_reachable n nd nb s Hr Bed) as [Hge Hsum].
      simpl in Hge, Hsum. rewrite held_number_of in Hsum.
      destruct (number_of_pos (holds Bed) (allocation_tasks s))
        as (k & ck & Hk & Hh); [lia|].
      by apply (Hbed k ck). }
  assert (∀ j cj, allocation_tasks s !! j = Some cj →
                  holds Doctor cj = true →
                  (∃ j, is_Some (alloc_step j Normal h t s)) ∨
                  is_Some (discharge_step Normal t s)) as Hdoc.
  { intros j cj Hj Hh.
    destruct (holds Bed cj) eqn:Hb; [by apply (Hbed j cj)|].
    pose proof (Hcell j cj Hj) as Hok. unfold cell_ok in Hok.
    unfold holds, acquired, rolled_back, discharged, handle in Hh, Hb.
    destruct (pc cj) eqn:Hpc; simpl in Hh, Hb; try done.
    all: try (destruct (bool_decide (status (patient cj) = DISCHARGED));
              simpl in *; congruence).
    - left. exists j. unfold alloc_step. rewrite Hj. simpl. rewrite Hpc.
      by eexists.
    - by apply (Hwait_bed j cj).
    - by destruct (truthy (assigned_doctor cj)). }
  unfold finished in Hfin.
  destruct (pc c) eqn:Hpc; try done.
  1-2, 4, 6-9: left; exists i; unfold alloc_step; rewrite Hc; simpl;
    rewrite Hpc; by eexists.
  - destruct (decide (0 < doctors_semaphore (resources s))) as [Hpos|Hz].
    + left. exists i. unfold alloc_step. rewrite Hc. simpl. rewrite Hpc.
      apply Z.ltb_lt in Hpos. rewrite Hpos. by eexists.
    + destruct (pools_ok_reachable n nd nb s Hr Doctor) as [Hge Hsum].
      simpl in Hge, Hsum. rewrite held_number_of in Hsum.
      destruct (number_of_pos (holds Doctor) (allocation_tasks s))
        as (k & ck & Hk & Hh); [lia|].
      by apply (Hdoc k ck).
  - by apply (Hwait_bed i c).
Qed.



(** ** The intake list *)

Lemma random_choice_elem_of {A} (d : A) (l : list A) k :
  l ≠ [] → random_choice d l k ∈ l.
Proof.
  intros Hne. unfold random_choice.
  assert (k mod length l < length l)%nat as Hlt.
  { apply Nat.mod_upper_bound. destruct l; [done|simpl; lia]. }
  destruct (lookup_lt_is_Some_2 l (k mod length l)%nat Hlt) as [x Hx].
  rewrite (nth_lookup_Some _ _ d _ Hx). by eapply list_elem_of_lookup_2.
Qed.

(** X11: the intake list of lines 230-237.  For every [num_patients]
    the list has [max 0 num_patients] patients, with the identifiers
    [1, 2, ..., num_patients] in this order; identifiers and names are
    pairwise distinct; and every patient starts in
    [WAITING_REGISTRATION] with priority [MEDIUM], one symptom of the
    five listed, no diagnosis and no resources. *)
Theorem intake_list draws n :
  let ps := patients_to_register draws n in
  Z.of_nat (length ps) = Z.max 0 n ∧
  (∀ k p, ps !! k = Some p → id p = Z.of_nat k + 1) ∧
  NoDup (map id ps) ∧ NoDup (map name ps) ∧
  (∀ p, p ∈ ps →
        1 ≤ id p ≤ n ∧
        name p = "Paciente_" +:+ pretty (id p) ∧
        status p = WAITING_REGISTRATION ∧ priority p = MEDIUM ∧
        diagnosis p = None ∧ assigned_resources p = None ∧
        ∃ sy, symptoms p = [sy] ∧ sy ∈ symptom_names).
Proof.
  intros ps. unfold ps, patients_to_register.
  assert (∀ k p, map (λ k, new_patient draws (Z.of_nat k + 1))
                     (seq 0 (Z.to_nat n)) !! k = Some p →
                 (k < Z.to_nat n)%nat ∧
                 p = new_patient draws (Z.of_nat k + 1)) as Hlook.
  { intros k p Hk. rewrite list_lookup_fmap in Hk.
    destruct (seq 0 (Z.to_nat n) !! k) as [k'|] eqn:Hs; simplify_eq/=.
    apply lookup_seq in Hs as [-> ?]. done. }
  split_and!.
  - rewrite length_map, length_seq. lia.
  - intros k p Hk. destruct (Hlook k p Hk) as [_ ->]. done.
  - rewrite <- list_fmap_compose.
    assert (Inj (=) (=) (λ k : nat, Z.of_nat k + 1)) as Hinj
      by (intros a b Hab; lia).
    apply (NoDup_fmap_2 (λ k : nat, Z.of_nat k + 1)), NoDup_seq.
  - rewrite <- list_fmap_compose.
    assert (Inj (=) (=)
              (λ k : nat, "Paciente_" +:+ pretty (Z.of_nat k + 1))) as Hinj.
    { intros a b Hab. simpl in Hab.
      apply (inj (String.append "Paciente_")) in Hab.
      apply (inj pretty) in Hab. lia. }
    apply (NoDup_fmap_2
             (λ k : nat, "Paciente_" +:+ pretty (Z.of_nat k + 1))),
      NoDup_seq.
  - intros p [k Hk]%list_elem_of_lookup.
    destruct (Hlook k p Hk) as [Hlt ->]. simpl.
    split_and!; try done; try lia.
    eexists. split; [done|]. by apply random_choice_elem_of.
Qed.


(** ** The diagnosis workers *)

Lemma patients_of_app (q1 q2 : list (option Patient)) :
  patients_of (q1 ++ q2) = patients_of q1 ++ patients_of q2.
Proof. unfold patients_of. apply omap_app. Qed.

Lemma busy_insert (ws : list WorkerPc) w k0 k :
  ws !! w = Some k0 →
  option_list (busy_patient k0) ++ omap busy_patient (<[w:=k]> ws)
  ≡ₚ option_list (busy_patient k) ++ omap busy_patient ws.
Proof.
  revert w. induction ws as [|k1 ws IH]; intros [|w] Hw; simplify_eq/=.
  - destruct (busy_patient k0), (busy_patient k); simpl; try done.
    apply perm_swap.
  - specialize (IH w Hw).
    destruct (busy_patient k1) as [p1|]; simpl; [|done].
    rewrite <- Permutation_middle, IH, Permutation_middle. done.
Qed.

Lemma stage_step_patients a (st st' : DiagnosisStage) :
  stage_step a st = Some st' →
  map id (stage_patients st')
  ≡ₚ map id (patients_of (option_list (put_item a)))
     ++ map id (stage_patients st).
Proof.
  intros Hstep. unfold stage_patients.
  destruct a as [x|w o d]; simpl in Hstep.
  - simplify_eq. simpl. rewrite patients_of_app, !map_app.
    rewrite <- !app_assoc. apply Permutation_app_swap_app.
  - unfold worker_step in Hstep.
    destruct (stage_workers st !! w) as [k|] eqn:Hw; simpl in Hstep; [|done].
    destruct k as [|p|], o; simplify_eq; try done.
    + destruct (stage_queue st) as [|[p|] q] eqn:Hq; simplify_eq; simpl;
        rewrite ?Hq; try done.
      * pose proof (busy_insert (stage_workers st) w W_get (W_busy p) Hw)
          as Hb. simpl in Hb. rewrite Hb. unfold patients_of. simpl.
        rewrite !map_app. simpl. by rewrite <- Permutation_middle, !map_app.
      * pose proof (busy_insert (stage_workers st) w W_get W_finished Hw)
          as Hb. simpl in Hb. rewrite Hb. done.
    + simpl.
      pose proof (busy_insert (stage_workers st) w (W_busy p) W_get Hw)
        as Hb. simpl in Hb. rewrite <- Hb, !map_app. simpl.
      apply Permutation_app_head.
      rewrite <- ?app_assoc. simpl.
      rewrite <- ?Permutation_middle, ?app_nil_r. done.
    + simpl.
      pose proof (busy_insert (stage_workers st) w (W_busy p) W_get Hw)
        as Hb. simpl in Hb. rewrite <- Hb, !map_app. simpl.
      apply Permutation_app_head.
      rewrite <- ?app_assoc. simpl.
      rewrite <- ?Permutation_middle, ?app_nil_r. done.
Qed.


Lemma stage_step_results a (st st' : DiagnosisStage) :
  stage_step a st = Some st' →
  length (stage_workers st') = length (stage_workers st) ∧
  (Forall (λ p, status p = DIAGNOSED ∧ is_Some (diagnosis p))
          (stage_results st) →
   Forall (λ p, status p = DIAGNOSED ∧ is_Some (diagnosis p))
          (stage_results st')).
Proof.
  intros Hstep. destruct a as [x|w o d]; simpl in Hstep.
  - by simplify_eq.
  - unfold worker_step in Hstep.
    destruct (stage_workers st !! w) as [k|] eqn:Hw; simpl in Hstep; [|done].
    destruct k as [|p|], o; simplify_eq; try done.
    + destruct (stage_queue st) as [|[p|] q]; simplify_eq; simpl;
        by rewrite ?length_insert.
    + simpl. rewrite length_insert. split; [done|]. intros Hall.
      apply Forall_app. split; [done|]. apply Forall_singleton. simpl.
      split; [done|by eexists].
    + simpl. by rewrite length_insert.
Qed.

Lemma stage_run_patients acts (st st' : DiagnosisStage) :
  stage_run acts st = Some st' →
  map id (stage_patients st')
  ≡ₚ map id (patients_of (omap put_item acts)) ++ map id (stage_patients st).
Proof.
  revert st. induction acts as [|a acts IH]; intros st Hrun; simpl in Hrun.
  - by simplify_eq.
  - destruct (stage_step a st) as [st1|] eqn:Hs; simpl in Hrun; [|done].
    rewrite (IH st1 Hrun), (stage_step_patients a st st1 Hs).
    assert (omap put_item (a :: acts)
            = option_list (put_item a) ++ omap put_item acts) as ->
      by (simpl; by destruct (put_item a)).
    rewrite patients_of_app, map_app, <- !app_assoc.
    apply Permutation_app_swap_app.
Qed.

Lemma stage_run_results acts (st st' : DiagnosisStage) :
  stage_run acts st = Some st' →
  length (stage_workers st') = length (stage_workers st) ∧
  (Forall (λ p, status p = DIAGNOSED ∧ is_Some (diagnosis p))
          (stage_results st) →
   Forall (λ p, status p = DIAGNOSED ∧ is_Some (diagnosis p))
          (stage_results st')).
Proof.
  revert st. induction acts as [|a acts IH]; intros st Hrun; simpl in Hrun.
  - by simplify_eq.
  - destruct (stage_step a st) as [st1|] eqn:Hs; simpl in Hrun; [|done].
    destruct (stage_step_results a st st1 Hs) as [El Hf].
    destruct (IH st1 Hrun) as [El' Hf']. split; [congruence|auto].
Qed.

(** X12: the workers neither lose nor duplicate a patient.  Whatever
    the number of workers and the interleaving of their steps with the
    puts on the diagnosis queue, the patients put so far are, by
    identifier and with multiplicity, the patients still on the queue,
    those a worker is diagnosing, those on the result queue and those
    given up by the handler at line 112; so no patient is diagnosed
    twice, and a patient that is given up never reaches the result
    queue.  Every patient on the result queue is [DIAGNOSED] and has a
    diagnosis. *)
Theorem diagnosis_stage_conservation num_processors acts
    (st : DiagnosisStage) :
  stage_run acts (stage_initial num_processors) = Some st →
  map id (patients_of (omap put_item acts))
  ≡ₚ map id (patients_of (stage_queue st))
     ++ map id (omap busy_patient (stage_workers st))
     ++ map id (stage_results st) ++ map id (stage_dropped st) ∧
  Forall (λ p, status p = DIAGNOSED ∧ is_Some (diagnosis p))
         (stage_results st) ∧
  length (stage_workers st) = num_processors.
Proof.
  intros Hrun.
  pose proof (stage_run_patients acts _ st Hrun) as Hp.
  destruct (stage_run_results acts _ st Hrun) as [El Hf].
  split_and!.
  - unfold stage_patients in Hp. rewrite !map_app in Hp. rewrite Hp.
    simpl. assert (omap busy_patient (replicate num_processors W_get)
                   = ([] : list Patient)) as ->.
    { clear. induction num_processors as [|k IH]; simpl; [done|apply IH]. }
    simpl. by rewrite app_nil_r.
  - apply Hf. simpl. constructor.
  - rewrite El. simpl. apply length_replicate.
Qed.


Lemma workers_at_insert f (ws : list WorkerPc) w k0 k :
  ws !! w = Some k0 →
  (workers_at f (<[w:=k]> ws) + (if f k0 then 1 else 0)
   = workers_at f ws + (if f k then 1 else 0))%nat.
Proof.
  unfold workers_at.
  revert w. induction ws as [|k1 ws IH]; intros [|w] Hw; simplify_eq/=.
  - rewrite !filter_cons.
    destruct (f k0) eqn:E0, (f k) eqn:E; repeat case_decide;
      simpl; try congruence; lia.
  - specialize (IH w Hw). rewrite !filter_cons.
    case_decide; simpl; lia.
Qed.

Lemma sentinels_app (q1 q2 : list (option Patient)) :
  sentinels (q1 ++ q2) = (sentinels q1 + sentinels q2)%nat.
Proof. unfold sentinels. by rewrite filter_app, length_app. Qed.

Lemma sentinels_cons x (q : list (option Patient)) :
  sentinels (x :: q)
  = ((match x with None => 1 | Some _ => 0 end) + sentinels q)%nat.
Proof.
  unfold sentinels. rewrite filter_cons.
  destruct x; [by rewrite decide_False|by rewrite decide_True].
Qed.

Lemma stage_step_sentinels a (st st' : DiagnosisStage) :
  stage_step a st = Some st' →
  (sentinels (stage_queue st')
   + workers_at is_finished (stage_workers st')
   = sentinels (option_list (put_item a)) + sentinels (stage_queue st)
     + workers_at is_finished (stage_workers st))%nat.
Proof.
  intros Hstep. destruct a as [x|w o d]; simpl in Hstep.
  - simplify_eq. simpl. rewrite sentinels_app. lia.
  - unfold worker_step in Hstep.
    destruct (stage_workers st !! w) as [k|] eqn:Hw; simpl in Hstep; [|done].
    destruct k as [|p|], o; simplify_eq; try done.
    + destruct (stage_queue st) as [|[p|] q] eqn:Hq; simplify_eq;
        cbn [stage_queue stage_workers set_worker set_stage_queue put_item
             option_list];
        rewrite ?Hq, ?sentinels_cons; try done.
      * pose proof (workers_at_insert is_finished _ w W_get (W_busy p) Hw)
          as Hi. simpl in Hi. unfold sentinels at 2. simpl. lia.
      * pose proof (workers_at_insert is_finished _ w W_get W_finished Hw)
          as Hi. simpl in Hi. unfold sentinels at 2. simpl. lia.
    + pose proof (workers_at_insert is_finished _ w (W_busy p) W_get Hw)
        as Hi. simpl in *. lia.
    + pose proof (workers_at_insert is_finished _ w (W_busy p) W_get Hw)
        as Hi. simpl in *. lia.
Qed.

Lemma stage_run_app acts1 acts2 (st : DiagnosisStage) :
  stage_run (acts1 ++ acts2) st = stage_run acts1 st ≫= stage_run acts2.
Proof.
  revert st. induction acts1 as [|a acts1 IH]; intros st; simpl; [done|].
  destruct (stage_step a st); simpl; [apply IH|done].
Qed.

Lemma stage_run_sentinels (ws : list nat) d (st : DiagnosisStage) rest :
  NoDup ws →
  (∀ w, w ∈ ws → stage_workers st !! w = Some W_get) →
  stage_queue st = replicate (length ws) None ++ rest →
  ∃ st', stage_run (map (λ w, Worker_runs w Normal d) ws) st = Some st' ∧
         stage_queue st' = rest ∧
         (∀ w, w ∈ ws → stage_workers st' !! w = Some W_finished) ∧
         (∀ w, w ∉ ws → stage_workers st' !! w = stage_workers st !! w) ∧
         stage_results st' = stage_results st ∧
         stage_dropped st' = stage_dropped st.
Proof.
  revert st. induction ws as [|w ws IH]; intros st Hnd Hidle Hq.
  - exists st. simpl in *. split_and!; try done.
    intros w Hw. by apply elem_of_nil in Hw.
  - apply NoDup_cons in Hnd as [Hni Hnd]. simpl in Hq.
    pose proof (Hidle w ltac:(by left)) as Hw.
    destruct (IH (set_worker w W_finished
                    (set_stage_queue (replicate (length ws) None ++ rest) st)))
      as (st' & Hrun & Eq & Hfin & Hoth & Er & Ed); [done| |done|].
    { intros w' Hw'. simpl. rewrite list_lookup_insert_ne by congruence.
      apply Hidle. by right. }
    exists st'. split_and!; try done.
    + simpl. unfold worker_step. rewrite Hw. simpl. rewrite Hq. simpl.
      exact Hrun.
    + intros w' [->|Hw']%elem_of_cons; [|by apply Hfin].
      rewrite (Hoth w Hni). simpl. apply list_lookup_insert_eq.
      by eapply lookup_lt_Some.
    + intros w' Hw'. rewrite not_elem_of_cons in Hw'.
      destruct Hw' as [Hne Hw']. rewrite (Hoth w' Hw'). simpl.
      by rewrite list_lookup_insert_ne.
Qed.

(** X13: a worker ends only by taking a sentinel, and a sentinel ends
    one worker: at every moment the sentinels put so far are the
    sentinels still on the queue plus the workers that have ended.  So
    the shutdown of lines 293-301 ends the workers it is meant for: when
    the queue is empty and the workers [ws] are at the [get], after one
    sentinel is put for each of them and each takes its next step, in
    whatever order, they have all ended, the queue is empty again and no
    other worker and no result is touched. *)
Theorem sentinels_end_workers num_processors acts (st : DiagnosisStage)
    ws d :
  stage_run acts (stage_initial num_processors) = Some st →
  sentinels (omap put_item acts)
  = (sentinels (stage_queue st)
     + workers_at is_finished (stage_workers st))%nat ∧
  (NoDup ws →
   (∀ w, w ∈ ws → stage_workers st !! w = Some W_get) →
   stage_queue st = [] →
   ∃ st', stage_run (replicate (length ws) (Stage_put None)
                     ++ map (λ w, Worker_runs w Normal d) ws) st
          = Some st' ∧
          stage_queue st' = [] ∧
          (∀ w, w ∈ ws → stage_workers st' !! w = Some W_finished) ∧
          (∀ w, w ∉ ws → stage_workers st' !! w = stage_workers st !! w) ∧
          stage_results st' = stage_results st ∧
          stage_dropped st' = stage_dropped st).
Proof.
  intros Hrun. split.
  - assert (∀ acts st0 st1, stage_run acts st0 = Some st1 →
              (sentinels (stage_queue st1)
               + workers_at is_finished (stage_workers st1)
               = sentinels (omap put_item acts) + sentinels (stage_queue st0)
                 + workers_at is_finished (stage_workers st0))%nat) as Hgen.
    { clear. intros acts. induction acts as [|a acts IH];
        intros st0 st1 Hrun; simpl in Hrun.
      - by simplify_eq.
      - destruct (stage_step a st0) as [st2|] eqn:Hs; simpl in Hrun; [|done].
        pose proof (IH st2 st1 Hrun) as E1.
        pose proof (stage_step_sentinels a st0 st2 Hs) as E2.
        assert (omap put_item (a :: acts)
                = option_list (put_item a) ++ omap put_item acts) as ->
          by (simpl; by destruct (put_item a)).
        rewrite sentinels_app. lia. }
    rewrite (Hgen acts _ st Hrun). simpl.
    assert (workers_at is_finished (replicate num_processors W_get) = 0%nat)
      as ->.
    { clear. unfold workers_at.
      induction num_processors as [|k IH]; simpl; [done|].
      rewrite filter_cons. by rewrite decide_False by done. }
    unfold sentinels. simpl. lia.
  - intros Hnd Hidle Hq. rewrite stage_run_app.
    assert (∀ m st0, stage_run (replicate m (Stage_put None)) st0
                     = Some (set_stage_queue
                               (stage_queue st0 ++ replicate m None) st0))
      as Hputs.
    { clear. intros m. induction m as [|m IH]; intros st0; simpl.
      - rewrite app_nil_r. by destruct st0.
      - rewrite IH. simpl. by rewrite <- app_assoc. }
    rewrite Hputs. simpl. rewrite Hq. simpl.
    destruct (stage_run_sentinels ws d
                (set_stage_queue (replicate (length ws) None) st) [])
      as (st' & Hrun' & Eq & Hfin & Hoth & Er & Ed); try done.
    { simpl. by rewrite app_nil_r. }
    by exists st'.
Qed.


(** ** The state once the discharge queue was joined *)

Lemma number_of_zero f (ts : list AllocTask) :
  (∀ i c, ts !! i = Some c → f c = false) → number_of f ts = 0.
Proof.
  induction ts as [|c ts IH]; intros Hf; simpl; [done|].
  rewrite (Hf 0%nat c eq_refl), IH; [done|].
  intros i c' Hi. apply (Hf (S i) c' Hi).
Qed.



(** ** Runs without faults come to an end *)

Lemma total_weight_app (ts1 ts2 : list AllocTask) :
  total_weight (ts1 ++ ts2) = total_weight ts1 + total_weight ts2.
Proof. induction ts1 as [|c ts1 IH]; simpl; lia. Qed.

Lemma total_weight_insert (ts : list AllocTask) i c c' :
  ts !! i = Some c →
  total_weight (<[i:=c']> ts) = total_weight ts - weight c + weight c'.
Proof.
  revert i. induction ts as [|c0 ts IH]; intros [|i] Hi; simplify_eq/=.
  - lia.
  - rewrite (IH i Hi). lia.
Qed.

Lemma weight_nonneg c : 0 ≤ weight c.
Proof. unfold weight. repeat case_match; lia. Qed.

Lemma remaining_nonneg (s : Simulation) : 0 ≤ remaining s.
Proof.
  unfold remaining.
  assert (0 ≤ total_weight (allocation_tasks s)) as Hw.
  { induction (allocation_tasks s) as [|c ts IH]; simpl; [lia|].
    pose proof (weight_nonneg c). lia. }
  destruct (discharge_task s); lia.
Qed.

(** A normal step of an allocation task. *)
Lemma normal_alloc_step j h t (s s' : Simulation) :
  fault_free s → alloc_step j Normal h t s = Some s' →
  remaining s' = remaining s - 1 ∧ fault_free s' ∧
  length (allocation_tasks s') = length (allocation_tasks s).
Proof.
  intros (Hcr & Hnl & Hnf) Hstep.
  destruct (alloc_step_effect j Normal h t s s' Hstep)
    as (c & c' & evs & Hc & Hfin & Ets & Etr & Hevs & Edt & _ & Ecr & _ & _).
  assert (weight c' = weight c - 1 ∧ pc c' ≠ A_failed ∧ pc c' ≠ A_raised)
    as (Hw & Hf1 & Hf2).
  { assert (allocation_tasks s' !! j = Some c') as Hc'.
    { rewrite Ets. apply list_lookup_insert_eq. by eapply lookup_lt_Some. }
    unfold alloc_step in Hstep. rewrite Hc in Hstep. simpl in Hstep.
    destruct (pc c) eqn:Hpc; try discriminate Hstep.
    all: repeat match goal with
      | Hx : (if 0 <? ?v then _ else _) = Some _ |- _ =>
          destruct (0 <? v); [|discriminate Hx]
      end.
    all: injection Hstep as <-.
    all: simpl in Hc'.
    all: rewrite list_lookup_insert_eq in Hc' by by eapply lookup_lt_Some.
    all: injection Hc' as <-.
    all: unfold weight, discharged; simpl; rewrite ?Hpc; done. }
  split_and!.
  - unfold remaining. rewrite Ets, Edt, (total_weight_insert _ j c c' Hc).
    lia.
  - split_and!; [congruence| |].
    + intros k. rewrite Etr, elem_of_app. intros [Hk|Hk];
        [by apply Hevs in Hk|by apply Hnl in Hk].
    + intros i ci. rewrite Ets. intros Hi.
      destruct (decide (i = j)) as [->|Hne].
      * apply list_lookup_insert_Some in Hi as [(_ & <- & _)|(? & _)]; done.
      * rewrite list_lookup_insert_ne in Hi by done. eauto.
  - rewrite Ets. apply length_insert.
Qed.

(** A normal step of the discharge task. *)
Lemma normal_discharge_step t (s s' : Simulation) :
  shape_ok s → fault_free s → discharge_step Normal t s = Some s' →
  remaining s' = remaining s - 1 ∧ fault_free s' ∧
  length (allocation_tasks s') = length (allocation_tasks s).
Proof.
  intros (_ & _ & _ & _ & Hd) (Hcr & Hnl & Hnf) Hstep.
  unfold discharge_step in Hstep. rewrite Hcr in Hstep.
  destruct (discharge_task s) as [| |i| |] eqn:Hdt; [| | |done..].
  - simplify_eq. unfold remaining, fault_free. simpl. rewrite Hdt.
    split_and!; (done || lia).
  - destruct (items (discharge_queue (resources s))) as [|i rest];
      simplify_eq.
    unfold remaining, fault_free. simpl. rewrite Hdt.
    split_and!; try done; try lia.
    intros k. rewrite elem_of_cons. intros [?|Hk]; [done|by apply Hnl in Hk].
  - destruct (Hd i eq_refl) as (_ & c & Hc & Hpc & Hst).
    rewrite Hc in Hstep. simpl in Hstep. simplify_eq.
    destruct (discharge_patient_frame i c t s)
      as (_ & _ & Ets & _ & Edt & Ecr & _).
    split_and!.
    + unfold remaining. simpl. rewrite Ets, Hdt.
      rewrite (total_weight_insert _ i c _ Hc).
      unfold weight, discharged. simpl. rewrite Hpc, Hst. simpl. lia.
    + unfold fault_free. simpl. rewrite Ecr. split_and!; [done| |].
      * intros k. rewrite discharge_patient_trace, elem_of_cons, !elem_of_app.
        intros [?|[Hk|[Hk|Hk]]]; [done| | |by apply Hnl in Hk].
        -- destruct (recorded Bed (patient c));
             [apply list_elem_of_singleton in Hk; done
             |by apply elem_of_nil in Hk].
        -- destruct (recorded Doctor (patient c));
             [apply list_elem_of_singleton in Hk; done
             |by apply elem_of_nil in Hk].
      * intros k ck. rewrite Ets. intros Hk.
        destruct (decide (k = i)) as [->|Hne].
        -- apply list_lookup_insert_Some in Hk as [(_ & <- & _)|(? & _)];
             [|done]. simpl. rewrite Hpc. done.
        -- rewrite list_lookup_insert_ne in Hk by done. eauto.
    + simpl. rewrite Ets. apply length_insert.
Qed.

Lemma forallb_false_lookup (f : AllocTask → bool) ts :
  forallb f ts = false → ∃ i c, ts !! i = Some c ∧ f c = false.
Proof.
  induction ts as [|c ts IH]; simpl; [done|]. intros Hf.
  destruct (f c) eqn:Hc.
  - destruct (IH Hf) as (i & c' & Hi & Hc'). by exists (S i), c'.
  - by exists 0%nat, c.
Qed.

(** From a state without faults, with at least one doctor and one bed,
    the allocation tasks and the discharge task can run until every
    task has returned and every patient is discharged. *)
Lemma tasks_run_to_end n nd nb (h : Handle) (t : num) (m : nat)
    (s : Simulation) :
  0 < nd → 0 < nb → reachable n nd nb s → fault_free s →
  remaining s ≤ Z.of_nat m →
  ∃ acts s',
    run acts s = Some s' ∧ fault_free s' ∧
    forallb settled (allocation_tasks s') = true ∧
    length (allocation_tasks s') = length (allocation_tasks s) ∧
    num_patients s' = num_patients s ∧
    diagnosis_result_queue s' = diagnosis_result_queue s ∧
    diagnosis_collected_count s' = diagnosis_collected_count s ∧
    orchestrator s' = orchestrator s.
Proof.
  intros Hnd Hnb. revert s.
  induction m as [|m IH]; intros s Hr Hff Hrem.
  all: destruct (forallb settled (allocation_tasks s)) eqn:Hall;
    [by exists [], s|].
  all: pose proof (shape_ok_reachable n nd nb s Hr) as Hshape.
  all: pose proof (pending_ok_reachable n nd nb s Hr) as Hpend.
  all: pose proof Hff as (Hcr & Hnl & Hnf).
  all: destruct (forallb_false_lookup settled _ Hall) as (i & c & Hc & Hset).
  all: assert ((∃ j, is_Some (alloc_step j Normal h t s)) ∨
               is_Some (discharge_step Normal t s)) as Hprog.
  1, 3: unfold settled in Hset; destruct (finished c) eqn:Hfin;
    [|by apply (some_task_can_step n nd nb s i c)];
    right; apply (awaiting_can_leave s i t); try done;
    pose proof Hshape as (_ & Hcell & _);
    pose proof (Hcell i c Hc) as Hok; unfold cell_ok in Hok;
    simpl in Hset; apply orb_false_iff in Hset as [Hd1 Hd2];
    apply negb_false_iff, bool_decide_eq_true in Hd1;
    exists c; split_and!; [done..|];
    rewrite Hd1 in Hok; destruct Hok as (_ & _ & _ & _ & [?|Hst]); [done|];
    unfold discharged in Hd2; rewrite Hst in Hd2; simpl in Hd2;
    first [done|by rewrite bool_decide_eq_true_2 in Hd2].
  all: assert (∃ a s1, step a s = Some s1 ∧ remaining s1 = remaining s - 1 ∧
                       fault_free s1 ∧
                       length (allocation_tasks s1)
                       = length (allocation_tasks s) ∧
                       num_patients s1 = num_patients s ∧
                       diagnosis_result_queue s1 = diagnosis_result_queue s ∧
                       diagnosis_collected_count s1
                       = diagnosis_collected_count s ∧
                       orchestrator s1 = orchestrator s)
         as (a & s1 & Hs1 & Hrem1 & Hff1 & El1 & En1 & Erq1 & Ec1 & Eo1).
  1, 3: destruct Hprog as [(j & s1 & Hs1)|(s1 & Hs1)];
    [exists (Alloc_runs j Normal h t), s1;
     destruct (normal_alloc_step j h t s s1 Hff Hs1) as (? & ? & ?);
     destruct (alloc_step_frame j Normal h t s s1 Hs1) as (? & ? & ? & ?);
     by split_and!
    |exists (Discharge_runs Normal t), s1;
     destruct (normal_discharge_step t s s1 Hshape Hff Hs1) as (? & ? & ?);
     destruct (discharge_step_frame Normal t s s1 Hs1) as (? & ? & ? & ?);
     by split_and!].
  - pose proof (remaining_nonneg s1). lia.
  - destruct (IH s1) as (acts & s' & Hrun & Hff' & Hall' & El & En & Erq
                         & Ec & Eo); [by eapply reachable_step|done|lia|].
    exists (a :: acts), s'. simpl. rewrite Hs1. simpl.
    split_and!; try done; congruence.
Qed.


(** The workers deliver the results [ps] one after the other and the
    collection loop takes each of them. *)
Lemma results_collected d (ps : list Patient) (s : Simulation) :
  orchestrator s = O_collect → diagnosis_result_queue s = [] →
  diagnosis_collected_count s + Z.of_nat (length ps) ≤ num_patients s →
  fault_free s →
  ∃ s', run (concat (map (λ p, [Worker_result d p; Orchestrator_runs]) ps)) s
        = Some s' ∧
        orchestrator s' = O_collect ∧ diagnosis_result_queue s' = [] ∧
        diagnosis_collected_count s'
        = diagnosis_collected_count s + Z.of_nat (length ps) ∧
        num_patients s' = num_patients s ∧ fault_free s' ∧
        length (allocation_tasks s')
        = (length (allocation_tasks s) + length ps)%nat.
Proof.
  revert s. induction ps as [|p ps IH]; intros s Ho Hrq Hle Hff.
  - exists s. simpl. split_and!; try done; lia.
  - simpl length in Hle. rewrite Nat2Z.inj_succ in Hle.
    destruct Hff as (Hcr & Hnl & Hnf).
    destruct (IH (collect (snd (diagnose d p)) []
                    (result_arrives (snd (diagnose d p)) s)))
      as (s' & Hrun & Ho' & Hrq' & Ec' & En' & Hff' & El'); try done.
    { simpl. lia. }
    { split_and!; [done| |].
      - intros k. simpl. rewrite elem_of_cons.
        intros [?|Hk]; [done|by apply Hnl in Hk].
      - intros i c. simpl. intros [Hi|[_ Hi]]%lookup_app_Some; [eauto|].
        apply list_lookup_singleton_Some in Hi as [_ <-]. done. }
    exists s'. split_and!; try done.
    + simpl. unfold orchestrator_step. simpl. rewrite Ho, Hrq. simpl.
      assert ((diagnosis_collected_count s <? num_patients s) = true) as ->
        by (apply Z.ltb_lt; lia).
      exact Hrun.
    + rewrite Ec'. simpl. lia.
    + rewrite El'. simpl. rewrite length_app. simpl. lia.
Qed.

Lemma settled_done c :
  settled c = true → pc c ≠ A_failed → pc c ≠ A_raised →
  pc c = A_done ∧ status (patient c) = DISCHARGED.
Proof.
  unfold settled, finished, discharged. intros Hs Hf Hr.
  destruct (pc c); try done. simpl in Hs. split; [done|].
  by apply bool_decide_eq_true in Hs.
Qed.

(** Once everything is collected and every patient is discharged, the
    orchestrator goes through lines 273-289. *)
Lemma orchestrator_shuts_down n nd nb t (s : Simulation) :
  reachable n nd nb s → fault_free s →
  orchestrator s = O_collect →
  num_patients s ≤ diagnosis_collected_count s →
  forallb settled (allocation_tasks s) = true →
  ∃ s', run [Orchestrator_runs; Orchestrator_runs; Orchestrator_runs;
             Orchestrator_runs; Discharge_runs Normal t; Orchestrator_runs] s
        = Some s' ∧
        orchestrator s' = O_shutdown ∧ discharge_task_done s' = true ∧
        resources s' = resources s ∧
        allocation_tasks s' = allocation_tasks s.
Proof.
  intros Hr (Hcr & Hnl & Hnf) Ho Hle Hall.
  pose proof (shape_ok_reachable n nd nb s Hr) as (_ & _ & _ & Hq & Hd).
  destruct (pending_ok_reachable n nd nb s Hr) as (_ & Hdone).
  destruct (totals_ok_reachable n nd nb s Hr) as (_ & Eun & _).
  assert (∀ i, ¬ awaiting_discharge s i) as Hna.
  { intros i (c & Hc & Hpc & Hst).
    pose proof (forallb_lookup settled _ i c Hall Hc) as Hs.
    destruct (settled_done c Hs) as [_ Hst']; [by apply (Hnf i c)..|].
    congruence. }
  assert (unfinished_tasks (discharge_queue (resources s)) = 0) as Hun.
  { rewrite Eun, (count_zero is_lost).
    - destruct (queue_items s) as [|i q] eqn:Eq.
      + destruct (discharge_task s) as [| |i| |] eqn:Hdt; try done.
        destruct (Hd i eq_refl) as (_ & Haw). by apply Hna in Haw.
      + destruct (Hna i). apply Hq. by left.
    - intros e He. destruct e; try done. by apply Hnl in He. }
  assert (forallb finished (allocation_tasks s) = true) as Hfin.
  { apply forallb_forall. intros c Hc.
    rewrite forallb_forall in Hall. specialize (Hall c Hc).
    unfold settled in Hall. by apply andb_prop in Hall as [? _]. }
  assert (discharge_task_done s = false) as Hnd.
  { destruct (discharge_task_done s); [|done].
    specialize (Hdone eq_refl). congruence. }
  assert (orchestrator_step s = Some (set_orchestrator O_gather s)) as E1.
  { unfold orchestrator_step. rewrite Ho.
    by assert ((diagnosis_collected_count s <? num_patients s) = false) as ->
      by (apply Z.ltb_ge; lia). }
  assert (orchestrator_step (set_orchestrator O_gather s)
          = Some (set_orchestrator O_join s)) as E2.
  { unfold orchestrator_step. simpl. by rewrite Hfin. }
  assert (orchestrator_step (set_orchestrator O_join s)
          = Some (set_orchestrator O_cancel s)) as E3.
  { unfold orchestrator_step. simpl. by rewrite Hun. }
  assert (orchestrator_step (set_orchestrator O_cancel s)
          = Some (set_orchestrator O_await_cancelled
                    (request_cancel (set_orchestrator O_cancel s)))) as E4.
  { unfold orchestrator_step, discharge_task_done in *. simpl.
    by rewrite Hnd. }
  simpl. rewrite E1. simpl. rewrite E2. simpl. rewrite E3. simpl.
  rewrite E4. simpl.
  unfold discharge_task_done in Hnd.
  destruct (discharge_task s) as [| |i| |] eqn:Hdt; try done.
  - unfold discharge_step. simpl. rewrite Hdt. simpl.
    unfold orchestrator_step, discharge_task_done. simpl.
    eexists. split; [reflexivity|]. done.
  - unfold discharge_step. simpl. rewrite Hdt. simpl.
    unfold orchestrator_step, discharge_task_done. simpl.
    eexists. split; [reflexivity|]. done.
  - destruct (Hd i eq_refl) as (_ & Haw). by apply Hna in Haw.
Qed.


(** X15: with at least one doctor and one bed the simulation can
    always run to its end.  For every number of patients and every
    list of as many diagnosed patients delivered by the workers, there
    is a run of [hospital_simulation] that ends at line 289 with every
    patient discharged, [processed_patients] equal to [num_patients],
    both pools full and the discharge task ended by its cancellation. *)
Theorem simulation_can_complete n nd nb (res : HospitalResources) r order
    (d : DiagnosisDraws) (ps : list Patient) (h : Handle) (t : num) :
  0 < nd → 0 < nb → HospitalResources_init nd nb = Some res →
  Z.of_nat (length ps) = n →
  ∃ acts s,
    run acts (initial n (registration_stage r order res)) = Some s ∧
    results_delivered acts = n ∧
    orchestrator s = O_shutdown ∧ discharge_task_done s = true ∧
    Z.of_nat (length (allocation_tasks s)) = n ∧
    (∀ i c, allocation_tasks s !! i = Some c →
            pc c = A_done ∧ status (patient c) = DISCHARGED) ∧
    processed_patients (resources s) = n ∧
    (∀ k, semaphore k (resources s) = capacity nd nb k).
Proof.
  intros Hnd Hnb Hres Hlen.
  set (s0 := initial n (registration_stage r order res)).
  assert (reachable n nd nb s0) as Hr0 by by exists res, r, order, [].
  assert (fault_free s0) as Hff0.
  { split_and!; [done| |].
    - intros k Hk. by apply elem_of_nil in Hk.
    - intros i c Hc. done. }
  destruct (results_collected d ps s0) as (s1 & Hrun1 & Ho1 & Hrq1 & Ec1
                                           & En1 & Hff1 & El1);
    [done|done|simpl; lia|done|].
  pose proof (reachable_run n nd nb _ s0 s1 Hr0 Hrun1) as Hr1.
  destruct (tasks_run_to_end n nd nb h t (Z.to_nat (remaining s1)) s1)
    as (acts2 & s2 & Hrun2 & Hff2 & Hall2 & El2 & En2 & Erq2 & Ec2 & Eo2);
    [done|done|done|done|pose proof (remaining_nonneg s1); lia|].
  pose proof (reachable_run n nd nb _ s1 s2 Hr1 Hrun2) as Hr2.
  destruct (orchestrator_shuts_down n nd nb t s2)
    as (s3 & Hrun3 & Ho3 & Hd3 & Eres3 & Ets3); try done.
  { congruence. }
  { rewrite En2, En1, Ec2, Ec1. simpl. lia. }
  assert (∀ i c, allocation_tasks s2 !! i = Some c →
                 pc c = A_done ∧ status (patient c) = DISCHARGED) as Hdone.
  { intros i c Hc. destruct Hff2 as (_ & _ & Hnf).
    apply settled_done; [|by apply (Hnf i c)..].
    by apply (forallb_lookup settled _ i c Hall2). }
  assert (∀ f : AllocTask → bool,
            (∀ i c, allocation_tasks s2 !! i = Some c → f c = true) →
            number_of f (allocation_tasks s2)
            = Z.of_nat (length (allocation_tasks s2))) as Hcount.
  { intros f. generalize (allocation_tasks s2). clear.
    intros ts. induction ts as [|c ts IH]; intros Hf; [done|].
    simpl length. simpl number_of. rewrite (Hf 0%nat c eq_refl), IH.
    - simpl. lia.
    - intros i c' Hi. apply (Hf (S i) c' Hi). }
  set (acts := concat (map (λ p, [Worker_result d p; Orchestrator_runs]) ps)
               ++ acts2
               ++ [Orchestrator_runs; Orchestrator_runs; Orchestrator_runs;
                   Orchestrator_runs; Discharge_runs Normal t;
                   Orchestrator_runs]).
  assert (run acts s0 = Some s3) as Hrun.
  { unfold acts. rewrite run_app, Hrun1. simpl.
    rewrite run_app, Hrun2. exact Hrun3. }
  exists acts, s3.
  split_and!; try done.
  - destruct (delivered_run acts s0 s3 Hrun) as (_ & Ed & _).
    simpl in Ed.
    destruct (delivered_run _ s2 s3 Hrun3) as (_ & Ed3 & _).
    assert (results_delivered
              [Orchestrator_runs; Orchestrator_runs; Orchestrator_runs;
               Orchestrator_runs; Discharge_runs Normal t;
               Orchestrator_runs] = 0) as E0 by done.
    rewrite E0 in Ed3. rewrite Erq2, Hrq1, Ec2, Ec1 in Ed3.
    simpl in Ed3. lia.
  - rewrite Ets3, El2, El1. simpl. lia.
  - rewrite Ets3. done.
  - rewrite Eres3, (processed_reachable n nd nb s2 Hr2), Hcount.
    + rewrite El2, El1. simpl. lia.
    + intros i c Hc. destruct (Hdone i c Hc) as [_ Hst].
      unfold discharged. by rewrite bool_decide_eq_true_2.
  - intros k. rewrite Eres3.
    destruct (pools_ok_reachable n nd nb s2 Hr2 k) as [_ Hsum].
    rewrite held_number_of, number_of_zero in Hsum; [lia|].
    intros i c Hc. destruct (Hdone i c Hc) as [Hpc Hst].
    unfold holds, acquired, rolled_back, discharged. rewrite Hpc, Hst.
    simpl. by repeat case_bool_decide.
Qed.


(** One worker that takes a patient and finishes it before anything
    else happens does what [worker_iteration] does. *)
Lemma worker_takes_and_puts d d' w p q (st : DiagnosisStage) :
  stage_workers st !! w = Some W_get → stage_queue st = Some p :: q →
  ∃ st', stage_run [Worker_runs w Normal d'; Worker_runs w Normal d] st
         = Some st' ∧
         (true, stage_queue st', stage_results st')
         = worker_iteration d (stage_queue st) (stage_results st) ∧
         stage_workers st' = stage_workers st ∧
         stage_dropped st' = stage_dropped st.
Proof.
  intros Hw Hq.
  assert (worker_step w Normal d' st
          = Some (set_worker w (W_busy p) (set_stage_queue q st))) as E1.
  { unfold worker_step. by rewrite Hw, Hq. }
  assert (worker_step w Normal d
            (set_worker w (W_busy p) (set_stage_queue q st))
          = Some (set_worker w W_get
                    (put_result (snd (diagnose d p))
                       (set_worker w (W_busy p) (set_stage_queue q st)))))
    as E2.
  { unfold worker_step. simpl.
    by rewrite list_lookup_insert_eq by by eapply lookup_lt_Some. }
  simpl stage_run. rewrite E1. simpl. rewrite E2. simpl.
  eexists. split; [reflexivity|]. simpl. rewrite Hq. simpl.
  rewrite list_insert_insert_eq, list_insert_id by done. done.
Qed.

(** X16: a single worker serves the diagnosis queue in order.  When the
    patients [qs] and then the sentinel are put on the queue and one
    worker runs until it ends, the result queue holds the diagnosed
    patients in the order of [qs], nothing is left on the diagnosis
    queue, no patient was given up, and each pass of the worker is one
    [worker_iteration]. *)
Theorem single_worker_in_order d (qs : list Patient) :
  ∃ st,
    stage_run (map (λ p, Stage_put (Some p)) qs ++ [Stage_put None]
               ++ concat (map (λ _, [Worker_runs 0 Normal d;
                                     Worker_runs 0 Normal d]) qs)
               ++ [Worker_runs 0 Normal d])
              (stage_initial 1) = Some st ∧
    stage_results st = map (λ p, snd (diagnose d p)) qs ∧
    stage_queue st = [] ∧ stage_workers st = [W_finished] ∧
    stage_dropped st = [].
Proof.
  assert (∀ (items : list (option Patient)) st0,
            stage_run (map Stage_put items) st0
            = Some (set_stage_queue (stage_queue st0 ++ items) st0))
    as Hputs.
  { intros items. induction items as [|x items IH]; intros st0; simpl.
    - rewrite app_nil_r. by destruct st0.
    - rewrite IH. simpl. by rewrite <- app_assoc. }
  assert (∀ (qs : list Patient) st0,
            stage_workers st0 = [W_get] →
            stage_queue st0 = map Some qs ++ [None] →
            ∃ st, stage_run
                    (concat (map (λ _, [Worker_runs 0 Normal d;
                                        Worker_runs 0 Normal d]) qs)
                     ++ [Worker_runs 0 Normal d]) st0 = Some st ∧
                  stage_results st
                  = stage_results st0 ++ map (λ p, snd (diagnose d p)) qs ∧
                  stage_queue st = [] ∧ stage_workers st = [W_finished] ∧
                  stage_dropped st = stage_dropped st0) as Hloop.
  { clear. intros qs. induction qs as [|p qs IH]; intros st0 Hw Hq.
    - simpl in *. unfold worker_step. rewrite Hw, Hq. simpl.
      eexists. split; [reflexivity|]. simpl. rewrite Hw, app_nil_r. done.
    - simpl in Hq.
      destruct (worker_takes_and_puts d d 0%nat p (map Some qs ++ [None]) st0)
        as (st1 & Hrun1 & Hit & Ew & Ed); [by rewrite Hw|done|].
      rewrite Hq in Hit. simpl in Hit. injection Hit as Eq1 Er1.
      destruct (IH st1) as (st & Hrun & Er & Eq & Ew' & Ed');
        [congruence|done|].
      exists st. split_and!; try done; [|by rewrite Er, Er1, <- app_assoc
                                        |congruence].
      change (concat (map (λ _, [Worker_runs 0 Normal d;
                                 Worker_runs 0 Normal d]) (p :: qs))
              ++ [Worker_runs 0 Normal d])
        with ([Worker_runs 0 Normal d; Worker_runs 0 Normal d]
              ++ (concat (map (λ _, [Worker_runs 0 Normal d;
                                     Worker_runs 0 Normal d]) qs)
                  ++ [Worker_runs 0 Normal d])).
      rewrite stage_run_app, Hrun1. exact Hrun. }
  destruct (Hloop qs (set_stage_queue (map Some qs ++ [None])
                        (stage_initial 1)))
    as (st & Hrun & Er & Eq & Ew & Ed); [done..|].
  exists st. split_and!; try done.
  rewrite app_assoc, stage_run_app.
  assert (map (λ p, Stage_put (Some p)) qs ++ [Stage_put None]
          = map Stage_put (map Some qs ++ [None])) as ->.
  { rewrite map_app, map_map. done. }
  rewrite Hputs. simpl. exact Hrun.
Qed.

End Hospital.

(** * Exact and binary64 arithmetic of the running mean *)

Lemma of_int_add (a b : Z) :
  num_of_int (num:=Qc) (a + b) = (num_of_int a + num_of_int b)%Qc.
Proof.
  simpl. apply Qc_is_canon. simpl. rewrite !Qred_correct.
  by rewrite inject_Z_plus.
Qed.








(** * The statements on a small run *)

(** C7, as stated: two passes of the worker on the same patient with
    different severity draws put different payloads on the result
    queue. *)
Lemma diagnosis_payload_depends_on_draws :
  worker_iteration (num:=float) demo_draws [Some demo_patient] []
  ≠ worker_iteration demo_draws_other [Some demo_patient] [].
Proof.
  intros Heq.
  apply (f_equal (λ x, match snd x with
                       | [q] => match diagnosis q with
                                | Some dg => severity dg
                                | None => 0
                                end
                       | _ => 0
                       end)) in Heq.
  vm_compute in Heq. discriminate Heq.
Qed.

Lemma Patient_lt_critical_low_raises :
  priority (set_priority CRITICAL (demo_patient (num:=float)))
  ≠ priority (set_priority LOW demo_patient_2) ∧
  Patient_lt (set_priority CRITICAL (demo_patient (num:=float)))
             (set_priority LOW demo_patient_2)
  = RaisesTypeError.
Proof.
  split; [discriminate|].
  apply Patient_lt_distinct_priorities_raises. discriminate.
Defined.


Lemma demo_reachable acts (s : @Simulation float) :
  run acts demo_initial = Some s → reachable 1 1 1 s.
Proof.
  intros Hrun. exists demo_resources, (λ _, 0%nat), [], acts.
  split; [reflexivity|exact Hrun].
Defined.

Lemma demo_at_bed_reachable : reachable 1 1 1 (demo_at_bed (num:=float)).
Proof.
  apply (demo_reachable (demo_to_doctor ++ demo_doctor)).
  vm_compute. reflexivity.
Defined.

Lemma demo_cancelling_reachable :
  reachable 1 1 1 (demo_cancelling (num:=float)).
Proof.
  apply (demo_reachable (demo_to_doctor ++ demo_doctor ++ demo_to_cancel)).
  vm_compute. reflexivity.
Defined.


Lemma discharged_patient_releases_witness :
  reachable 1 1 1 (demo_cancelling (num:=float)) ∧
  occ (EvAcquire Doctor 0) (trace (demo_cancelling (num:=float))) = 1 ∧
  occ (EvRelease Discharge Doctor 0) (trace (demo_cancelling (num:=float)))
  = 1.
Proof.
  split; [exact demo_cancelling_reachable|].
  destruct (discharged_patient_releases 1 1 1 demo_cancelling
              demo_cancelling_reachable) as (Hdis & _).
  destruct (Hdis 0%nat _ eq_refl eq_refl Doctor) as (Ha & Hr & _).
  split; assumption.
Defined.

Lemma pools_within_capacity_witness :
  reachable 1 1 1 (demo_at_bed (num:=float)) ∧
  held Doctor (allocation_tasks (demo_at_bed (num:=float))) = 1 ∧
  semaphore Doctor (resources (demo_at_bed (num:=float))) = 0.
Proof.
  split; [exact demo_at_bed_reachable|].
  destruct (pools_within_capacity 1 1 1 demo_at_bed demo_at_bed_reachable
              Doctor) as (H0 & H1 & H2 & H3 & H4 & H5).
  split; [|reflexivity]. rewrite H3. reflexivity.
Defined.

Lemma doctor_before_bed_witness :
  reachable 1 1 1 (demo_cancelling (num:=float)) ∧
  trace (demo_cancelling (num:=float))
  = [EvCancel; EvDischarged 0; EvRelease Discharge Bed 0;
     EvRelease Discharge Doctor 0; EvDequeue 0; EvEnqueue 0]
    ++ EvAcquire Bed 0 :: [EvAcquire Doctor 0; EvCollect 0] ∧
  EvAcquire Doctor 0 ∈ [EvAcquire Doctor 0; EvCollect 0].
Proof.
  split; [exact demo_cancelling_reachable|]. split; [reflexivity|].
  destruct (doctor_before_bed 1 1 1 demo_cancelling
              demo_cancelling_reachable) as (Hord & _).
  apply (Hord 0%nat
           [EvCancel; EvDischarged 0; EvRelease Discharge Bed 0;
            EvRelease Discharge Doctor 0; EvDequeue 0; EvEnqueue 0]).
  reflexivity.
Defined.

Lemma collection_loop_witness :
  0 ≤ 1 ∧ reachable 1 1 1 (demo_cancelling (num:=float)) ∧
  diagnosis_collected_count (demo_cancelling (num:=float)) = 1.
Proof.
  split; [lia|]. split; [exact demo_cancelling_reachable|].
  destruct (collection_loop 1 1 1 demo_cancelling ltac:(lia)
              demo_cancelling_reachable) as (_ & _ & _ & Hn & _).
  apply Hn. discriminate.
Defined.



(** * The further properties on small runs *)

Lemma demo_at_lock_reachable : reachable 1 1 1 (demo_at_lock (num:=float)).
Proof.
  apply (demo_reachable (demo_to_doctor ++ demo_doctor
                         ++ [demo_alloc Normal; demo_alloc Normal])).
  vm_compute. reflexivity.
Defined.

Lemma demo_in_treatment_reachable :
  reachable 1 1 1 (demo_in_treatment (num:=float)).
Proof.
  apply (demo_reachable (demo_to_doctor ++ demo_doctor
                         ++ [demo_alloc Normal; demo_alloc Normal;
                             demo_alloc Normal])).
  vm_compute. reflexivity.
Defined.

Lemma demo_lost_reachable : reachable 1 1 1 (demo_lost (num:=float)).
Proof. apply (demo_reachable demo_to_lost). vm_compute. reflexivity. Defined.

Lemma demo_no_doctor_reachable :
  reachable 1 0 1 (demo_no_doctor (num:=float)).
Proof.
  exists demo_resources_no_doctor, (λ _, 0%nat), [], demo_to_no_doctor.
  split; [reflexivity|]. vm_compute. reflexivity.
Defined.

Lemma status_moves_forward_witness :
  reachable 1 1 1 (demo_at_lock (num:=float)) ∧
  step (demo_alloc Normal) (demo_at_lock (num:=float))
  = Some demo_in_treatment ∧
  ∃ c c', allocation_tasks (demo_at_lock (num:=float)) !! 0%nat = Some c ∧
          allocation_tasks (demo_in_treatment (num:=float)) !! 0%nat
          = Some c' ∧
          status (patient c) = WAITING_RESOURCE ∧
          id (patient c') = id (patient c) ∧
          PatientStatus_value (status (patient c'))
          ≤ PatientStatus_value (status (patient c)) + 1.
Proof.
  assert (step (demo_alloc Normal) (demo_at_lock (num:=float))
          = Some demo_in_treatment) as Hstep by (vm_compute; reflexivity).
  split; [exact demo_at_lock_reachable|]. split; [exact Hstep|].
  destruct (status_moves_forward 1 1 1 demo_at_lock demo_in_treatment
              (demo_alloc Normal) 0%nat _ demo_at_lock_reachable Hstep
              eq_refl) as (c' & Hc' & Hid & _ & _ & _ & _ & Hle).
  eexists. exists c'. split; [reflexivity|]. split; [exact Hc'|].
  split; [reflexivity|]. split; [exact Hid|exact Hle].
Defined.

Lemma treatment_within_capacity_witness :
  reachable 1 1 1 (demo_in_treatment (num:=float)) ∧
  number_of in_treatment (allocation_tasks (demo_in_treatment (num:=float)))
  ≤ Z.min 1 1.
Proof.
  split; [exact demo_in_treatment_reachable|].
  exact (proj1 (treatment_within_capacity 1 1 1 demo_in_treatment
                  demo_in_treatment_reachable)).
Defined.


Lemma discharge_queue_fifo_witness :
  reachable 1 1 1 (demo_cancelling (num:=float)) ∧
  enqueued (trace (demo_cancelling (num:=float)))
  = dequeued (trace (demo_cancelling (num:=float)))
    ++ queue_items (demo_cancelling (num:=float)).
Proof.
  split; [exact demo_cancelling_reachable|].
  exact (discharge_queue_fifo 1 1 1 demo_cancelling
           demo_cancelling_reachable).
Defined.

Lemma lost_patient_keeps_units_witness :
  reachable 1 1 1 (demo_lost (num:=float)) ∧
  EvLost 0 ∈ trace (demo_lost (num:=float)) ∧
  semaphore Doctor (resources (demo_lost (num:=float))) < 1 ∧
  joined (orchestrator (demo_lost (num:=float))) = false.
Proof.
  assert (EvLost 0 ∈ trace (demo_lost (num:=float))) as Hin
    by (vm_compute; apply list_elem_of_In; simpl; tauto).
  split; [exact demo_lost_reachable|]. split; [exact Hin|].
  destruct (lost_patient_keeps_units 1 1 1 demo_lost 0%nat
              demo_lost_reachable Hin) as (_ & _ & _ & Hj & Hsem).
  split; [exact (Hsem Doctor)|exact Hj].
Defined.

Lemma collection_needs_all_results_witness :
  run demo_to_doctor (initial 1 (demo_resources (num:=float)))
  = Some demo_at_doctor ∧
  diagnosis_collected_count (demo_at_doctor (num:=float))
  + Z.of_nat (length (diagnosis_result_queue (demo_at_doctor (num:=float))))
  = results_delivered (demo_to_doctor (num:=float)).
Proof.
  assert (run demo_to_doctor (initial 1 (demo_resources (num:=float)))
          = Some demo_at_doctor) as Hrun by (vm_compute; reflexivity).
  split; [exact Hrun|].
  exact (proj1 (collection_needs_all_results 1 demo_resources demo_to_doctor
                  demo_at_doctor Hrun)).
Defined.

Lemma empty_pool_blocks_witness :
  reachable 1 0 1 (demo_no_doctor (num:=float)) ∧
  capacity 0 1 Doctor = 0 ∧
  processed_patients (resources (demo_no_doctor (num:=float))) = 0 ∧
  alloc_step 0 Normal demo_handle (num_of_int 10)
    (demo_no_doctor (num:=float)) = None.
Proof.
  split; [exact demo_no_doctor_reachable|]. split; [reflexivity|].
  destruct (empty_pool_blocks 1 0 1 demo_no_doctor Doctor
              demo_no_doctor_reachable eq_refl) as (_ & _ & Hp & Htasks).
  split; [exact Hp|].
  destruct (Htasks 0%nat _ eq_refl) as (_ & _ & _ & Hblock).
  exact (Hblock demo_handle (num_of_int 10) eq_refl).
Defined.


Lemma empty_simulation_witness :
  0 ≤ 0 ∧
  HospitalResources_init 1 1 = Some (demo_resources (num:=float)) ∧
  patients_to_register (num:=float) (λ _, (0%nat, num_of_int 0)) 0 = [].
Proof.
  split; [lia|]. split; [reflexivity|].
  exact (proj1 (empty_simulation 0 1 1 (λ _, (0%nat, num_of_int 0))
                  (λ _, 0%nat) (num_of_int 0) demo_resources
                  ltac:(lia) eq_refl)).
Defined.


Lemma diagnosis_stage_conservation_witness :
  stage_run demo_stage_acts (stage_initial 1)
  = Some (demo_stage (num:=float)) ∧
  map id (stage_results (demo_stage (num:=float))) = [1] ∧
  length (stage_workers (demo_stage (num:=float))) = 1%nat.
Proof.
  assert (stage_run demo_stage_acts (stage_initial 1)
          = Some (demo_stage (num:=float))) as Hrun
    by (vm_compute; reflexivity).
  split; [exact Hrun|]. split; [reflexivity|].
  exact (proj2 (proj2 (diagnosis_stage_conservation 1 demo_stage_acts
                         demo_stage Hrun))).
Defined.

Lemma sentinels_end_workers_witness :
  stage_run demo_stage_acts (stage_initial 1)
  = Some (demo_stage (num:=float)) ∧
  sentinels (omap put_item (demo_stage_acts (num:=float)))
  = (sentinels (stage_queue (demo_stage (num:=float)))
     + workers_at is_finished (stage_workers (demo_stage (num:=float))))%nat.
Proof.
  assert (stage_run demo_stage_acts (stage_initial 1)
          = Some (demo_stage (num:=float))) as Hrun
    by (vm_compute; reflexivity).
  split; [exact Hrun|].
  exact (proj1 (sentinels_end_workers 1 demo_stage_acts demo_stage []
                  demo_draws Hrun)).
Defined.


Lemma simulation_can_complete_witness :
  0 < 1 ∧ HospitalResources_init 1 1 = Some (demo_resources (num:=float)) ∧
  ∃ acts s,
    run acts (initial 1 (registration_stage (λ _, 0%nat) []
                           (demo_resources (num:=float)))) = Some s ∧
    orchestrator s = O_shutdown ∧ processed_patients (resources s) = 1.
Proof.
  split; [lia|]. split; [reflexivity|].
  destruct (simulation_can_complete (num:=float) 1 1 1 demo_resources
              (λ _, 0%nat) []
              demo_draws [demo_patient] demo_handle (num_of_int 10)
              ltac:(lia) ltac:(lia) eq_refl eq_refl)
    as (acts & s & Hrun & _ & Ho & _ & _ & _ & Hp & _).
  exists acts, s. split; [exact Hrun|]. split; [exact Ho|exact Hp].
Defined.
